(** * born-toggle: the trigger/target state machine of [src/born-toggle.js]

    A shallow embedding of the [Toggle] class.  The page is an explicit
    store threaded through a small state-and-exception monad: an element is
    a handle into the store, so that two triggers whose [parentEl] is the
    same element really share its class list.  What belongs to the browser
    and not to the source file (selector matching, user-supplied hooks,
    [JSON.parse], [hasURLParameter]) is the interface [Browser].

    Conventions of the model:
    - a JavaScript exception ends the run and the page is dropped;
    - the tree of the document does not change, the class never moves a
      node: an element carries the chain of its ancestors; the document
      has a body, [document.activeElement] is an element (the body when
      nothing else has the focus), and the target of an event is an
      element;
    - options are typed: a selector option is a string or is missing, an
      option that is only tested for truth is any value, a hook option is a
      function or is missing;
    - a selector handed to the DOM is parsed first, and one that does not
      parse throws; which elements a selector matches is the browser's
      business, also for ['.' + activeClass]; a class list holds tokens,
      and adding or removing a string that is none throws;
    - a character of a string is a code unit below 256;
    - every effect on the outside (a hook called, a class added or removed,
      a warning) is appended to the trace of the page. *)

From Stdlib Require Import List String Ascii ZArith Bool Arith Lia.
Import ListNotations.
Open Scope string_scope.
Open Scope list_scope.

(** ** Values *)

(** The values an option can hold.  Numbers are the integral ones; [JObject]
    is a plain object. *)
Inductive JSValue :=
| JUndefined
| JNull
| JBool (b : bool)
| JNum (z : Z)
| JStr (s : string)
| JObject.

(** ToBoolean. *)
Definition truthy (v : JSValue) : bool :=
  match v with
  | JUndefined | JNull => false
  | JBool b => b
  | JNum z => negb (Z.eqb z 0)
  | JStr s => negb (String.eqb s "")
  | JObject => true
  end.

(** *** StringToNumber, as far as [isNaN] needs it *)

Definition is_space (c : ascii) : bool :=
  let n := nat_of_ascii c in
  (((9 <=? n) && (n <=? 13)) || (n =? 32) || (n =? 160))%nat.

Definition is_digit (c : ascii) : bool :=
  let n := nat_of_ascii c in ((48 <=? n) && (n <=? 57))%nat.

Definition is_hex_digit (c : ascii) : bool :=
  let n := nat_of_ascii c in
  is_digit c || (((65 <=? n) && (n <=? 70)) || ((97 <=? n) && (n <=? 102)))%nat.

Definition is_octal_digit (c : ascii) : bool :=
  let n := nat_of_ascii c in ((48 <=? n) && (n <=? 55))%nat.

Definition is_binary_digit (c : ascii) : bool :=
  let n := nat_of_ascii c in ((48 <=? n) && (n <=? 49))%nat.

Fixpoint drop_while (f : ascii -> bool) (l : list ascii) : list ascii :=
  match l with
  | c :: l' => if f c then drop_while f l' else l
  | [] => []
  end.

Definition trim (l : list ascii) : list ascii :=
  rev (drop_while is_space (rev (drop_while is_space l))).

Definition nonempty_all (f : ascii -> bool) (l : list ascii) : bool :=
  match l with
  | [] => false
  | _ => forallb f l
  end.

Definition drop_sign (l : list ascii) : list ascii :=
  match l with
  | c :: l' => if (Ascii.eqb c "+" || Ascii.eqb c "-")%char then l' else l
  | [] => []
  end.

(** ExponentPart, or nothing. *)
Definition is_exponent_opt (l : list ascii) : bool :=
  match l with
  | [] => true
  | c :: l' =>
      (Ascii.eqb c "e" || Ascii.eqb c "E")%char
      && nonempty_all is_digit (drop_sign l')
  end.

(** StrUnsignedDecimalLiteral without [Infinity]. *)
Definition is_unsigned_decimal (l : list ascii) : bool :=
  let frac := drop_while is_digit l in
  let has_int := negb (List.length frac =? List.length l)%nat in
  match frac with
  | c :: l' =>
      if Ascii.eqb c "."%char then
        let rest := drop_while is_digit l' in
        let has_frac := negb (List.length rest =? List.length l')%nat in
        (has_int || has_frac) && is_exponent_opt rest
      else has_int && is_exponent_opt frac
  | [] => has_int
  end.

Definition is_radix_literal (l : list ascii) : bool :=
  match l with
  | z :: x :: ds =>
      Ascii.eqb z "0"%char
      && (((Ascii.eqb x "x" || Ascii.eqb x "X")%char && nonempty_all is_hex_digit ds)
          || ((Ascii.eqb x "o" || Ascii.eqb x "O")%char && nonempty_all is_octal_digit ds)
          || ((Ascii.eqb x "b" || Ascii.eqb x "B")%char && nonempty_all is_binary_digit ds))
  | _ => false
  end.

(** Whether [Number(s)] is a number: blank strings are [0]. *)
Definition string_is_numeric (s : string) : bool :=
  let l := trim (list_ascii_of_string s) in
  match l with
  | [] => true
  | _ =>
      is_radix_literal l
      || String.eqb (string_of_list_ascii (drop_sign l)) "Infinity"
      || is_unsigned_decimal (drop_sign l)
  end.

(** The global [isNaN]: its argument goes through ToNumber first. *)
Definition isNaN (v : JSValue) : bool :=
  match v with
  | JUndefined => true
  | JNull => false
  | JBool _ => false
  | JNum _ => false
  | JStr s => negb (string_is_numeric s)
  | JObject => true
  end.

(** [s.indexOf(needle) >= 0]. *)
Fixpoint includes (needle s : string) : bool :=
  String.prefix needle s
  || match s with
     | EmptyString => false
     | String _ s' => includes needle s'
     end.

(** [s.split(' ')]: every piece between two spaces, the empty ones too. *)
Fixpoint split_acc (cur : string) (s : string) : list string :=
  match s with
  | EmptyString => [cur]
  | String c s' =>
      if Ascii.eqb c " "%char then cur :: split_acc "" s'
      else split_acc (cur ++ String c "")%string s'
  end.

Definition split_space (s : string) : list string := split_acc "" s.

(** ** The page *)

Definition elem := nat.

Record Event := {
  ev_type : string;
  ev_target : elem;
  ev_keyCode : Z
}.

(** A hook slot holds the fallback [function() { return true; }] or a
    function supplied in the options, named by a number. *)
Inductive HookRef :=
| DefaultHook
| UserHook (f : nat).

Inductive HookName :=
| BeforeUnset
| AfterUnset
| BeforeUnsetAll
| BeforeSet
| AfterSet.

(** Function objects registered as listeners.  The three methods are one
    object each; [blurCallback] and [mouseLeaveCallback] are closures, a new
    object every time [set] evaluates the function expression, told apart by
    a serial number. *)
Inductive Callback :=
| ToggleEventHandler
| CloseElCallback
| ToggleOnReturn
| BlurCallback (serial : nat) (trigger : elem) (bodyEvtType : string)
| MouseLeaveCallback (serial : nat) (trigger : elem).

Record Listener := {
  l_type : string;
  l_callback : Callback;
  l_capture : bool
}.

(** What a pending [window.setTimeout] will call: [Toggle.set.bind(this,
    trigger)] or [Toggle.unset.bind(this, trigger)]. *)
Inductive TimerTask :=
| CallSet (trigger : elem)
| CallUnset (trigger : elem).

Record Timer := {
  t_task : TimerTask;
  t_delay : JSValue
}.

Record Breakpoint := {
  bp_min : option Z;
  bp_max : option Z
}.

(** An options object as written by the user: the constructor's, or the
    parsed [data-toggle] payload.  [None] is a missing property. *)
Record RawOptions := {
  r_closeSelector : option string;
  r_activeClass : option string;
  r_unsetSelf : option JSValue;
  r_parent : option string;
  r_target : option string;
  r_event : option string;
  r_persist : option JSValue;
  r_unsetOnHoverOut : option JSValue;
  r_timeout : option JSValue;
  r_siblingSelector : option string;
  r_skipSelector : option string;
  r_auto : option JSValue;
  r_beforeUnset : option nat;
  r_afterUnset : option nat;
  r_beforeUnsetAll : option nat;
  r_beforeSet : option nat;
  r_afterSet : option nat;
  r_breakpoints : option (list (string * Breakpoint))
}.

(** [trigger.toggle.options], as [_getOptions] returns it. *)
Record Options := {
  closeSelector : string;
  activeClass : string;
  unsetSelf : JSValue;
  parent : option string;
  target : option string;
  event : option string;
  persist : JSValue;
  unsetOnHoverOut : JSValue;
  timeout : JSValue;
  siblingSelector : option string;
  skipSelector : option string;
  auto : JSValue;
  opt_beforeUnset : option nat;
  opt_afterUnset : option nat;
  opt_beforeUnsetAll : option nat;
  opt_beforeSet : option nat;
  opt_afterSet : option nat
}.

(** [trigger.toggle].  A slot is [None] while the property is undefined.
    [methods] stands for the three properties [toggle], [set] and [unset]:
    the trigger the three static methods are bound to. *)
Record ToggleState := {
  options : option Options;
  parentEl : option elem;
  targetEl : option elem;
  beforeUnset : option HookRef;
  afterUnset : option HookRef;
  beforeUnsetAll : option HookRef;
  beforeSet : option HookRef;
  afterSet : option HookRef;
  methods : option elem
}.

(** An element.  [ancestors] is the chain of its ancestors in the tree,
    nearest first; the program never changes it. *)
Record Element := {
  nodeName : string;
  ancestors : list elem;
  attributes : list (string * string);
  classList : list string;
  listeners : list Listener;
  toggle : option ToggleState;
  toggleTrigger : option elem
}.

(** What the program does to the outside, in order. *)
Inductive Effect :=
| Called (h : HookName) (trigger : elem)
| ClassAdded (e : elem) (c : string)
| ClassRemoved (e : elem) (c : string)
| Warned (trigger : elem)
| DefaultPrevented
| PropagationStopped.

Record Page := {
  els : elem -> Element;
  doc : list elem;
  body : elem;
  offsetWidth : Z;
  activeElement : elem;
  documentListeners : list Listener;
  timers : list Timer;
  closures : nat;
  trace : list Effect
}.

(** Every way into the program once triggers are set up: a call of one of
    the four static methods, a registered function called with [this] and an
    event, or a pending timer coming due. *)
Inductive Op :=
| OpSet (trigger : elem) (evt : option Event) (evtType : option string)
| OpUnset (trigger : elem)
| OpToggle (trigger : elem) (evt : option Event)
| OpUnsetAll (refTrigger : elem)
| OpListener (cb : Callback) (this : elem) (evt : Event)
| OpTimer (n : nat).

(** The constructor's [this]. *)
Record Instance := {
  triggers : list elem;
  dataAttribute : option string;
  defaults : RawOptions
}.

(** ** Field updates *)

Definition with_classList (v : list string) (x : Element) : Element :=
  {| nodeName := nodeName x; ancestors := ancestors x;
     attributes := attributes x; classList := v; listeners := listeners x;
     toggle := toggle x; toggleTrigger := toggleTrigger x |}.

Definition with_listeners (v : list Listener) (x : Element) : Element :=
  {| nodeName := nodeName x; ancestors := ancestors x;
     attributes := attributes x; classList := classList x; listeners := v;
     toggle := toggle x; toggleTrigger := toggleTrigger x |}.

Definition with_attributes (v : list (string * string)) (x : Element) : Element :=
  {| nodeName := nodeName x; ancestors := ancestors x;
     attributes := v; classList := classList x; listeners := listeners x;
     toggle := toggle x; toggleTrigger := toggleTrigger x |}.

Definition with_toggle (v : option ToggleState) (x : Element) : Element :=
  {| nodeName := nodeName x; ancestors := ancestors x;
     attributes := attributes x; classList := classList x;
     listeners := listeners x; toggle := v; toggleTrigger := toggleTrigger x |}.

Definition with_toggleTrigger (v : option elem) (x : Element) : Element :=
  {| nodeName := nodeName x; ancestors := ancestors x;
     attributes := attributes x; classList := classList x;
     listeners := listeners x; toggle := toggle x; toggleTrigger := v |}.

Definition with_els (v : elem -> Element) (p : Page) : Page :=
  {| els := v; doc := doc p; body := body p; offsetWidth := offsetWidth p;
     activeElement := activeElement p;
     documentListeners := documentListeners p; timers := timers p;
     closures := closures p; trace := trace p |}.

Definition with_documentListeners (v : list Listener) (p : Page) : Page :=
  {| els := els p; doc := doc p; body := body p; offsetWidth := offsetWidth p;
     activeElement := activeElement p;
     documentListeners := v; timers := timers p;
     closures := closures p; trace := trace p |}.

Definition with_timers (v : list Timer) (p : Page) : Page :=
  {| els := els p; doc := doc p; body := body p; offsetWidth := offsetWidth p;
     activeElement := activeElement p;
     documentListeners := documentListeners p; timers := v;
     closures := closures p; trace := trace p |}.

Definition with_closures (v : nat) (p : Page) : Page :=
  {| els := els p; doc := doc p; body := body p; offsetWidth := offsetWidth p;
     activeElement := activeElement p;
     documentListeners := documentListeners p; timers := timers p;
     closures := v; trace := trace p |}.

Definition with_trace (v : list Effect) (p : Page) : Page :=
  {| els := els p; doc := doc p; body := body p; offsetWidth := offsetWidth p;
     activeElement := activeElement p;
     documentListeners := documentListeners p; timers := timers p;
     closures := closures p; trace := v |}.

(** The page with element [e] replaced by [f] of it. *)
Definition update (e : elem) (f : Element -> Element) (p : Page) : Page :=
  with_els (fun x => if Nat.eqb x e then f (els p x) else els p x) p.

(** The page with one more effect at the end of its trace. *)
Definition record (eff : Effect) (p : Page) : Page :=
  with_trace (trace p ++ [eff]) p.

(** ** Decidable equality of listeners *)

Definition Callback_eqb (a b : Callback) : bool :=
  match a, b with
  | ToggleEventHandler, ToggleEventHandler => true
  | CloseElCallback, CloseElCallback => true
  | ToggleOnReturn, ToggleOnReturn => true
  | BlurCallback i t s, BlurCallback j u r =>
      Nat.eqb i j && Nat.eqb t u && String.eqb s r
  | MouseLeaveCallback i t, MouseLeaveCallback j u =>
      Nat.eqb i j && Nat.eqb t u
  | _, _ => false
  end.

(** The same registration: same type, same function object, same capture
    flag. *)
Definition Listener_eqb (a b : Listener) : bool :=
  String.eqb (l_type a) (l_type b)
  && Callback_eqb (l_callback a) (l_callback b)
  && Bool.eqb (l_capture a) (l_capture b).

(** ** The monad: a page threaded through, or an exception *)

(** [DOMException] is what the DOM throws: for a selector that does not
    parse, and for a class token that is empty or holds white space. *)
Inductive Error :=
| TypeError
| SyntaxError
| DOMException.

Inductive Result (A : Type) :=
| Ok (a : A)
| Throw (e : Error).

Arguments Ok {A} a.
Arguments Throw {A} e.

Definition M (A : Type) : Type := Page -> Result (A * Page).

Definition ret {A : Type} (a : A) : M A := fun p => Ok (a, p).

Definition bind {A B : Type} (m : M A) (k : A -> M B) : M B :=
  fun p =>
    match m p with
    | Ok (a, q) => k a q
    | Throw e => Throw e
    end.

Definition throw {A : Type} (e : Error) : M A := fun _ => Throw e.

Definition get : M Page := fun p => Ok (p, p).

Definition modify (f : Page -> Page) : M unit := fun p => Ok (tt, f p).

Notation "x <- m ;; k" := (bind m (fun x => k))
  (at level 61, m at next level, right associativity).
Notation "m ;;; k" := (bind m (fun _ => k))
  (at level 61, right associativity).

(** Reading a property of [null] or [undefined], or calling it. *)
Definition deref {A : Type} (o : option A) : M A :=
  match o with
  | Some a => ret a
  | None => throw TypeError
  end.

(** [when c m]: [if (c) { m }]. *)
Definition when (c : bool) (m : M unit) : M unit :=
  if c then m else ret tt.

Fixpoint forEach {A : Type} (l : list A) (f : A -> M unit) : M unit :=
  match l with
  | [] => ret tt
  | a :: l' => f a ;;; forEach l' f
  end.

(** ** DOM primitives *)

(** A class token: not empty and without ASCII white space. *)
Definition is_token (c : string) : bool :=
  negb (String.eqb c "")
  && forallb (fun a =>
                let n := nat_of_ascii a in
                negb ((n =? 9) || (n =? 10) || (n =? 12) || (n =? 13)
                      || (n =? 32))%nat)
       (list_ascii_of_string c).

(** [e.classList.contains(c)]: the tokens of an element are tokens, and a
    string that is none is not among them. *)
Definition has_class (p : Page) (e : elem) (c : string) : bool :=
  is_token c && existsb (String.eqb c) (classList (els p e)).

Definition classList_contains (e : elem) (c : string) : M bool :=
  fun p => Ok (has_class p e c, p).

Definition add_token (c : string) (l : list string) : list string :=
  if existsb (String.eqb c) l then l else l ++ [c].

Definition remove_token (c : string) (l : list string) : list string :=
  filter (fun x => negb (String.eqb c x)) l.

(** [e.classList.add(c)] and [e.classList.remove(c)] throw on a string
    that is no token. *)
Definition classList_add (e : elem) (c : string) : M unit :=
  if is_token c then
    modify (fun p =>
      record (ClassAdded e c)
        (update e (fun x => with_classList (add_token c (classList x)) x) p))
  else throw DOMException.

Definition classList_remove (e : elem) (c : string) : M unit :=
  if is_token c then
    modify (fun p =>
      record (ClassRemoved e c)
        (update e (fun x => with_classList (remove_token c (classList x)) x) p))
  else throw DOMException.

Definition add_listener (l : Listener) (ls : list Listener) : list Listener :=
  if existsb (Listener_eqb l) ls then ls else ls ++ [l].

Definition remove_listener (l : Listener) (ls : list Listener) : list Listener :=
  filter (fun x => negb (Listener_eqb l x)) ls.

Definition addEventListener (e : elem) (type : string) (cb : Callback)
    (capture : bool) : M unit :=
  modify (update e (fun x =>
    with_listeners
      (add_listener {| l_type := type; l_callback := cb; l_capture := capture |}
         (listeners x)) x)).

Definition removeEventListener (e : elem) (type : string) (cb : Callback)
    (capture : bool) : M unit :=
  modify (update e (fun x =>
    with_listeners
      (remove_listener
         {| l_type := type; l_callback := cb; l_capture := capture |}
         (listeners x)) x)).

Definition setTimeout (task : TimerTask) (delay : JSValue) : M unit :=
  modify (fun p =>
    with_timers (timers p ++ [{| t_task := task; t_delay := delay |}]) p).

(** A function expression evaluated: a function object never seen before. *)
Definition new_closure : M nat :=
  fun p => Ok (closures p, with_closures (S (closures p)) p).

Definition getAttribute (p : Page) (e : elem) (name : string) : option string :=
  match find (fun kv => String.eqb name (fst kv)) (attributes (els p e)) with
  | Some kv => Some (snd kv)
  | None => None
  end.

Definition removeAttribute (e : elem) (name : string) : M unit :=
  modify (update e (fun x =>
    with_attributes
      (filter (fun kv => negb (String.eqb name (fst kv))) (attributes x)) x)).

(** [a.contains(b)]: [b] is [a] or below it. *)
Definition contains (p : Page) (a b : elem) : bool :=
  Nat.eqb a b || existsb (Nat.eqb a) (ancestors (els p b)).

Definition parentNode (p : Page) (e : elem) : option elem :=
  hd_error (ancestors (els p e)).

(** A selector argument that is [undefined] is turned into the string
    ["undefined"]. *)
Definition selector (o : option string) : string :=
  match o with
  | Some s => s
  | None => "undefined"
  end.

(** ** The browser

    What the class calls and this file does not define: selector parsing
    and matching, the functions the user put in the options,
    [hasURLParameter] of born-utilities and [JSON.parse]. *)

(** What [JSON.parse] returns: an object, read as options, or a value that
    is no object, such as [null] or a number. *)
Inductive Parsed :=
| ParsedObject (r : RawOptions)
| ParsedOther.

Class Browser := {
  (** Whether a selector parses. *)
  valid_selector : string -> bool;
  (** Whether an element matches a selector that parses, in a given page. *)
  matches : Page -> elem -> string -> bool;
  (** What the user's function number [f] answers when called with a trigger
      and an event in a given page.  Hooks are observers: they answer and
      leave the page as it is. *)
  user_hook : nat -> Page -> elem -> option Event -> bool;
  (** [hasURLParameter] of born-utilities. *)
  hasURLParameter : string -> bool;
  (** [JSON.parse] on a [data-toggle] payload; [None] when it throws. *)
  JSON_parse : string -> option Parsed
}.

(** ** The class [Toggle] *)

Section Toggle.

Context {B : Browser}.

(** The elements of the document that match, in document order. *)
Definition querySelectorAll (p : Page) (sel : string) : list elem :=
  filter (fun e => matches p e sel) (doc p).

(** [e.closest(sel)]: [e] itself or its nearest matching ancestor. *)
Definition closest (p : Page) (e : elem) (sel : string) : option elem :=
  find (fun a => matches p a sel) (e :: ancestors (els p e)).

(** [a.querySelector(sel)]: the first match strictly below [a]. *)
Definition querySelector_in (p : Page) (a : elem) (sel : string) : option elem :=
  find (fun e => existsb (Nat.eqb a) (ancestors (els p e)) && matches p e sel)
    (doc p).

(** A call of the DOM with a selector: the selector is parsed, then the
    page is read. *)
Definition checked {A : Type} (sel : string) (f : Page -> A) : M A :=
  fun p => if valid_selector sel then Ok (f p, p) else Throw DOMException.

(** [document.querySelectorAll(sel)].  The list is not live. *)
Definition document_querySelectorAll (sel : string) : M (list elem) :=
  checked sel (fun p => querySelectorAll p sel).

(** [document.querySelector(sel)]. *)
Definition document_querySelector (sel : string) : M (option elem) :=
  checked sel (fun p => hd_error (querySelectorAll p sel)).

(** [e.matches(sel)]. *)
Definition el_matches (e : elem) (sel : string) : M bool :=
  checked sel (fun p => matches p e sel).

(** [e.closest(sel)]. *)
Definition el_closest (e : elem) (sel : string) : M (option elem) :=
  checked sel (fun p => closest p e sel).

(** [a.querySelector(sel)]. *)
Definition el_querySelector (a : elem) (sel : string) : M (option elem) :=
  checked sel (fun p => querySelector_in p a sel).

(** Calling the function in a slot of [trigger.toggle]. *)
Definition call (h : HookName) (slot : option HookRef) (trigger : elem)
    (evt : option Event) : M bool :=
  f <- deref slot ;;
  p <- get ;;
  modify (record (Called h trigger)) ;;;
  ret match f with
      | DefaultHook => true
      | UserHook n => user_hook n p trigger evt
      end.

(** [trigger.toggle], which must be there to read anything from it. *)
Definition toggle_of (trigger : elem) : M ToggleState :=
  p <- get ;; deref (toggle (els p trigger)).

Definition Toggle_unset (trigger : elem) : M unit :=
  ts <- toggle_of trigger ;;
  o <- deref (options ts) ;;
  let c := activeClass o in
  active <- classList_contains trigger c ;;
  if active then
    ok <- call BeforeUnset (beforeUnset ts) trigger None ;;
    if ok then
      classList_remove trigger c ;;;
      par <- deref (parentEl ts) ;;
      classList_remove par c ;;;
      tgt <- deref (targetEl ts) ;;
      classList_remove tgt c ;;;
      removeEventListener tgt "click" CloseElCallback false ;;;
      _ <- call AfterUnset (afterUnset ts) trigger None ;;
      ret tt
    else ret tt
  else ret tt.

(** One turn of the [forEach] of [unsetAll]. *)
Definition unsetAll_visit (skipSelector siblingSelector : option string)
    (trigger : elem) : M unit :=
  p <- get ;;
  match toggle (els p trigger) with
  | None => ret tt
  | Some ts =>
      skipped <- el_matches trigger (selector skipSelector) ;;
      if negb skipped
      then
        o <- deref (options ts) ;;
        go <- (if negb (truthy (persist o)) then ret true
               else el_matches trigger (selector siblingSelector)) ;;
        when go (Toggle_unset trigger)
      else ret tt
  end.

Definition Toggle_unsetAll (refTrigger : elem) : M unit :=
  ts <- toggle_of refTrigger ;;
  o <- deref (options ts) ;;
  activeTriggers <- document_querySelectorAll ("." ++ activeClass o) ;;
  forEach activeTriggers
    (unsetAll_visit (skipSelector o) (siblingSelector o)).

Definition Toggle_set (trigger : elem) (evt : option Event)
    (evtType : option string) : M unit :=
  let triggerEvt := match evtType with Some s => s | None => "" end in
  ts <- toggle_of trigger ;;
  ok <- call BeforeSet (beforeSet ts) trigger evt ;;
  if ok then
    sweep <- call BeforeUnsetAll (beforeUnsetAll ts) trigger None ;;
    when sweep (Toggle_unsetAll trigger) ;;;
    o <- deref (options ts) ;;
    let c := activeClass o in
    classList_add trigger c ;;;
    par <- deref (parentEl ts) ;;
    classList_add par c ;;;
    tgt <- deref (targetEl ts) ;;
    classList_add tgt c ;;;
    when (negb (truthy (persist o)))
      (let bodyEvtType :=
         if includes "touch" triggerEvt then triggerEvt else "click" in
       n <- new_closure ;;
       p <- get ;;
       addEventListener (body p) bodyEvtType
         (BlurCallback n trigger bodyEvtType) true) ;;;
    when (truthy (unsetOnHoverOut o))
      (n <- new_closure ;;
       addEventListener par "mouseleave" (MouseLeaveCallback n trigger) false) ;;;
    when (truthy (timeout o)) (setTimeout (CallUnset trigger) (timeout o)) ;;;
    addEventListener tgt "click" CloseElCallback false ;;;
    _ <- call AfterSet (afterSet ts) trigger None ;;
    ret tt
  else ret tt.

Definition Toggle_toggle (trigger : elem) (evt : option Event) : M unit :=
  let evtType := match evt with Some e => ev_type e | None => "" end in
  ts <- toggle_of trigger ;;
  o <- deref (options ts) ;;
  active <- classList_contains trigger (activeClass o) ;;
  if active then
    when (truthy (unsetSelf o)
          && negb (String.eqb evtType "mouseenter"))
      (Toggle_unset trigger)
  else Toggle_set trigger evt (Some evtType).

Definition Toggle_toggleEventHandler (this : elem) (evt : Event) : M unit :=
  let isTouch := includes "touch" (ev_type evt) in
  p <- get ;;
  when (String.eqb (nodeName (els p this)) "A" || isTouch)
    (modify (record DefaultPrevented)) ;;;
  Toggle_toggle this (Some evt) ;;;
  when isTouch (modify (record PropagationStopped)).

Definition Toggle_closeElCallback (this : elem) (evt : Event) : M unit :=
  p <- get ;;
  owner <- deref (toggleTrigger (els p this)) ;;
  ts <- toggle_of owner ;;
  o <- deref (options ts) ;;
  targetCloseEl <- el_closest (ev_target evt) (closeSelector o) ;;
  match targetCloseEl with
  | None => ret tt
  | Some closeEl =>
      let targetTriggerSelector :=
        match getAttribute p closeEl "data-toggle-close" with
        | Some s => if String.eqb s "" then None else Some s
        | None => None
        end in
      let sel :=
        match targetTriggerSelector with Some s => s | None => "null" end in
      matched <- el_matches owner sel ;;
      when (matched
            || match targetTriggerSelector with Some _ => false | None => true end)
        (Toggle_unset owner)
  end.

(** The closure [blurCallback] of [set], run with [this] and an event. *)
Definition blurCallback (serial : nat) (trigger : elem) (bodyEvtType : string)
    (this : elem) (evt : Event) : M unit :=
  ts <- toggle_of trigger ;;
  p <- get ;;
  tgt <- deref (targetEl ts) ;;
  if contains p tgt (ev_target evt) then ret tt
  else
    par <- deref (parentEl ts) ;;
    if contains p par (ev_target evt) then ret tt
    else if Nat.eqb (ev_target evt) trigger then ret tt
    else
      removeEventListener this bodyEvtType
        (BlurCallback serial trigger bodyEvtType) true ;;;
      Toggle_unset trigger.

(** The closure [mouseLeaveCallback] of [set]. *)
Definition mouseLeaveCallback (serial : nat) (trigger : elem) (this : elem)
    : M unit :=
  removeEventListener this "mouseleave" (MouseLeaveCallback serial trigger)
    false ;;;
  Toggle_unset trigger.

(** A timer comes due: it leaves the pending ones and its function runs,
    with no argument beyond the bound trigger. *)
Definition run_task (task : TimerTask) : M unit :=
  match task with
  | CallSet trigger => Toggle_set trigger None None
  | CallUnset trigger => Toggle_unset trigger
  end.

Definition fire_timer (n : nat) : M unit :=
  p <- get ;;
  tm <- deref (nth_error (timers p) n) ;;
  modify (with_timers (firstn n (timers p) ++ skipn (S n) (timers p))) ;;;
  run_task (t_task tm).

Definition _toggleOnReturn (evt : Event) : M unit :=
  p <- get ;;
  let focused := activeElement p in
  let isNotFocusable :=
    negb (Nat.eqb focused (body p))
    && negb (String.eqb (nodeName (els p focused)) "BUTTON") in
  match toggle (els p focused) with
  | Some _ =>
      when (Z.eqb (ev_keyCode evt) 13 && isNotFocusable)
        (Toggle_toggleEventHandler focused evt)
  | None => ret tt
  end.

(** A registered function called with [this] and an event. *)
Definition run_callback (cb : Callback) (this : elem) (evt : Event) : M unit :=
  match cb with
  | ToggleEventHandler => Toggle_toggleEventHandler this evt
  | CloseElCallback => Toggle_closeElCallback this evt
  | ToggleOnReturn => _toggleOnReturn evt
  | BlurCallback n trigger ty => blurCallback n trigger ty this evt
  | MouseLeaveCallback n trigger => mouseLeaveCallback n trigger this
  end.

(** ** Setting a trigger up *)

Definition or_else {A : Type} (a b : option A) : option A :=
  match a with
  | Some _ => a
  | None => b
  end.

(** [s || d] for a string or a missing property [s]. *)
Definition string_or (s : option string) (d : string) : string :=
  match s with
  | Some x => if String.eqb x "" then d else x
  | None => d
  end.

(** A property read: [undefined] when it is missing. *)
Definition value (v : option JSValue) : JSValue :=
  match v with
  | Some x => x
  | None => JUndefined
  end.

Definition no_options : RawOptions :=
  {| r_closeSelector := None; r_activeClass := None; r_unsetSelf := None;
     r_parent := None; r_target := None; r_event := None; r_persist := None;
     r_unsetOnHoverOut := None; r_timeout := None; r_siblingSelector := None;
     r_skipSelector := None; r_auto := None; r_beforeUnset := None;
     r_afterUnset := None; r_beforeUnsetAll := None; r_beforeSet := None;
     r_afterSet := None; r_breakpoints := None |}.

(** The [for ... in] of [_getOptions]: a property of [this.options] is
    copied when the payload has none of that name. *)
Definition merge (own dflt : RawOptions) : RawOptions :=
  {| r_closeSelector := or_else (r_closeSelector own) (r_closeSelector dflt);
     r_activeClass := or_else (r_activeClass own) (r_activeClass dflt);
     r_unsetSelf := or_else (r_unsetSelf own) (r_unsetSelf dflt);
     r_parent := or_else (r_parent own) (r_parent dflt);
     r_target := or_else (r_target own) (r_target dflt);
     r_event := or_else (r_event own) (r_event dflt);
     r_persist := or_else (r_persist own) (r_persist dflt);
     r_unsetOnHoverOut := or_else (r_unsetOnHoverOut own) (r_unsetOnHoverOut dflt);
     r_timeout := or_else (r_timeout own) (r_timeout dflt);
     r_siblingSelector := or_else (r_siblingSelector own) (r_siblingSelector dflt);
     r_skipSelector := or_else (r_skipSelector own) (r_skipSelector dflt);
     r_auto := or_else (r_auto own) (r_auto dflt);
     r_beforeUnset := or_else (r_beforeUnset own) (r_beforeUnset dflt);
     r_afterUnset := or_else (r_afterUnset own) (r_afterUnset dflt);
     r_beforeUnsetAll := or_else (r_beforeUnsetAll own) (r_beforeUnsetAll dflt);
     r_beforeSet := or_else (r_beforeSet own) (r_beforeSet dflt);
     r_afterSet := or_else (r_afterSet own) (r_afterSet dflt);
     r_breakpoints := or_else (r_breakpoints own) (r_breakpoints dflt) |}.

(** The three properties [_getOptions] fills in, the others as they are. *)
Definition fill_in (r : RawOptions) : Options :=
  {| closeSelector := string_or (r_closeSelector r) "[data-toggle-close]";
     activeClass := string_or (r_activeClass r) "toggle--active";
     unsetSelf := match r_unsetSelf r with Some v => v | None => JBool true end;
     parent := r_parent r;
     target := r_target r;
     event := r_event r;
     persist := value (r_persist r);
     unsetOnHoverOut := value (r_unsetOnHoverOut r);
     timeout := value (r_timeout r);
     siblingSelector := r_siblingSelector r;
     skipSelector := r_skipSelector r;
     auto := value (r_auto r);
     opt_beforeUnset := r_beforeUnset r;
     opt_afterUnset := r_afterUnset r;
     opt_beforeUnsetAll := r_beforeUnsetAll r;
     opt_beforeSet := r_beforeSet r;
     opt_afterSet := r_afterSet r |}.

(** [this.options.dataAttribute], after the constructor's default. *)
Definition attribute_name (this : Instance) : string :=
  string_or (dataAttribute this) "data-toggle".

Definition _getOptions (this : Instance) (trigger : elem) : M Options :=
  p <- get ;;
  triggerOptions <-
    match getAttribute p trigger (attribute_name this) with
    | Some s =>
        if String.eqb s "" then ret no_options
        else match JSON_parse s with
             | Some (ParsedObject r) => ret r
             | Some ParsedOther => throw TypeError
             | None => throw SyntaxError
             end
    | None => ret no_options
    end ;;
  ret (fill_in (merge triggerOptions (defaults this))).

Definition _getParent (trigger : elem) : M (option elem) :=
  ts <- toggle_of trigger ;;
  o <- deref (options ts) ;;
  let sel := selector (parent o) in
  near <- el_closest trigger sel ;;
  match near with
  | Some _ => ret near
  | None =>
      first <- document_querySelector sel ;;
      match first with
      | Some _ => ret first
      | None => p <- get ;; ret (parentNode p trigger)
      end
  end.

Definition _getTarget (trigger : elem) : M (option elem) :=
  ts <- toggle_of trigger ;;
  o <- deref (options ts) ;;
  let targetSelector := selector (target o) in
  targetEl <- document_querySelectorAll targetSelector ;;
  if (1 <? List.length targetEl)%nat then
    par <- deref (parentEl ts) ;;
    el_querySelector par targetSelector
  else ret (hd_error targetEl).

(** Assigning to a property of [trigger.toggle]. *)
Definition assign (trigger : elem) (f : ToggleState -> ToggleState) : M unit :=
  ts <- toggle_of trigger ;;
  modify (update trigger (with_toggle (Some (f ts)))).

Definition hook_or_default (f : option nat) : option HookRef :=
  match f with
  | Some n => Some (UserHook n)
  | None => Some DefaultHook
  end.

Definition _setupCallbacks (trigger : elem) : M unit :=
  ts <- toggle_of trigger ;;
  o <- deref (options ts) ;;
  assign trigger (fun ts =>
    {| options := options ts; parentEl := parentEl ts; targetEl := targetEl ts;
       beforeUnset := hook_or_default (opt_beforeUnset o);
       afterUnset := hook_or_default (opt_afterUnset o);
       beforeUnsetAll := hook_or_default (opt_beforeUnsetAll o);
       beforeSet := hook_or_default (opt_beforeSet o);
       afterSet := hook_or_default (opt_afterSet o);
       methods := methods ts |}).

Definition _setupMethods (trigger : elem) : M unit :=
  assign trigger (fun ts =>
    {| options := options ts; parentEl := parentEl ts; targetEl := targetEl ts;
       beforeUnset := beforeUnset ts; afterUnset := afterUnset ts;
       beforeUnsetAll := beforeUnsetAll ts; beforeSet := beforeSet ts;
       afterSet := afterSet ts; methods := Some trigger |}).

Definition _setupHandlers (trigger : elem) : M unit :=
  ts <- toggle_of trigger ;;
  o <- deref (options ts) ;;
  let evtType := split_space (string_or (event o) "click") in
  forEach evtType (fun currentEvt =>
    addEventListener trigger currentEvt ToggleEventHandler false).

(** [!bound || test(bound)], for a bound that is a number or missing. *)
Definition bound_ok (bound : option Z) (test : Z -> bool) : bool :=
  match bound with
  | None => true
  | Some b => Z.eqb b 0 || test b
  end.

(** The names every plain object answers to without having them. *)
Definition inherited : list string :=
  ["constructor"; "hasOwnProperty"; "isPrototypeOf"; "propertyIsEnumerable";
   "toLocaleString"; "toString"; "valueOf"; "__proto__"; "__defineGetter__";
   "__defineSetter__"; "__lookupGetter__"; "__lookupSetter__"].

(** [this.options.breakpoints[name]], for [breakpoints] a plain object: its
    own entry, or for an inherited name a function or the prototype, which
    have no [min] and no [max]. *)
Definition lookup_breakpoint (name : string)
    (table : list (string * Breakpoint)) : option Breakpoint :=
  match find (fun kv => String.eqb name (fst kv)) table with
  | Some kv => Some (snd kv)
  | None =>
      if existsb (String.eqb name) inherited
      then Some {| bp_min := None; bp_max := None |}
      else None
  end.

(** The [if (trigger.toggle.options.auto)] statement of [_setupTrigger]. *)
Definition auto_activation (this : Instance) (trigger : elem) : M unit :=
  ts <- toggle_of trigger ;;
  o <- deref (options ts) ;;
  when (truthy (auto o))
    (if negb (isNaN (auto o)) then setTimeout (CallSet trigger) (auto o)
     else
       match auto o with
       | JStr name =>
           if hasURLParameter name then Toggle_set trigger None None
           else
             match r_breakpoints (defaults this) with
             | Some table =>
                 p <- get ;;
                 match lookup_breakpoint name table with
                 | Some matchedBreakpoint =>
                     if bound_ok (bp_min matchedBreakpoint)
                          (fun m => Z.geb (offsetWidth p) m)
                        && bound_ok (bp_max matchedBreakpoint)
                             (fun m => Z.leb (offsetWidth p) m)
                     then Toggle_set trigger None None
                     else Toggle_unset trigger
                 | None => Toggle_unset trigger
                 end
             | None => ret tt
             end
       | _ => Toggle_set trigger None None
       end).

Definition empty_toggle : ToggleState :=
  {| options := None; parentEl := None; targetEl := None;
     beforeUnset := None; afterUnset := None; beforeUnsetAll := None;
     beforeSet := None; afterSet := None; methods := None |}.

Definition _setupTrigger (this : Instance) (trigger : elem) : M unit :=
  modify (update trigger (fun x =>
    with_toggle (Some match toggle x with
                      | Some ts => ts
                      | None => empty_toggle
                      end) x)) ;;;
  o <- _getOptions this trigger ;;
  assign trigger (fun ts =>
    {| options := Some o; parentEl := parentEl ts; targetEl := targetEl ts;
       beforeUnset := beforeUnset ts; afterUnset := afterUnset ts;
       beforeUnsetAll := beforeUnsetAll ts; beforeSet := beforeSet ts;
       afterSet := afterSet ts; methods := methods ts |}) ;;;
  par <- _getParent trigger ;;
  assign trigger (fun ts =>
    {| options := options ts; parentEl := par; targetEl := targetEl ts;
       beforeUnset := beforeUnset ts; afterUnset := afterUnset ts;
       beforeUnsetAll := beforeUnsetAll ts; beforeSet := beforeSet ts;
       afterSet := afterSet ts; methods := methods ts |}) ;;;
  tgt <- _getTarget trigger ;;
  assign trigger (fun ts =>
    {| options := options ts; parentEl := parentEl ts; targetEl := tgt;
       beforeUnset := beforeUnset ts; afterUnset := afterUnset ts;
       beforeUnsetAll := beforeUnsetAll ts; beforeSet := beforeSet ts;
       afterSet := afterSet ts; methods := methods ts |}) ;;;
  match tgt with
  | None => modify (record (Warned trigger))
  | Some targetEl =>
      modify (update targetEl (with_toggleTrigger (Some trigger))) ;;;
      _setupCallbacks trigger ;;;
      _setupMethods trigger ;;;
      _setupHandlers trigger ;;;
      auto_activation this trigger ;;;
      removeAttribute trigger (attribute_name this)
  end.

(** Modelled from the spec: [callbackOnElements] of born-utilities, which is
    not in this repository.  It invokes the callback once per resolved
    element, with [this] bound to the initializing instance; [elements] is
    the resolved collection. *)
Definition callbackOnElements (elements : list elem)
    (callback : elem -> M unit) : M unit :=
  forEach elements callback.

Definition keydown : Listener :=
  {| l_type := "keydown"; l_callback := ToggleOnReturn; l_capture := false |}.

Definition constructor (this : Instance) : M unit :=
  callbackOnElements (triggers this) (_setupTrigger this) ;;;
  modify (fun p =>
    with_documentListeners (remove_listener keydown (documentListeners p)) p) ;;;
  modify (fun p =>
    with_documentListeners (add_listener keydown (documentListeners p)) p).

(** ** The transitions, written out *)

(** The answer of the function in a slot, when there is one. *)
Definition answer (slot : option HookRef) (p : Page) (trigger : elem)
    (evt : option Event) : option bool :=
  match slot with
  | None => None
  | Some DefaultHook => Some true
  | Some (UserHook n) => Some (user_hook n p trigger evt)
  end.

(** [classList.remove] and [classList.add] as page transformers. *)
Definition strip (c : string) (e : elem) (p : Page) : Page :=
  record (ClassRemoved e c)
    (update e (fun x => with_classList (remove_token c (classList x)) x) p).

Definition mark (c : string) (e : elem) (p : Page) : Page :=
  record (ClassAdded e c)
    (update e (fun x => with_classList (add_token c (classList x)) x) p).

Definition closeEl_listener : Listener :=
  {| l_type := "click"; l_callback := CloseElCallback; l_capture := false |}.

(** The page a successful [unset] leaves. *)
Definition unset_page (c : string) (trigger par tgt : elem) (p : Page) : Page :=
  record (Called AfterUnset trigger)
    (update tgt
       (fun x => with_listeners (remove_listener closeEl_listener (listeners x)) x)
       (strip c tgt (strip c par (strip c trigger
          (record (Called BeforeUnset trigger) p))))).

(** The listeners and the timer [set] arms after the marker is on. *)
Definition arm (trigger : elem) (o : Options) (par tgt : elem)
    (triggerEvt : string) (p : Page) : Page :=
  let p1 :=
    if negb (truthy (persist o)) then
      let bodyEvtType :=
        if includes "touch" triggerEvt then triggerEvt else "click" in
      update (body p) (fun x =>
        with_listeners
          (add_listener
             {| l_type := bodyEvtType;
                l_callback := BlurCallback (closures p) trigger bodyEvtType;
                l_capture := true |} (listeners x)) x)
        (with_closures (S (closures p)) p)
    else p in
  let p2 :=
    if truthy (unsetOnHoverOut o) then
      update par (fun x =>
        with_listeners
          (add_listener
             {| l_type := "mouseleave";
                l_callback := MouseLeaveCallback (closures p1) trigger;
                l_capture := false |} (listeners x)) x)
        (with_closures (S (closures p1)) p1)
    else p1 in
  let p3 :=
    if truthy (timeout o) then
      with_timers
        (timers p2 ++ [{| t_task := CallUnset trigger; t_delay := timeout o |}])
        p2
    else p2 in
  update tgt
    (fun x => with_listeners (add_listener closeEl_listener (listeners x)) x) p3.

(** The page a successful [set] leaves, from the page [q] the sweep left. *)
Definition set_page (trigger : elem) (o : Options) (par tgt : elem)
    (triggerEvt : string) (q : Page) : Page :=
  record (Called AfterSet trigger)
    (arm trigger o par tgt triggerEvt
       (mark (activeClass o) tgt
          (mark (activeClass o) par (mark (activeClass o) trigger q)))).

Definition run (op : Op) : M unit :=
  match op with
  | OpSet trigger evt evtType => Toggle_set trigger evt evtType
  | OpUnset trigger => Toggle_unset trigger
  | OpToggle trigger evt => Toggle_toggle trigger evt
  | OpUnsetAll refTrigger => Toggle_unsetAll refTrigger
  | OpListener cb this evt => run_callback cb this evt
  | OpTimer n => fire_timer n
  end.

(** ** Predicates on pages *)

(** The elements a bound trigger puts its marker on. *)
Definition footprint (trigger : elem) (ts : ToggleState) : list elem :=
  trigger
  :: match parentEl ts with Some e => [e] | None => [] end
  ++ match targetEl ts with Some e => [e] | None => [] end.

(** The marker of a trigger whose set-up completed is on its three elements
    or on none of them. *)
Definition consistent (p : Page) (trigger : elem) : bool :=
  match toggle (els p trigger) with
  | Some ts =>
      match options ts, parentEl ts, targetEl ts with
      | Some o, Some par, Some tgt =>
          Bool.eqb (has_class p par (activeClass o))
            (has_class p trigger (activeClass o))
          && Bool.eqb (has_class p tgt (activeClass o))
               (has_class p trigger (activeClass o))
      | _, _, _ => true
      end
  | None => true
  end.

(** No other bound element has an element in common with [trigger]. *)
Definition alone (p : Page) (trigger : elem) : Prop :=
  forall ts u us x,
    toggle (els p trigger) = Some ts ->
    u <> trigger ->
    toggle (els p u) = Some us ->
    In x (footprint u us) -> ~ In x (footprint trigger ts).

(** [c] is the active class of some bound element. *)
Definition marker (p : Page) (c : string) : Prop :=
  exists v vs vo,
    toggle (els p v) = Some vs /\ options vs = Some vo /\ activeClass vo = c.

(** What no method of the state machine writes: of an element, everything
    but its classes and listeners; of the page, the document, the body, its
    width and the focus. *)
Definition fixed (x : Element) :=
  (nodeName x, ancestors x, attributes x, toggle x, toggleTrigger x).

Definition page_fixed (p : Page) :=
  (doc p, body p, offsetWidth p, activeElement p).

(** [q] is [p] with other listeners, timers and trace. *)
Definition quiet (p q : Page) : Prop :=
  page_fixed q = page_fixed p
  /\ forall x, fixed (els q x) = fixed (els p x)
              /\ classList (els q x) = classList (els p x).

(** [q] is [p] after some toggling: the markers may be elsewhere, every other
    class is where it was. *)
Definition evolves (p q : Page) : Prop :=
  page_fixed q = page_fixed p
  /\ (forall x, fixed (els q x) = fixed (els p x))
  /\ (forall x c, ~ marker p c -> has_class q x c = has_class p x c).

(** The marker of a trigger taken off its three elements, or put on them. *)
Definition strip3 (c : string) (trigger par tgt : elem) (p : Page) : Page :=
  strip c tgt (strip c par (strip c trigger p)).

Definition mark3 (c : string) (trigger par tgt : elem) (p : Page) : Page :=
  mark c tgt (mark c par (mark c trigger p)).

(** [trigger.toggle] has options, a parent and a target. *)
Definition bound (p : Page) (trigger : elem) (o : Options) (par tgt : elem)
    : Prop :=
  exists ts,
    toggle (els p trigger) = Some ts /\ options ts = Some o
    /\ parentEl ts = Some par /\ targetEl ts = Some tgt.

(** Pages joined by a run of the state machine: a chain of quiet changes and
    of markers of bound triggers taken off or put on. *)
Inductive steps : Page -> Page -> Prop :=
| steps_done (p : Page) : steps p p
| steps_quiet (p q r : Page) : quiet p q -> steps q r -> steps p r
| steps_strip (p r : Page) (e : elem) (o : Options) (par tgt : elem) :
    bound p e o par tgt ->
    steps (strip3 (activeClass o) e par tgt p) r -> steps p r
| steps_mark (p r : Page) (e : elem) (o : Options) (par tgt : elem) :
    bound p e o par tgt ->
    steps (mark3 (activeClass o) e par tgt p) r -> steps p r.

(** [q] has no class that [p] has not. *)
Definition fades (p q : Page) : Prop :=
  forall x d, has_class q x d = true -> has_class p x d = true.


(** The statements of [_setupTrigger] before the test of the target: they
    give [trigger.toggle] its options, parent and target, and the target is
    what they return here. *)
Definition bind_trigger (this : Instance) (trigger : elem) : M (option elem) :=
  modify (update trigger (fun x =>
    with_toggle (Some match toggle x with
                      | Some ts => ts
                      | None => empty_toggle
                      end) x)) ;;;
  o <- _getOptions this trigger ;;
  assign trigger (fun ts =>
    {| options := Some o; parentEl := parentEl ts; targetEl := targetEl ts;
       beforeUnset := beforeUnset ts; afterUnset := afterUnset ts;
       beforeUnsetAll := beforeUnsetAll ts; beforeSet := beforeSet ts;
       afterSet := afterSet ts; methods := methods ts |}) ;;;
  par <- _getParent trigger ;;
  assign trigger (fun ts =>
    {| options := options ts; parentEl := par; targetEl := targetEl ts;
       beforeUnset := beforeUnset ts; afterUnset := afterUnset ts;
       beforeUnsetAll := beforeUnsetAll ts; beforeSet := beforeSet ts;
       afterSet := afterSet ts; methods := methods ts |}) ;;;
  tgt <- _getTarget trigger ;;
  assign trigger (fun ts =>
    {| options := options ts; parentEl := parentEl ts; targetEl := tgt;
       beforeUnset := beforeUnset ts; afterUnset := afterUnset ts;
       beforeUnsetAll := beforeUnsetAll ts; beforeSet := beforeSet ts;
       afterSet := afterSet ts; methods := methods ts |}) ;;;
  ret tgt.

(** [q] is [p] with [ts] for [trigger.toggle], and nothing else changed. *)
Definition rebound (trigger : elem) (ts : ToggleState) (p q : Page) : Prop :=
  (forall x,
     els q x = if Nat.eqb x trigger then with_toggle (Some ts) (els p x)
               else els p x)
  /\ page_fixed q = page_fixed p
  /\ documentListeners q = documentListeners p
  /\ timers q = timers p
  /\ closures q = closures p
  /\ trace q = trace p.

(** ** Pages on which every trigger is set up *)

(** Every slot of [trigger.toggle] that the state machine reads is there. *)
Definition wired (ts : ToggleState) : bool :=
  match options ts, parentEl ts, targetEl ts with
  | Some _, Some _, Some _ =>
      match beforeUnset ts, afterUnset ts, beforeUnsetAll ts, beforeSet ts,
            afterSet ts with
      | Some _, Some _, Some _, Some _, Some _ => true
      | _, _, _, _, _ => false
      end
  | _, _, _ => false
  end.

Definition well_wired (p : Page) : Prop :=
  forall e ts, toggle (els p e) = Some ts -> wired ts = true.

(** What the state machine hands to the DOM is well formed: the active
    class of a bound element is a token, and every selector parses, those
    of the options of a bound element, the [data-toggle-close] attributes,
    and [null], which is what a missing one is turned into. *)
Definition dom_safe (p : Page) : Prop :=
  valid_selector "null" = true
  /\ (forall e ts o,
        toggle (els p e) = Some ts -> options ts = Some o ->
        is_token (activeClass o) = true
        /\ valid_selector ("." ++ activeClass o) = true
        /\ valid_selector (selector (skipSelector o)) = true
        /\ valid_selector (selector (siblingSelector o)) = true
        /\ valid_selector (closeSelector o) = true)
  /\ (forall e s,
        getAttribute p e "data-toggle-close" = Some s -> s <> "" ->
        valid_selector s = true).

Definition has_toggle (p : Page) (e : elem) : bool :=
  match toggle (els p e) with
  | Some _ => true
  | None => false
  end.

Definition task_trigger (task : TimerTask) : elem :=
  match task with
  | CallSet trigger => trigger
  | CallUnset trigger => trigger
  end.

(** The element an operation starts from has a [toggle]: the trigger for
    the static methods, the handler and the closures; the [toggleTrigger] of
    the target for the inner click; the bound trigger of a pending timer. *)
Definition admissible (p : Page) (op : Op) : bool :=
  match op with
  | OpSet trigger _ _ => has_toggle p trigger
  | OpUnset trigger => has_toggle p trigger
  | OpToggle trigger _ => has_toggle p trigger
  | OpUnsetAll refTrigger => has_toggle p refTrigger
  | OpListener ToggleEventHandler this _ => has_toggle p this
  | OpListener CloseElCallback this _ =>
      match toggleTrigger (els p this) with
      | Some owner => has_toggle p owner
      | None => false
      end
  | OpListener ToggleOnReturn _ _ => true
  | OpListener (BlurCallback _ trigger _) _ _ => has_toggle p trigger
  | OpListener (MouseLeaveCallback _ trigger) _ _ => has_toggle p trigger
  | OpTimer n =>
      match nth_error (timers p) n with
      | Some tm => has_toggle p (task_trigger (t_task tm))
      | None => false
      end
  end.

(** [q] has no class, listener or timer that [p] has not, and as many
    closures were made. *)
Definition shrinks (p q : Page) : Prop :=
  fades p q
  /\ timers q = timers p
  /\ closures q = closures p
  /\ documentListeners q = documentListeners p
  /\ forall x l, In l (listeners (els q x)) -> In l (listeners (els p x)).

(** The listener [_setupHandlers] registers for one event name. *)
Definition handler (name : string) : Listener :=
  {| l_type := name; l_callback := ToggleEventHandler; l_capture := false |}.

End Toggle.

(** ** A page and a browser to run the class on

    Selectors of the sample browser: a compound of a tag name, [.class],
    [#id] and [[attribute]] parts, such as [a.tab] or [.a.b].  A selector
    outside this fragment is not used on the pages below, and the sample
    browser does not parse it. *)

Definition upper_ascii (c : ascii) : ascii :=
  let n := nat_of_ascii c in
  if ((97 <=? n) && (n <=? 122))%nat then ascii_of_nat (n - 32) else c.

Fixpoint upper (s : string) : string :=
  match s with
  | EmptyString => EmptyString
  | String c s' => String (upper_ascii c) (upper s')
  end.

Definition is_ident_char (c : ascii) : bool :=
  let n := nat_of_ascii c in
  (((48 <=? n) && (n <=? 57)) || ((65 <=? n) && (n <=? 90))
   || ((97 <=? n) && (n <=? 122)) || (n =? 45) || (n =? 95))%nat.

(** An identifier: it does not start with a digit, nor with a hyphen alone
    or before a digit. *)
Definition is_ident (s : string) : bool :=
  match list_ascii_of_string s with
  | [] => false
  | c :: l =>
      forallb is_ident_char (c :: l)
      && negb (is_digit c)
      && negb (Ascii.eqb c "-"%char
               && match l with
                  | [] => true
                  | d :: _ => is_digit d
                  end)
  end.

Definition is_delimiter (c : ascii) : bool :=
  (Ascii.eqb c "." || Ascii.eqb c "#" || Ascii.eqb c "[")%char.

(** The parts of a compound selector, each with the character that opens
    it, a space for the tag name in front. *)
Fixpoint parts_acc (kind : ascii) (cur : string) (s : string)
    : list (ascii * string) :=
  match s with
  | EmptyString => [(kind, cur)]
  | String c s' =>
      if is_delimiter c then (kind, cur) :: parts_acc c "" s'
      else parts_acc kind (cur ++ String c "")%string s'
  end.

Definition parts (sel : string) : list (ascii * string) :=
  parts_acc " "%char "" sel.

(** [name]] without its bracket. *)
Definition attribute_of (s : string) : option string :=
  match rev (list_ascii_of_string s) with
  | c :: l =>
      if Ascii.eqb c "]"%char then Some (string_of_list_ascii (rev l))
      else None
  | [] => None
  end.

Definition part_parses (part : ascii * string) : bool :=
  let (kind, name) := part in
  if Ascii.eqb kind "["%char then
    match attribute_of name with
    | Some a => is_ident a
    | None => false
    end
  else is_ident name.

Definition simple_valid (sel : string) : bool :=
  match parts sel with
  | (_, tag) :: rest =>
      match rest with
      | [] => is_ident tag
      | _ => (String.eqb tag "" || is_ident tag) && forallb part_parses rest
      end
  | [] => false
  end.

Definition part_matches (p : Page) (e : elem) (part : ascii * string) : bool :=
  let (kind, name) := part in
  if Ascii.eqb kind "."%char then has_class p e name
  else if Ascii.eqb kind "#"%char then
    match getAttribute p e "id" with
    | Some i => String.eqb i name
    | None => false
    end
  else if Ascii.eqb kind "["%char then
    match attribute_of name with
    | Some a =>
        match getAttribute p e a with
        | Some _ => true
        | None => false
        end
    | None => false
    end
  else String.eqb name "" || String.eqb (upper name) (nodeName (els p e)).

Definition simple_matches (p : Page) (e : elem) (sel : string) : bool :=
  simple_valid sel && forallb (part_matches p e) (parts sel).

Definition blank (name : string) (anc : list elem) : Element :=
  {| nodeName := name; ancestors := anc; attributes := []; classList := [];
     listeners := []; toggle := None; toggleTrigger := None |}.

(** [<body><nav><a class=tab/><div id=m1/><a class=tab/><div id=m2/></nav>
    <p/></body>], numbered in document order from the body, [0]. *)
Definition nav_els (e : elem) : Element :=
  match e with
  | 0 => blank "BODY" []
  | 1 => blank "NAV" [0]
  | 2 => with_classList ["tab"] (blank "A" [1; 0])
  | 3 => with_attributes [("id", "m1")] (blank "DIV" [1; 0])
  | 4 => with_classList ["tab"] (blank "A" [1; 0])
  | 5 => with_attributes [("id", "m2")] (blank "DIV" [1; 0])
  | _ => blank "P" [0]
  end.

Definition nav_page : Page :=
  {| els := nav_els; doc := [0; 1; 2; 3; 4; 5; 6]; body := 0;
     offsetWidth := 400; activeElement := 0; documentListeners := [];
     timers := []; closures := 0; trace := [] |}.

(** The user's function [0] answers false, the others true. *)
Definition sample_hook (n : nat) (p : Page) (trigger : elem)
    (evt : option Event) : bool :=
  negb (Nat.eqb n 0).

Definition no_URLParameter (name : string) : bool := false.

(** The double quote, which a string of this file does not hold. *)
Definition quote : string := String (ascii_of_nat 34) "".

(** The payload [{"activeClass":"open"}]. *)
Definition payload_open : string :=
  "{" ++ quote ++ "activeClass" ++ quote ++ ":" ++ quote ++ "open" ++ quote
  ++ "}".

(** [JSON.parse] on the payloads of the pages below: [payload_open] is an
    object, [null] is no object, and nothing else that occurs is JSON. *)
Definition sample_parse (s : string) : option Parsed :=
  if String.eqb s payload_open then
    Some (ParsedObject
            {| r_closeSelector := None; r_activeClass := Some "open";
               r_unsetSelf := None; r_parent := None; r_target := None;
               r_event := None; r_persist := None; r_unsetOnHoverOut := None;
               r_timeout := None; r_siblingSelector := None;
               r_skipSelector := None; r_auto := None; r_beforeUnset := None;
               r_afterUnset := None; r_beforeUnsetAll := None;
               r_beforeSet := None; r_afterSet := None;
               r_breakpoints := None |})
  else if String.eqb s "null" then Some ParsedOther
  else None.

Definition sample_browser : Browser :=
  {| valid_selector := simple_valid; matches := simple_matches;
     user_hook := sample_hook; hasURLParameter := no_URLParameter;
     JSON_parse := sample_parse |}.


(** [<body><div><a/><div id=m1/></div><div><a/><div id=m2/></div></body>]:
    two triggers, each with a parent of its own. *)
Definition menu_els (e : elem) : Element :=
  match e with
  | 0 => blank "BODY" []
  | 1 => blank "DIV" [0]
  | 2 => blank "A" [1; 0]
  | 3 => with_attributes [("id", "m1")] (blank "DIV" [1; 0])
  | 4 => blank "DIV" [0]
  | 5 => blank "A" [4; 0]
  | 6 => with_attributes [("id", "m2")] (blank "DIV" [4; 0])
  | _ => blank "P" [0]
  end.

Definition menu_page : Page :=
  {| els := menu_els; doc := [0; 1; 2; 3; 4; 5; 6; 7]; body := 0;
     offsetWidth := 400; activeElement := 0; documentListeners := [];
     timers := []; closures := 0; trace := [] |}.

(** The options passed to [new Toggle] for one trigger. *)
Definition options_for (tgt : string)
    (persist timeout hover auto : option JSValue) (cls sib : option string)
    (beforeSet beforeUnsetAll : option nat) : RawOptions :=
  {| r_closeSelector := None; r_activeClass := cls; r_unsetSelf := None;
     r_parent := None; r_target := Some tgt; r_event := None;
     r_persist := persist; r_unsetOnHoverOut := hover; r_timeout := timeout;
     r_siblingSelector := sib; r_skipSelector := None; r_auto := auto;
     r_beforeUnset := None; r_afterUnset := None;
     r_beforeUnsetAll := beforeUnsetAll; r_beforeSet := beforeSet;
     r_afterSet := None; r_breakpoints := None |}.

Definition plain (tgt : string) : RawOptions :=
  options_for tgt None None None None None None None None.

Definition persistent (tgt : string) : RawOptions :=
  options_for tgt (Some (JBool true)) None None None None None None None.

(** A persistent member of the sibling group [.tab]; [veto] is its
    [beforeUnsetAll]. *)
Definition tab (tgt : string) (veto : option nat) : RawOptions :=
  options_for tgt (Some (JBool true)) None None None None (Some ".tab")
    None veto.

(** [new Toggle({triggers: [t], ...r})]. *)
Definition single (t : elem) (r : RawOptions) : Instance :=
  {| triggers := [t]; dataAttribute := None; defaults := r |}.

(** The page a run leaves, the page it started from if it throws. *)
Definition page_after (m : M unit) (p : Page) : Page :=
  match m p with
  | Ok (_, q) => q
  | Throw _ => p
  end.

Definition returns (m : M unit) (p : Page) : bool :=
  match m p with
  | Ok _ => true
  | Throw _ => false
  end.

Definition new_Toggle : Instance -> M unit := constructor (B := sample_browser).

(** [nav_page] with two persistent triggers, [2] and [4], on the same
    parent [1]. *)
Definition nav_persistent : Page :=
  page_after (new_Toggle (single 2 (persistent "#m1")) ;;;
              new_Toggle (single 4 (persistent "#m2"))) nav_page.

(** [nav_page] with the two triggers in the sibling group [.tab]. *)
Definition nav_tabs (veto : option nat) : Page :=
  page_after (new_Toggle (single 2 (tab "#m1" None)) ;;;
              new_Toggle (single 4 (tab "#m2" veto))) nav_page.

(** [menu_page] with its two triggers, options by default. *)
Definition menu_ready : Page :=
  page_after (new_Toggle (single 2 (plain "#m1")) ;;;
              new_Toggle (single 5 (plain "#m2"))) menu_page.





(** Trigger [2] of [nav_page] with a timeout and [unsetOnHoverOut]. *)
Definition timed : Instance :=
  single 2 (options_for "#m1" None (Some (JNum 5000)) (Some (JBool true)) None
              None None None None).

(** Trigger [2] of [nav_page] with [auto: true]. *)
Definition automatic : Instance :=
  single 2 (options_for "#m1" None None None (Some (JBool true)) None None
              None None).

(** Trigger [2] of [nav_page] with a [beforeSet] that answers false. *)
Definition nav_vetoed : Page :=
  page_after
    (new_Toggle (single 2 (options_for "#m1" None None None None None None
                             (Some 0) None))) nav_page.


Definition sample_run : Op -> M unit := run (B := sample_browser).

(** Trigger [2] of [nav_persistent] set: [2], its parent [1] and its target
    [3] carry the marker. *)
Definition nav_active : Page :=
  page_after (sample_run (OpSet 2 None None)) nav_persistent.

(** Trigger [2] of [nav_tabs] set. *)
Definition tabs_active : Page :=
  page_after (sample_run (OpSet 2 None None)) (nav_tabs None).

(** Trigger [2] of [menu_ready] set. *)
Definition menu_active : Page :=
  page_after (sample_run (OpSet 2 None None)) menu_ready.

Definition mouseenter (t : elem) : Event :=
  {| ev_type := "mouseenter"; ev_target := t; ev_keyCode := 0 |}.

Definition toggle_at (p : Page) (e : elem) : ToggleState :=
  match toggle (els p e) with
  | Some ts => ts
  | None => empty_toggle
  end.

Definition options_at (p : Page) (e : elem) : Options :=
  match options (toggle_at p e) with
  | Some o => o
  | None => fill_in no_options
  end.

(** The page the binding of a trigger leaves. *)
Definition bound_page (this : Instance) (t : elem) (p : Page) : Page :=
  match bind_trigger (B := sample_browser) this t p with
  | Ok (_, q) => q
  | Throw _ => p
  end.

(** What a reader returns and the page it leaves, [d] and the page it
    started from if it throws. *)
Definition value_of {A : Type} (m : M A) (p : Page) (d : A) : A :=
  match m p with
  | Ok (a, _) => a
  | Throw _ => d
  end.

Definition state_after {A : Type} (m : M A) (p : Page) : Page :=
  match m p with
  | Ok (_, q) => q
  | Throw _ => p
  end.

Definition answers {A : Type} (m : M A) (p : Page) : bool :=
  match m p with
  | Ok _ => true
  | Throw _ => false
  end.

(** Trigger [2] of [nav_page] set up with a timeout and
    [unsetOnHoverOut]. *)
Definition nav_timed : Page := page_after (new_Toggle timed) nav_page.

(** [nav_page] where the set-up of the [nav], [1], found no target, the
    triggers [2] and [4] are set up, and [2] is set: its parent, the [nav],
    carries the marker. *)
Definition nav_half : Page :=
  page_after (new_Toggle (single 1 (plain "#nowhere")) ;;;
              new_Toggle (single 2 (plain "#m1")) ;;;
              new_Toggle (single 4 (plain "#m2")) ;;;
              sample_run (OpSet 2 None None)) nav_page.

(** [nav_page] with a [data-toggle] on [2] that is not JSON. *)
Definition nav_broken : Page :=
  update 2 (with_attributes [("data-toggle", "{target: #m1}")]) nav_page.

Definition both : Instance :=
  {| triggers := [2; 4]; dataAttribute := None; defaults := plain "#m1" |}.

(** Trigger [2] of [nav_page] bound with two event names, its handlers not
    yet registered. *)
Definition two_events : Instance :=
  single 2
    {| r_closeSelector := None; r_activeClass := None; r_unsetSelf := None;
       r_parent := None; r_target := Some "#m1";
       r_event := Some "mouseenter click"; r_persist := None;
       r_unsetOnHoverOut := None; r_timeout := None;
       r_siblingSelector := None; r_skipSelector := None; r_auto := None;
       r_beforeUnset := None; r_afterUnset := None; r_beforeUnsetAll := None;
       r_beforeSet := None; r_afterSet := None; r_breakpoints := None |}.

Definition nav_two_events : Page := bound_page two_events 2 nav_page.

(** Trigger [2] of [menu_page] whose target [3] is its own close element,
    set. *)
Definition closable : Instance :=
  single 2
    {| r_closeSelector := Some "#m1"; r_activeClass := None;
       r_unsetSelf := None; r_parent := None; r_target := Some "#m1";
       r_event := None; r_persist := None; r_unsetOnHoverOut := None;
       r_timeout := None; r_siblingSelector := None; r_skipSelector := None;
       r_auto := None; r_beforeUnset := None; r_afterUnset := None;
       r_beforeUnsetAll := None; r_beforeSet := None; r_afterSet := None;
       r_breakpoints := None |}.

Definition menu_closable : Page :=
  page_after (new_Toggle closable ;;; sample_run (OpSet 2 None None)) menu_page.

Definition click (t : elem) : Event :=
  {| ev_type := "click"; ev_target := t; ev_keyCode := 0 |}.

Definition enter (t : elem) : Event :=
  {| ev_type := "keydown"; ev_target := t; ev_keyCode := 13 |}.

(** [menu_ready] with the focus on trigger [2]. *)
Definition menu_focused : Page :=
  {| els := els menu_ready; doc := doc menu_ready; body := body menu_ready;
     offsetWidth := offsetWidth menu_ready; activeElement := 2;
     documentListeners := documentListeners menu_ready;
     timers := timers menu_ready; closures := closures menu_ready;
     trace := trace menu_ready |}.






(** [nav_page] with the payload [payload_open] on trigger [2]. *)
Definition nav_payload : Page :=
  update 2 (fun x => with_attributes [("data-toggle", payload_open)] x)
    nav_page.

(** Instances whose options name an active class. *)
Definition opening : Instance :=
  single 2 (options_for "#m1" None None None None (Some "open") None None None).

Definition showing : Instance :=
  {| triggers := [2; 4]; dataAttribute := None;
     defaults := options_for "#m1" None None None None (Some "shown") None
                   None None |}.

(** [menu_page] with the active class on trigger [2] in the markup, and
    its two triggers set up. *)
Definition menu_partial : Page :=
  page_after (new_Toggle (single 2 (plain "#m1")) ;;;
              new_Toggle (single 5 (plain "#m2")))
    (update 2 (fun x => with_classList ["toggle--active"] x) menu_page).


(** Trigger [2] of [nav_timed] set. *)
Definition nav_timed_active : Page :=
  page_after (sample_run (OpSet 2 None None)) nav_timed.

(** ** What a sequence of calls leaves behind *)

Section Properties.

Context {B : Browser}.

Lemma call_answer (h : HookName) (slot : option HookRef) (trigger : elem)
    (evt : option Event) (p : Page) :
  call h slot trigger evt p =
  match answer slot p trigger evt with
  | Some b => Ok (b, record (Called h trigger) p)
  | None => Throw TypeError
  end.
Proof.
  unfold call, answer, bind, deref, ret, throw, get, modify.
  destruct slot as [[|n]|]; reflexivity.
Qed.

Ltac step :=
  cbv beta iota delta [toggle_of classList_contains when bind deref ret throw
                       get modify].

(** C3: when [beforeSet] answers false, [set] returns and leaves every
    element, the timers and the document's listeners as they were; the call
    of [beforeSet] is the only effect. *)
Theorem C3_beforeSet_false_aborts (trigger : elem) (evt : option Event)
    (evtType : option string) (p : Page) (ts : ToggleState) :
  toggle (els p trigger) = Some ts ->
  answer (beforeSet ts) p trigger evt = Some false ->
  exists p',
    Toggle_set trigger evt evtType p = Ok (tt, p')
    /\ p' = record (Called BeforeSet trigger) p
    /\ els p' = els p
    /\ timers p' = timers p
    /\ documentListeners p' = documentListeners p
    /\ closures p' = closures p
    /\ trace p' = trace p ++ [Called BeforeSet trigger].
Proof.
  intros Hts Hno.
  exists (record (Called BeforeSet trigger) p).
  split; [|repeat split].
  unfold Toggle_set. step. rewrite Hts. step.
  rewrite call_answer, Hno. reflexivity.
Qed.

(** *** [unset], [set] and [toggle] as one transition each *)

Lemma unset_eq (trigger : elem) (p : Page) :
  Toggle_unset trigger p =
  match toggle (els p trigger) with
  | None => Throw TypeError
  | Some ts =>
      match options ts with
      | None => Throw TypeError
      | Some o =>
          if has_class p trigger (activeClass o) then
            match answer (beforeUnset ts) p trigger None with
            | None => Throw TypeError
            | Some false => Ok (tt, record (Called BeforeUnset trigger) p)
            | Some true =>
                match parentEl ts, targetEl ts, afterUnset ts with
                | Some par, Some tgt, Some _ =>
                    Ok (tt, unset_page (activeClass o) trigger par tgt p)
                | _, _, _ => Throw TypeError
                end
            end
          else Ok (tt, p)
      end
  end.
Proof.
  unfold Toggle_unset. step.
  destruct (toggle (els p trigger)) as [ts|]; [|reflexivity]. step.
  destruct (options ts) as [o|]; [|reflexivity]. step.
  destruct (has_class p trigger (activeClass o)) eqn:Hc; [|reflexivity].
  assert (Htok : is_token (activeClass o) = true).
  { unfold has_class in Hc. now apply andb_true_iff in Hc. }
  rewrite call_answer.
  destruct (answer (beforeUnset ts) p trigger None) as [[|]|]; try reflexivity.
  unfold classList_remove, removeEventListener. rewrite Htok. step.
  destruct (parentEl ts) as [par|]; [|reflexivity]. step.
  destruct (targetEl ts) as [tgt|]; [|destruct (afterUnset ts); reflexivity].
  step. rewrite call_answer.
  destruct (afterUnset ts) as [[|n]|]; reflexivity.
Qed.

Lemma set_eq (trigger : elem) (evt : option Event) (evtType : option string)
    (p : Page) :
  Toggle_set trigger evt evtType p =
  match toggle (els p trigger) with
  | None => Throw TypeError
  | Some ts =>
      match answer (beforeSet ts) p trigger evt with
      | None => Throw TypeError
      | Some false => Ok (tt, record (Called BeforeSet trigger) p)
      | Some true =>
          let p1 := record (Called BeforeSet trigger) p in
          match answer (beforeUnsetAll ts) p1 trigger None with
          | None => Throw TypeError
          | Some sweep =>
              let p2 := record (Called BeforeUnsetAll trigger) p1 in
              match (if sweep then Toggle_unsetAll trigger p2 else Ok (tt, p2)) with
              | Throw e => Throw e
              | Ok (_, q) =>
                  match options ts with
                  | Some o =>
                      if is_token (activeClass o) then
                        match parentEl ts, targetEl ts, afterSet ts with
                        | Some par, Some tgt, Some _ =>
                            Ok (tt, set_page trigger o par tgt
                                      match evtType with
                                      | Some s => s
                                      | None => ""
                                      end q)
                        | _, _, _ => Throw TypeError
                        end
                      else Throw DOMException
                  | None => Throw TypeError
                  end
              end
          end
      end
  end.
Proof.
  unfold Toggle_set. step.
  destruct (toggle (els p trigger)) as [ts|]; [|reflexivity]. step.
  rewrite call_answer.
  destruct (answer (beforeSet ts) p trigger evt) as [[|]|]; try reflexivity.
  rewrite call_answer.
  destruct (answer (beforeUnsetAll ts) _ trigger None) as [sweep|]; [|reflexivity].
  assert (Hrest : forall q : Page,
    (o <- deref (options ts) ;;
     (let c := activeClass o in
      classList_add trigger c ;;;
      par <- deref (parentEl ts) ;;
      classList_add par c ;;;
      tgt <- deref (targetEl ts) ;;
      classList_add tgt c ;;;
      when (negb (truthy (persist o)))
        (let bodyEvtType :=
           if includes "touch" match evtType with Some s => s | None => "" end
           then match evtType with Some s => s | None => "" end else "click" in
         n <- new_closure ;;
         p0 <- get ;;
         addEventListener (body p0) bodyEvtType
           (BlurCallback n trigger bodyEvtType) true) ;;;
      when (truthy (unsetOnHoverOut o))
        (n <- new_closure ;;
         addEventListener par "mouseleave" (MouseLeaveCallback n trigger) false) ;;;
      when (truthy (timeout o)) (setTimeout (CallUnset trigger) (timeout o)) ;;;
      addEventListener tgt "click" CloseElCallback false ;;;
      _ <- call AfterSet (afterSet ts) trigger None ;;
      ret tt)) q =
    match options ts with
    | Some o =>
        if is_token (activeClass o) then
          match parentEl ts, targetEl ts, afterSet ts with
          | Some par, Some tgt, Some _ =>
              Ok (tt, set_page trigger o par tgt
                        match evtType with Some s => s | None => "" end q)
          | _, _, _ => Throw TypeError
          end
        else Throw DOMException
    | None => Throw TypeError
    end).
  { intro q. step.
    destruct (options ts) as [o|]; [|reflexivity].
    unfold classList_add, addEventListener, new_closure, setTimeout.
    destruct (is_token (activeClass o)); [|reflexivity]. step.
    destruct (parentEl ts) as [par|]; [|reflexivity]. step.
    destruct (targetEl ts) as [tgt|];
      [|destruct (afterSet ts); reflexivity]. step.
    unfold set_page, arm.
    destruct (truthy (persist o)), (truthy (unsetOnHoverOut o)),
      (truthy (timeout o)); cbn [negb]; step; rewrite call_answer;
      destruct (afterSet ts) as [[|n]|]; reflexivity. }
  cbv zeta. destruct sweep.
  - destruct (Toggle_unsetAll trigger _) as [[[] q]|e]; [|reflexivity].
    apply Hrest.
  - apply Hrest.
Qed.

(** *** Classes under [strip] and [mark] *)

Lemma existsb_remove_token (c d : string) (l : list string) :
  existsb (String.eqb d) (remove_token c l)
  = negb (String.eqb d c) && existsb (String.eqb d) l.
Proof.
  unfold remove_token. induction l as [|x l IH]; simpl.
  - symmetry. apply andb_false_r.
  - destruct (String.eqb c x) eqn:Hcx; simpl; rewrite IH;
      destruct (String.eqb d x) eqn:Hdx; simpl; try reflexivity.
    + apply String.eqb_eq in Hcx, Hdx. subst.
      now rewrite String.eqb_refl.
    + apply String.eqb_eq in Hdx. subst.
      rewrite String.eqb_sym, Hcx. reflexivity.
Qed.

Lemma existsb_add_token (c d : string) (l : list string) :
  existsb (String.eqb d) (add_token c l)
  = String.eqb d c || existsb (String.eqb d) l.
Proof.
  unfold add_token.
  destruct (existsb (String.eqb c) l) eqn:Hc.
  - destruct (String.eqb_spec d c) as [->|_]; simpl; [now rewrite Hc|reflexivity].
  - rewrite existsb_app. simpl. rewrite orb_false_r. apply orb_comm.
Qed.

Lemma has_class_strip (c : string) (e : elem) (p : Page) (x : elem) (d : string) :
  has_class (strip c e p) x d
  = negb (Nat.eqb x e && String.eqb d c) && has_class p x d.
Proof.
  unfold has_class, strip, record, update. simpl.
  destruct (Nat.eqb x e); simpl; [|reflexivity].
  rewrite existsb_remove_token.
  destruct (is_token d), (String.eqb d c); reflexivity.
Qed.

(** A class that is no token is on no element. *)
Lemma has_class_token (p : Page) (x : elem) (d : string) :
  is_token d = false -> has_class p x d = false.
Proof. unfold has_class. now intros ->. Qed.

Lemma has_class_mark (c : string) (e : elem) (p : Page) (x : elem) (d : string) :
  has_class (mark c e p) x d
  = (Nat.eqb x e && String.eqb d c && is_token c) || has_class p x d.
Proof.
  unfold has_class, mark, record, update. simpl.
  destruct (Nat.eqb x e); simpl; [|reflexivity].
  rewrite existsb_add_token.
  destruct (String.eqb_spec d c) as [->|_]; simpl; [|reflexivity].
  now destruct (is_token c).
Qed.

Lemma fixed_strip (c : string) (e : elem) (p : Page) (x : elem) :
  fixed (els (strip c e p) x) = fixed (els p x).
Proof.
  unfold strip, record, update. simpl. now destruct (Nat.eqb x e).
Qed.

Lemma fixed_mark (c : string) (e : elem) (p : Page) (x : elem) :
  fixed (els (mark c e p) x) = fixed (els p x).
Proof.
  unfold mark, record, update. simpl. now destruct (Nat.eqb x e).
Qed.

Lemma toggle_fixed (x y : Element) : fixed x = fixed y -> toggle x = toggle y.
Proof. unfold fixed. congruence. Qed.

(** *** Pages that differ by listeners, timers and trace only *)

Lemma quiet_refl (p : Page) : quiet p p.
Proof. split; [reflexivity|]. intro x. split; reflexivity. Qed.

Lemma quiet_trans (p q r : Page) : quiet p q -> quiet q r -> quiet p r.
Proof.
  intros [H1 H2] [H3 H4]. split; [congruence|].
  intro x. destruct (H2 x), (H4 x). split; congruence.
Qed.

Lemma quiet_record (eff : Effect) (p : Page) : quiet p (record eff p).
Proof. split; [reflexivity|]. intro x. split; reflexivity. Qed.

Lemma quiet_listeners (e : elem) (f : list Listener -> list Listener) (p : Page) :
  quiet p (update e (fun x => with_listeners (f (listeners x)) x) p).
Proof.
  split; [reflexivity|]. intro x. unfold update. simpl.
  destruct (Nat.eqb x e); split; reflexivity.
Qed.

Lemma quiet_closures (n : nat) (p : Page) : quiet p (with_closures n p).
Proof. split; [reflexivity|]. intro x. split; reflexivity. Qed.

Lemma quiet_timers (l : list Timer) (p : Page) : quiet p (with_timers l p).
Proof. split; [reflexivity|]. intro x. split; reflexivity. Qed.

Lemma quiet_arm (trigger : elem) (o : Options) (par tgt : elem)
    (triggerEvt : string) (p : Page) :
  quiet p (arm trigger o par tgt triggerEvt p).
Proof.
  unfold arm.
  set (p1 := if negb (truthy (persist o)) then _ else p).
  assert (H1 : quiet p p1).
  { subst p1. destruct (negb (truthy (persist o))); [|apply quiet_refl].
    eapply quiet_trans; [apply quiet_closures|].
    apply (quiet_listeners (body p) (add_listener _)). }
  set (p2 := if truthy (unsetOnHoverOut o) then _ else p1).
  assert (H2 : quiet p1 p2).
  { subst p2. destruct (truthy (unsetOnHoverOut o)); [|apply quiet_refl].
    eapply quiet_trans; [apply quiet_closures|].
    apply (quiet_listeners par (add_listener _)). }
  set (p3 := if truthy (timeout o) then _ else p2).
  assert (H3 : quiet p2 p3).
  { subst p3. destruct (truthy (timeout o)); [apply quiet_timers|apply quiet_refl]. }
  cbv zeta.
  eapply quiet_trans; [exact H1|]. eapply quiet_trans; [exact H2|].
  eapply quiet_trans; [exact H3|].
  apply (quiet_listeners tgt (add_listener _)).
Qed.

Lemma quiet_has_class (p q : Page) (x : elem) (c : string) :
  quiet p q -> has_class q x c = has_class p x c.
Proof. intros [_ H]. unfold has_class. destruct (H x) as [_ ->]. reflexivity. Qed.

Lemma quiet_toggle (p q : Page) (x : elem) :
  quiet p q -> toggle (els q x) = toggle (els p x).
Proof. intros [_ H]. apply toggle_fixed. apply H. Qed.

(** *** Every operation is a chain of steps *)

Lemma steps_trans (p q r : Page) : steps p q -> steps q r -> steps p r.
Proof.
  induction 1; intro H2; [assumption|..].
  - eapply steps_quiet; eauto.
  - eapply steps_strip; eauto.
  - eapply steps_mark; eauto.
Qed.

Lemma steps_one_quiet (p q : Page) : quiet p q -> steps p q.
Proof. intro H. eapply steps_quiet; [exact H|apply steps_done]. Qed.

Lemma bound_quiet (p q : Page) (e : elem) (o : Options) (par tgt : elem) :
  quiet p q -> bound p e o par tgt -> bound q e o par tgt.
Proof.
  intros Hq (ts & H1 & H2). exists ts. split; [|exact H2].
  rewrite (quiet_toggle _ _ _ Hq). exact H1.
Qed.

Lemma bind_inv {X Y : Type} (m : M X) (k : X -> M Y) (p : Page) (y : Y)
    (p' : Page) :
  bind m k p = Ok (y, p') ->
  exists x q, m p = Ok (x, q) /\ k x q = Ok (y, p').
Proof.
  unfold bind. destruct (m p) as [[x q]|e]; [|discriminate].
  intro H. now exists x, q.
Qed.

(** What [unset] can have done when it returns. *)
Lemma unset_inv (trigger : elem) (p p' : Page) :
  Toggle_unset trigger p = Ok (tt, p') ->
  exists ts o,
    toggle (els p trigger) = Some ts /\ options ts = Some o
    /\ ((has_class p trigger (activeClass o) = false /\ p' = p)
        \/ (has_class p trigger (activeClass o) = true
            /\ answer (beforeUnset ts) p trigger None = Some false
            /\ p' = record (Called BeforeUnset trigger) p)
        \/ (has_class p trigger (activeClass o) = true
            /\ answer (beforeUnset ts) p trigger None = Some true
            /\ exists par tgt,
                 parentEl ts = Some par /\ targetEl ts = Some tgt
                 /\ p' = unset_page (activeClass o) trigger par tgt p)).
Proof.
  rewrite unset_eq. intro H.
  destruct (toggle (els p trigger)) as [ts|] eqn:Hts; [|discriminate].
  destruct (options ts) as [o|] eqn:Ho; [|discriminate].
  exists ts, o. split; [reflexivity|]. split; [exact Ho|].
  destruct (has_class p trigger (activeClass o)).
  - destruct (answer (beforeUnset ts) p trigger None) as [[|]|];
      [|right; left; repeat split; congruence|discriminate].
    right; right. split; [reflexivity|]. split; [reflexivity|].
    destruct (parentEl ts) as [par|]; [|discriminate].
    destruct (targetEl ts) as [tgt|]; [|discriminate].
    destruct (afterUnset ts); [|discriminate].
    exists par, tgt. repeat split; congruence.
  - left. split; congruence.
Qed.

Lemma unset_page_steps (c : string) (trigger : elem) (o : Options)
    (par tgt : elem) (p : Page) :
  bound p trigger o par tgt -> c = activeClass o ->
  steps p (unset_page c trigger par tgt p).
Proof.
  intros Hb ->. unfold unset_page.
  eapply steps_quiet; [apply (quiet_record (Called BeforeUnset trigger))|].
  eapply steps_strip.
  { eapply bound_quiet; [apply quiet_record|exact Hb]. }
  eapply steps_quiet;
    [apply (quiet_listeners tgt (remove_listener closeEl_listener))|].
  apply steps_one_quiet. apply quiet_record.
Qed.

Lemma unset_steps (trigger : elem) (p p' : Page) :
  Toggle_unset trigger p = Ok (tt, p') -> steps p p'.
Proof.
  intro H. apply unset_inv in H.
  destruct H as (ts & o & Hts & Ho & [[_ ->]|[(_ & _ & ->)|(_ & _ & par & tgt & Hp & Ht & ->)]]).
  - apply steps_done.
  - apply steps_one_quiet, quiet_record.
  - apply (unset_page_steps _ _ o); [|reflexivity].
    exists ts. auto.
Qed.

Lemma forEach_steps {X : Type} (f : X -> M unit) (l : list X) :
  (forall x p p', In x l -> f x p = Ok (tt, p') -> steps p p') ->
  forall p p', forEach l f p = Ok (tt, p') -> steps p p'.
Proof.
  induction l as [|x l IH]; intros Hf p p' H.
  - injection H as <-. apply steps_done.
  - simpl in H. apply bind_inv in H. destruct H as ([] & q & H1 & H2).
    eapply steps_trans.
    + eapply Hf; [now left|exact H1].
    + apply IH; [|exact H2]. intros y r r' Hy. apply Hf. now right.
Qed.

Lemma checked_inv {A : Type} (sel : string) (f : Page -> A) (p : Page)
    (a : A) (q : Page) :
  checked sel f p = Ok (a, q) ->
  valid_selector sel = true /\ a = f p /\ q = p.
Proof.
  unfold checked. destruct (valid_selector sel); [|discriminate].
  intro H. injection H as <- <-. repeat split.
Qed.

Lemma checked_valid {A : Type} (sel : string) (f : Page -> A) (p : Page) :
  valid_selector sel = true -> checked sel f p = Ok (f p, p).
Proof. unfold checked. now intros ->. Qed.

(** One turn of the sweep, written out. *)
Lemma visit_eq (skip sib : option string) (e : elem) (p : Page) :
  unsetAll_visit skip sib e p
  = match toggle (els p e) with
    | None => Ok (tt, p)
    | Some ts =>
        if valid_selector (selector skip) then
          if matches p e (selector skip) then Ok (tt, p)
          else
            match options ts with
            | None => Throw TypeError
            | Some o =>
                if negb (truthy (persist o)) then Toggle_unset e p
                else if valid_selector (selector sib) then
                  if matches p e (selector sib) then Toggle_unset e p
                  else Ok (tt, p)
                else Throw DOMException
            end
        else Throw DOMException
    end.
Proof.
  unfold unsetAll_visit, el_matches, checked. step.
  destruct (toggle (els p e)) as [ts|]; [|reflexivity].
  destruct (valid_selector (selector skip)); [|reflexivity].
  destruct (matches p e (selector skip)); [reflexivity|]. simpl.
  destruct (options ts) as [o|]; [|reflexivity].
  destruct (negb (truthy (persist o))); [reflexivity|].
  destruct (valid_selector (selector sib)); [|reflexivity].
  destruct (matches p e (selector sib)); reflexivity.
Qed.

(** One turn of the sweep leaves the page as it is or is an [unset]. *)
Lemma visit_inv (skip sib : option string) (e : elem) (p p' : Page) :
  unsetAll_visit skip sib e p = Ok (tt, p') ->
  p' = p
  \/ (Toggle_unset e p = Ok (tt, p')
      /\ matches p e (selector skip) = false
      /\ exists ts o,
           toggle (els p e) = Some ts /\ options ts = Some o
           /\ (truthy (persist o) = false
               \/ matches p e (selector sib) = true)).
Proof.
  rewrite visit_eq. intro H.
  destruct (toggle (els p e)) as [ts|] eqn:Hts; [|left; congruence].
  destruct (valid_selector (selector skip)); [|discriminate].
  destruct (matches p e (selector skip)); [left; congruence|].
  destruct (options ts) as [o|] eqn:Ho; [|discriminate].
  destruct (negb (truthy (persist o))) eqn:Hp.
  - right. split; [exact H|]. split; [reflexivity|].
    exists ts, o. split; [reflexivity|]. split; [exact Ho|].
    left. now apply negb_true_iff in Hp.
  - destruct (valid_selector (selector sib)); [|discriminate].
    destruct (matches p e (selector sib)) eqn:Hs; [|left; congruence].
    right. split; [exact H|]. split; [reflexivity|].
    exists ts, o. split; [reflexivity|]. split; [exact Ho|]. now right.
Qed.

Lemma unsetAll_inv (refTrigger : elem) (p p' : Page) :
  Toggle_unsetAll refTrigger p = Ok (tt, p') ->
  exists ts o,
    toggle (els p refTrigger) = Some ts /\ options ts = Some o
    /\ valid_selector ("." ++ activeClass o) = true
    /\ forEach (querySelectorAll p ("." ++ activeClass o))
         (unsetAll_visit (skipSelector o) (siblingSelector o)) p = Ok (tt, p').
Proof.
  unfold Toggle_unsetAll, document_querySelectorAll, checked. step. intro H.
  destruct (toggle (els p refTrigger)) as [ts|] eqn:Hts; [|discriminate].
  destruct (options ts) as [o|] eqn:Ho; [|discriminate].
  destruct (valid_selector ("." ++ activeClass o)) eqn:Hv; [|discriminate].
  now exists ts, o.
Qed.

Lemma unsetAll_steps (refTrigger : elem) (p p' : Page) :
  Toggle_unsetAll refTrigger p = Ok (tt, p') -> steps p p'.
Proof.
  intro H. apply unsetAll_inv in H. destruct H as (ts & o & _ & _ & _ & H).
  revert H. apply forEach_steps. intros x q q' _ Hv.
  apply visit_inv in Hv. destruct Hv as [->|[Hv _]];
    [apply steps_done|now apply (unset_steps x)].
Qed.

Lemma steps_fixed (p q : Page) :
  steps p q ->
  page_fixed q = page_fixed p /\ forall x, fixed (els q x) = fixed (els p x).
Proof.
  induction 1 as [p|p q r [Hq1 Hq2] _ [IH1 IH2]|p r e o par tgt _ _ [IH1 IH2]
                  |p r e o par tgt _ _ [IH1 IH2]].
  - split; reflexivity.
  - split; [congruence|]. intro x. rewrite IH2. apply Hq2.
  - split; [exact IH1|]. intro x. rewrite IH2. unfold strip3.
    now rewrite !fixed_strip.
  - split; [exact IH1|]. intro x. rewrite IH2. unfold mark3.
    now rewrite !fixed_mark.
Qed.

Lemma steps_toggle (p q : Page) (x : elem) :
  steps p q -> toggle (els q x) = toggle (els p x).
Proof. intro H. apply toggle_fixed. now apply steps_fixed. Qed.

Lemma bound_steps (p q : Page) (e : elem) (o : Options) (par tgt : elem) :
  steps p q -> bound p e o par tgt -> bound q e o par tgt.
Proof.
  intros Hs (ts & H1 & H2). exists ts. split; [|exact H2].
  rewrite (steps_toggle _ _ _ Hs). exact H1.
Qed.

(** What [set] can have done when it returns. *)
Lemma set_inv (trigger : elem) (evt : option Event) (evtType : option string)
    (p p' : Page) :
  Toggle_set trigger evt evtType p = Ok (tt, p') ->
  exists ts,
    toggle (els p trigger) = Some ts
    /\ ((answer (beforeSet ts) p trigger evt = Some false
         /\ p' = record (Called BeforeSet trigger) p)
        \/ (answer (beforeSet ts) p trigger evt = Some true
            /\ exists sweep q o par tgt,
                 let p1 := record (Called BeforeSet trigger) p in
                 let p2 := record (Called BeforeUnsetAll trigger) p1 in
                 answer (beforeUnsetAll ts) p1 trigger None = Some sweep
                 /\ (if sweep then Toggle_unsetAll trigger p2 = Ok (tt, q)
                     else q = p2)
                 /\ options ts = Some o /\ parentEl ts = Some par
                 /\ targetEl ts = Some tgt
                 /\ is_token (activeClass o) = true
                 /\ p' = set_page trigger o par tgt
                           match evtType with Some s => s | None => "" end q)).
Proof.
  rewrite set_eq. intro H.
  destruct (toggle (els p trigger)) as [ts|] eqn:Hts; [|discriminate].
  exists ts. split; [reflexivity|].
  destruct (answer (beforeSet ts) p trigger evt) as [[|]|];
    [|left; split; congruence|discriminate].
  right. split; [reflexivity|]. cbv zeta in H.
  destruct (answer (beforeUnsetAll ts) _ trigger None) as [sweep|] eqn:Hsw;
    [|discriminate].
  destruct (if sweep then _ else _) as [[[] q]|e] eqn:Hq; [|discriminate].
  destruct (options ts) as [o|] eqn:Ho; [|discriminate].
  destruct (is_token (activeClass o)) eqn:Htok; [|discriminate].
  destruct (parentEl ts) as [par|] eqn:Hp; [|discriminate].
  destruct (targetEl ts) as [tgt|] eqn:Ht; [|discriminate].
  destruct (afterSet ts); [|discriminate].
  exists sweep, q, o, par, tgt. cbv zeta.
  split; [exact Hsw|]. split; [|repeat split; congruence].
  destruct sweep; [exact Hq|congruence].
Qed.

Lemma set_page_steps (trigger : elem) (o : Options) (par tgt : elem)
    (triggerEvt : string) (q : Page) :
  bound q trigger o par tgt ->
  steps q (set_page trigger o par tgt triggerEvt q).
Proof.
  intro Hb. unfold set_page.
  eapply steps_mark; [exact Hb|].
  eapply steps_quiet; [apply quiet_arm|].
  apply steps_one_quiet, quiet_record.
Qed.

Lemma set_steps (trigger : elem) (evt : option Event)
    (evtType : option string) (p p' : Page) :
  Toggle_set trigger evt evtType p = Ok (tt, p') -> steps p p'.
Proof.
  intro H. apply set_inv in H.
  destruct H as (ts & Hts & [[_ ->]|(_ & sweep & q & o & par & tgt & H)]).
  - apply steps_one_quiet, quiet_record.
  - cbv zeta in H. destruct H as (_ & Hq & Ho & Hp & Ht & Htok & ->).
    assert (Hpq : steps p q).
    { eapply steps_quiet; [apply (quiet_record (Called BeforeSet trigger))|].
      eapply steps_quiet; [apply (quiet_record (Called BeforeUnsetAll trigger))|].
      destruct sweep; [now apply (unsetAll_steps trigger)|].
      subst q. apply steps_done. }
    eapply steps_trans; [exact Hpq|].
    apply set_page_steps. eapply bound_steps; [exact Hpq|].
    exists ts. auto.
Qed.

Lemma when_inv (c : bool) (m : M unit) (p p' : Page) :
  when c m p = Ok (tt, p') -> (c = false /\ p' = p) \/ (c = true /\ m p = Ok (tt, p')).
Proof.
  destruct c; simpl; [right; auto|]. unfold ret. left. split; congruence.
Qed.

Lemma toggle_steps (trigger : elem) (evt : option Event) (p p' : Page) :
  Toggle_toggle trigger evt p = Ok (tt, p') -> steps p p'.
Proof.
  unfold Toggle_toggle. step. intro H.
  destruct (toggle (els p trigger)) as [ts|]; [|discriminate].
  destruct (options ts) as [o|]; [|discriminate].
  destruct (has_class p trigger (activeClass o)).
  - destruct (truthy (unsetSelf o) && _).
    + now apply (unset_steps trigger).
    + injection H as <-. apply steps_done.
  - now apply set_steps in H.
Qed.

Lemma toggleEventHandler_steps (this : elem) (evt : Event) (p p' : Page) :
  Toggle_toggleEventHandler this evt p = Ok (tt, p') -> steps p p'.
Proof.
  unfold Toggle_toggleEventHandler. intro H.
  apply bind_inv in H. destruct H as (p0 & q0 & H0 & H).
  injection H0 as <- <-.
  apply bind_inv in H. destruct H as ([] & q1 & H1 & H).
  apply bind_inv in H. destruct H as ([] & q2 & H2 & H3).
  apply when_inv in H1. apply when_inv in H3.
  eapply steps_trans; [|eapply steps_trans; [apply (toggle_steps _ _ _ _ H2)|]].
  - destruct H1 as [[_ ->]|[_ H1]]; [apply steps_done|].
    injection H1 as <-. apply steps_one_quiet, quiet_record.
  - destruct H3 as [[_ ->]|[_ H3]]; [apply steps_done|].
    injection H3 as <-. apply steps_one_quiet, quiet_record.
Qed.

(** The inner click when it returns: the selectors it used parse, and it
    left the page as it was or was [unset] of the owner. *)
Lemma closeElCallback_inv (this : elem) (evt : Event) (p p' : Page) :
  Toggle_closeElCallback this evt p = Ok (tt, p') ->
  exists owner ts o,
    toggleTrigger (els p this) = Some owner
    /\ toggle (els p owner) = Some ts /\ options ts = Some o
    /\ valid_selector (closeSelector o) = true
    /\ match closest p (ev_target evt) (closeSelector o) with
       | None => p' = p
       | Some closeEl =>
           match getAttribute p closeEl "data-toggle-close" with
           | Some s =>
               if String.eqb s "" then
                 valid_selector "null" = true
                 /\ Toggle_unset owner p = Ok (tt, p')
               else
                 valid_selector s = true
                 /\ if matches p owner s
                    then Toggle_unset owner p = Ok (tt, p')
                    else p' = p
           | None =>
               valid_selector "null" = true
               /\ Toggle_unset owner p = Ok (tt, p')
           end
       end.
Proof.
  unfold Toggle_closeElCallback, el_closest, el_matches, checked. step.
  intro H.
  destruct (toggleTrigger (els p this)) as [owner|] eqn:Hown; [|discriminate].
  destruct (toggle (els p owner)) as [ts|] eqn:Hts; [|discriminate].
  destruct (options ts) as [o|] eqn:Ho; [|discriminate].
  exists owner, ts, o. split; [reflexivity|].
  split; [exact Hts|]. split; [exact Ho|].
  destruct (valid_selector (closeSelector o)); [|discriminate].
  split; [reflexivity|].
  destruct (closest p (ev_target evt) (closeSelector o)) as [closeEl|];
    cbv beta iota zeta in H; [|now injection H as <-].
  destruct (getAttribute p closeEl "data-toggle-close") as [s|];
    cbv beta iota in H.
  - destruct (String.eqb s ""); cbv beta iota in H.
    + destruct (valid_selector "null"); [|discriminate].
      rewrite orb_true_r in H. now split.
    + destruct (valid_selector s); [|discriminate].
      split; [reflexivity|]. rewrite orb_false_r in H.
      destruct (matches p owner s); [exact H|now injection H as <-].
  - destruct (valid_selector "null"); [|discriminate].
    rewrite orb_true_r in H. now split.
Qed.

Lemma closeElCallback_steps (this : elem) (evt : Event) (p p' : Page) :
  Toggle_closeElCallback this evt p = Ok (tt, p') -> steps p p'.
Proof.
  intro H. apply closeElCallback_inv in H.
  destruct H as (owner & ts & o & _ & _ & _ & _ & H).
  destruct (closest p (ev_target evt) (closeSelector o)) as [closeEl|];
    [|subst p'; apply steps_done].
  destruct (getAttribute p closeEl "data-toggle-close") as [s|].
  - destruct (String.eqb s "").
    + destruct H as [_ H]. now apply (unset_steps owner).
    + destruct H as [_ H]. destruct (matches p owner s);
        [now apply (unset_steps owner)|subst p'; apply steps_done].
  - destruct H as [_ H]. now apply (unset_steps owner).
Qed.

Lemma blurCallback_steps (serial : nat) (trigger : elem) (ty : string)
    (this : elem) (evt : Event) (p p' : Page) :
  blurCallback serial trigger ty this evt p = Ok (tt, p') -> steps p p'.
Proof.
  unfold blurCallback, removeEventListener. step. intro H.
  destruct (toggle (els p trigger)) as [ts|]; [|discriminate].
  destruct (targetEl ts) as [tgt|]; [|discriminate].
  destruct (contains p tgt (ev_target evt));
    [injection H as <-; apply steps_done|].
  destruct (parentEl ts) as [par|]; [|discriminate].
  destruct (contains p par (ev_target evt));
    [injection H as <-; apply steps_done|].
  destruct (Nat.eqb (ev_target evt) trigger);
    [injection H as <-; apply steps_done|].
  eapply steps_quiet; [|apply (unset_steps trigger); exact H].
  apply (quiet_listeners this (remove_listener _)).
Qed.

Lemma mouseLeaveCallback_steps (serial : nat) (trigger this : elem)
    (p p' : Page) :
  mouseLeaveCallback serial trigger this p = Ok (tt, p') -> steps p p'.
Proof.
  unfold mouseLeaveCallback, removeEventListener. step. intro H.
  eapply steps_quiet; [|apply (unset_steps trigger); exact H].
  apply (quiet_listeners this (remove_listener _)).
Qed.

Lemma _toggleOnReturn_steps (evt : Event) (p p' : Page) :
  _toggleOnReturn evt p = Ok (tt, p') -> steps p p'.
Proof.
  unfold _toggleOnReturn. step. intro H.
  destruct (toggle (els p (activeElement p))).
  - destruct (Z.eqb (ev_keyCode evt) 13 && _).
    + now apply toggleEventHandler_steps in H.
    + injection H as <-. apply steps_done.
  - injection H as <-. apply steps_done.
Qed.

Lemma fire_timer_steps (n : nat) (p p' : Page) :
  fire_timer n p = Ok (tt, p') -> steps p p'.
Proof.
  unfold fire_timer. step. intro H.
  destruct (nth_error (timers p) n) as [tm|]; [|discriminate].
  eapply steps_quiet; [apply quiet_timers|].
  destruct (t_task tm) as [trigger|trigger]; unfold run_task in H.
  - apply set_steps in H. exact H.
  - apply (unset_steps trigger). exact H.
Qed.

(** Whatever way the program is entered, when it returns the page is a
    chain of steps away. *)
Lemma run_steps (op : Op) (p p' : Page) :
  run op p = Ok (tt, p') -> steps p p'.
Proof.
  destruct op as [t evt ty|t|t evt|t|cb this evt|n]; simpl.
  - apply set_steps.
  - apply unset_steps.
  - apply toggle_steps.
  - apply unsetAll_steps.
  - destruct cb; simpl.
    + apply toggleEventHandler_steps.
    + apply closeElCallback_steps.
    + apply _toggleOnReturn_steps.
    + apply blurCallback_steps.
    + apply mouseLeaveCallback_steps.
  - apply fire_timer_steps.
Qed.

(** *** The marker of a trigger that is alone *)

Lemma has_class_strip3 (c : string) (e par tgt : elem) (p : Page) (x : elem)
    (d : string) :
  has_class (strip3 c e par tgt p) x d
  = negb (String.eqb d c && (Nat.eqb x e || Nat.eqb x par || Nat.eqb x tgt))
    && has_class p x d.
Proof.
  unfold strip3. rewrite !has_class_strip.
  destruct (String.eqb d c), (Nat.eqb x e), (Nat.eqb x par), (Nat.eqb x tgt),
    (has_class p x d); reflexivity.
Qed.

Lemma has_class_mark3 (c : string) (e par tgt : elem) (p : Page) (x : elem)
    (d : string) :
  has_class (mark3 c e par tgt p) x d
  = (String.eqb d c && (Nat.eqb x e || Nat.eqb x par || Nat.eqb x tgt)
     && is_token c)
    || has_class p x d.
Proof.
  unfold mark3. rewrite !has_class_mark.
  destruct (String.eqb d c), (Nat.eqb x e), (Nat.eqb x par), (Nat.eqb x tgt),
    (has_class p x d), (is_token c); reflexivity.
Qed.

Lemma toggle_strip3 (c : string) (e par tgt : elem) (p : Page) (x : elem) :
  toggle (els (strip3 c e par tgt p) x) = toggle (els p x).
Proof. apply toggle_fixed. unfold strip3. now rewrite !fixed_strip. Qed.

Lemma toggle_mark3 (c : string) (e par tgt : elem) (p : Page) (x : elem) :
  toggle (els (mark3 c e par tgt p) x) = toggle (els p x).
Proof. apply toggle_fixed. unfold mark3. now rewrite !fixed_mark. Qed.

Lemma alone_toggle (p q : Page) (t : elem) :
  (forall x, toggle (els q x) = toggle (els p x)) -> alone p t -> alone q t.
Proof.
  intros Hf Ha ts u us x Hts Hu Hus. rewrite Hf in Hts, Hus.
  now apply (Ha ts u us x).
Qed.

(** The elements of two triggers that share none are pairwise different. *)
Lemma alone_apart (p : Page) (t e : elem) (ts : ToggleState) (o : Options)
    (par tgt : elem) :
  alone p t -> toggle (els p t) = Some ts -> e <> t -> bound p e o par tgt ->
  forall y, In y (footprint t ts) ->
    Nat.eqb y e || Nat.eqb y par || Nat.eqb y tgt = false.
Proof.
  intros Ha Hts Hne (es & He & _ & Hp & Ht) y Hy.
  assert (Hx : forall x, In x (footprint e es) -> Nat.eqb y x = false).
  { intros x Hx. apply Nat.eqb_neq. intros ->.
    now apply (Ha ts e es x Hts Hne He Hx). }
  rewrite !Hx; [reflexivity|..]; unfold footprint; rewrite Hp, Ht; simpl; auto.
Qed.

Lemma consistent_quiet (p q : Page) (t : elem) :
  quiet p q -> consistent q t = consistent p t.
Proof.
  intro Hq. unfold consistent. rewrite (quiet_toggle _ _ _ Hq).
  destruct (toggle (els p t)) as [ts|]; [|reflexivity].
  destruct (options ts), (parentEl ts), (targetEl ts); try reflexivity.
  now rewrite !(quiet_has_class _ _ _ _ Hq).
Qed.

Lemma consistent_strip3 (p : Page) (t e : elem) (o : Options) (par tgt : elem) :
  alone p t -> bound p e o par tgt -> consistent p t = true ->
  consistent (strip3 (activeClass o) e par tgt p) t = true.
Proof.
  intros Ha Hb. unfold consistent. rewrite toggle_strip3.
  destruct (toggle (els p t)) as [ts|] eqn:Hts; [|reflexivity].
  destruct (options ts) as [o'|] eqn:Ho; [|reflexivity].
  destruct (parentEl ts) as [par'|] eqn:Hp; [|reflexivity].
  destruct (targetEl ts) as [tgt'|] eqn:Ht; [|reflexivity].
  rewrite !has_class_strip3.
  destruct (Nat.eq_dec e t) as [->|Hne].
  - destruct Hb as (ts' & Hts' & Ho' & Hp' & Ht').
    assert (ts' = ts) by congruence. subst ts'.
    assert (o' = o) by congruence. assert (par' = par) by congruence.
    assert (tgt' = tgt) by congruence. subst.
    rewrite String.eqb_refl, !Nat.eqb_refl, !orb_true_r. reflexivity.
  - rewrite !(alone_apart p t e ts o par tgt Ha Hts Hne Hb);
      [|unfold footprint; rewrite Hp, Ht; simpl; auto ..].
    now rewrite andb_false_r.
Qed.

Lemma consistent_mark3 (p : Page) (t e : elem) (o : Options) (par tgt : elem) :
  alone p t -> bound p e o par tgt -> consistent p t = true ->
  consistent (mark3 (activeClass o) e par tgt p) t = true.
Proof.
  intros Ha Hb. unfold consistent. rewrite toggle_mark3.
  destruct (toggle (els p t)) as [ts|] eqn:Hts; [|reflexivity].
  destruct (options ts) as [o'|] eqn:Ho; [|reflexivity].
  destruct (parentEl ts) as [par'|] eqn:Hp; [|reflexivity].
  destruct (targetEl ts) as [tgt'|] eqn:Ht; [|reflexivity].
  rewrite !has_class_mark3.
  destruct (Nat.eq_dec e t) as [->|Hne].
  - destruct Hb as (ts' & Hts' & Ho' & Hp' & Ht').
    assert (ts' = ts) by congruence. subst ts'.
    assert (o' = o) by congruence. assert (par' = par) by congruence.
    assert (tgt' = tgt) by congruence. subst.
    rewrite String.eqb_refl, !Nat.eqb_refl, !orb_true_r. simpl.
    destruct (is_token (activeClass o)) eqn:Htok; [reflexivity|].
    now rewrite !(has_class_token _ _ _ Htok).
  - rewrite !(alone_apart p t e ts o par tgt Ha Hts Hne Hb);
      [|unfold footprint; rewrite Hp, Ht; simpl; auto ..].
    rewrite andb_false_r. simpl. auto.
Qed.

Lemma steps_consistent (p q : Page) (t : elem) :
  steps p q -> alone p t -> consistent p t = true -> consistent q t = true.
Proof.
  induction 1 as [p|p q r Hq _ IH|p r e o par tgt Hb _ IH|p r e o par tgt Hb _ IH];
    intros Ha Hc.
  - exact Hc.
  - apply IH.
    + apply (alone_toggle p); [|exact Ha]. intro x. now apply quiet_toggle.
    + now rewrite (consistent_quiet p q t Hq).
  - apply IH.
    + apply (alone_toggle p); [|exact Ha]. intro x. apply toggle_strip3.
    + now apply consistent_strip3.
  - apply IH.
    + apply (alone_toggle p); [|exact Ha]. intro x. apply toggle_mark3.
    + now apply consistent_mark3.
Qed.

(** C1, amended: for a trigger that shares none of its three elements
    with the trigger, parent or target of another element that has a
    [toggle], and whose three elements all carry the marker or all lack it
    before an operation, the same holds when the operation returns. *)
Theorem C1_marker_whole_when_alone (op : Op) (p p' : Page) (trigger : elem) :
  alone p trigger ->
  consistent p trigger = true ->
  run op p = Ok (tt, p') ->
  consistent p' trigger = true.
Proof.
  intros Ha Hc Hrun. apply (steps_consistent p p' trigger); auto.
  now apply (run_steps op).
Qed.

(** *** [toggle] and [unset] *)

(** C4: on an active trigger [toggle] is [unset], unless [unsetSelf] is
    falsy or the event is a [mouseenter], when it does nothing; on an
    inactive trigger it is [set], with the type of the event. *)
Theorem C4_toggle_dispatch (trigger : elem) (evt : option Event) (p : Page)
    (ts : ToggleState) (o : Options) :
  toggle (els p trigger) = Some ts ->
  options ts = Some o ->
  let evtType := match evt with Some e => ev_type e | None => "" end in
  (has_class p trigger (activeClass o) = true ->
   truthy (unsetSelf o) = true -> evtType <> "mouseenter" ->
   Toggle_toggle trigger evt p = Toggle_unset trigger p)
  /\ (has_class p trigger (activeClass o) = true ->
      truthy (unsetSelf o) = false \/ evtType = "mouseenter" ->
      Toggle_toggle trigger evt p = Ok (tt, p))
  /\ (has_class p trigger (activeClass o) = false ->
      Toggle_toggle trigger evt p = Toggle_set trigger evt (Some evtType) p).
Proof.
  intros Hts Ho evtType.
  assert (Heq : Toggle_toggle trigger evt p =
                if has_class p trigger (activeClass o) then
                  if truthy (unsetSelf o) && negb (String.eqb evtType "mouseenter")
                  then Toggle_unset trigger p else Ok (tt, p)
                else Toggle_set trigger evt (Some evtType) p).
  { unfold Toggle_toggle. step. rewrite Hts. step. rewrite Ho.
    destruct (has_class p trigger (activeClass o)); [|reflexivity].
    fold evtType.
    destruct (truthy (unsetSelf o) && negb (String.eqb evtType "mouseenter"));
      reflexivity. }
  rewrite Heq. repeat split.
  - intros -> -> Hne. apply String.eqb_neq in Hne. now rewrite Hne.
  - intros -> [ -> | -> ]; [reflexivity|].
    rewrite String.eqb_refl. now rewrite andb_false_r.
  - now intros ->.
Qed.

(** C5: [unset] changes nothing on an inactive trigger, and nothing but the
    trace when [beforeUnset] answers false; otherwise it takes the marker
    off the trigger, its parent and its target, takes the inner-click
    listener off the target and calls [afterUnset]. *)
Theorem C5_unset_guarded (trigger : elem) (p : Page) (ts : ToggleState)
    (o : Options) :
  toggle (els p trigger) = Some ts ->
  options ts = Some o ->
  let c := activeClass o in
  (has_class p trigger c = false -> Toggle_unset trigger p = Ok (tt, p))
  /\ (has_class p trigger c = true ->
      answer (beforeUnset ts) p trigger None = Some false ->
      Toggle_unset trigger p = Ok (tt, record (Called BeforeUnset trigger) p))
  /\ (has_class p trigger c = true ->
      answer (beforeUnset ts) p trigger None = Some true ->
      forall par tgt h,
        parentEl ts = Some par -> targetEl ts = Some tgt ->
        afterUnset ts = Some h ->
        exists p',
          Toggle_unset trigger p = Ok (tt, p')
          /\ has_class p' trigger c = false
          /\ has_class p' par c = false
          /\ has_class p' tgt c = false
          /\ existsb (Listener_eqb closeEl_listener) (listeners (els p' tgt))
             = false
          /\ trace p' =
             trace p ++ [Called BeforeUnset trigger; ClassRemoved trigger c;
                         ClassRemoved par c; ClassRemoved tgt c;
                         Called AfterUnset trigger]).
Proof.
  intros Hts Ho c. rewrite unset_eq, Hts, Ho. fold c. repeat split.
  - now intros ->.
  - now intros -> ->.
  - intros -> -> par tgt h -> -> ->.
    exists (unset_page c trigger par tgt p). split; [reflexivity|].
    assert (Hq : forall x,
      has_class (unset_page c trigger par tgt p) x c
      = has_class (strip3 c trigger par tgt
                     (record (Called BeforeUnset trigger) p)) x c).
    { intro x. unfold unset_page.
      rewrite (quiet_has_class _ _ _ _ (quiet_record _ _)).
      apply (quiet_has_class _ _ _ _
               (quiet_listeners tgt (remove_listener closeEl_listener) _)). }
    rewrite !Hq, !has_class_strip3, String.eqb_refl, !Nat.eqb_refl,
      !orb_true_r. repeat split.
    + unfold unset_page, record, update. simpl. rewrite Nat.eqb_refl. simpl.
      unfold remove_listener.
      induction (listeners _) as [|l ls IH]; [reflexivity|]. simpl.
      destruct (Listener_eqb closeEl_listener l) eqn:Hl; simpl; [exact IH|].
      now rewrite Hl.
    + unfold unset_page, strip, record. simpl.
      rewrite <- !app_assoc. reflexivity.
Qed.

(** *** Pages that differ by markers only *)

Lemma marker_fixed (p q : Page) (c : string) :
  (forall x, fixed (els q x) = fixed (els p x)) -> marker q c -> marker p c.
Proof.
  intros Hf (v & vs & vo & Hv & H). exists v, vs, vo. split; [|exact H].
  rewrite <- (toggle_fixed _ _ (Hf v)). exact Hv.
Qed.

Lemma evolves_refl (p : Page) : evolves p p.
Proof. repeat split. Qed.

Lemma evolves_trans (p q r : Page) : evolves p q -> evolves q r -> evolves p r.
Proof.
  intros (H1 & H2 & H3) (H4 & H5 & H6). split; [congruence|]. split.
  - intro x. now rewrite H5.
  - intros x c Hc. rewrite H6; [now apply H3|].
    intro Hm. apply Hc. now apply (marker_fixed p q).
Qed.

Lemma quiet_evolves (p q : Page) : quiet p q -> evolves p q.
Proof.
  intros [H1 H2]. split; [exact H1|]. split; [intro x; apply H2|].
  intros x c _. unfold has_class. destruct (H2 x) as [_ ->]. reflexivity.
Qed.

Lemma bound_marker (p : Page) (e : elem) (o : Options) (par tgt : elem) :
  bound p e o par tgt -> marker p (activeClass o).
Proof. intros (ts & H1 & H2 & _). now exists e, ts, o. Qed.

Lemma strip3_evolves (p : Page) (e : elem) (o : Options) (par tgt : elem) :
  bound p e o par tgt -> evolves p (strip3 (activeClass o) e par tgt p).
Proof.
  intro Hb. split; [reflexivity|]. split.
  - intro x. unfold strip3. now rewrite !fixed_strip.
  - intros x c Hc. rewrite has_class_strip3.
    destruct (String.eqb_spec c (activeClass o)) as [->|_]; [|reflexivity].
    destruct Hc. now apply (bound_marker p e o par tgt).
Qed.

Lemma mark3_evolves (p : Page) (e : elem) (o : Options) (par tgt : elem) :
  bound p e o par tgt -> evolves p (mark3 (activeClass o) e par tgt p).
Proof.
  intro Hb. split; [reflexivity|]. split.
  - intro x. unfold mark3. now rewrite !fixed_mark.
  - intros x c Hc. rewrite has_class_mark3.
    destruct (String.eqb_spec c (activeClass o)) as [->|_]; [|reflexivity].
    destruct Hc. now apply (bound_marker p e o par tgt).
Qed.

Lemma steps_evolves (p q : Page) : steps p q -> evolves p q.
Proof.
  induction 1 as [p|p q r Hq _ IH|p r e o par tgt Hb _ IH|p r e o par tgt Hb _ IH].
  - apply evolves_refl.
  - eapply evolves_trans; [apply quiet_evolves; exact Hq|exact IH].
  - eapply evolves_trans; [apply strip3_evolves; exact Hb|exact IH].
  - eapply evolves_trans; [apply mark3_evolves; exact Hb|exact IH].
Qed.

Lemma evolves_toggle (p q : Page) (x : elem) :
  evolves p q -> toggle (els q x) = toggle (els p x).
Proof. intros (_ & H & _). apply toggle_fixed, H. Qed.

(** *** The sweep *)

Lemma forEach_rel {X : Type} (R : Page -> Page -> Prop) (f : X -> M unit)
    (l : list X) :
  (forall p, R p p) ->
  (forall p q r, R p q -> R q r -> R p r) ->
  (forall x p p', In x l -> f x p = Ok (tt, p') -> R p p') ->
  forall p p', forEach l f p = Ok (tt, p') -> R p p'.
Proof.
  intros Hrefl Htrans. induction l as [|x l IH]; intros Hf p p' H.
  - injection H as <-. apply Hrefl.
  - simpl in H. apply bind_inv in H. destruct H as ([] & q & H1 & H2).
    eapply Htrans.
    + eapply Hf; [now left|exact H1].
    + apply IH; [|exact H2]. intros y r r' Hy. apply Hf. now right.
Qed.

Lemma unset_page_has_class (c : string) (e par tgt : elem) (p : Page)
    (x : elem) (d : string) :
  has_class (unset_page c e par tgt p) x d
  = negb (String.eqb d c && (Nat.eqb x e || Nat.eqb x par || Nat.eqb x tgt))
    && has_class p x d.
Proof.
  unfold unset_page.
  rewrite (quiet_has_class _ _ _ _ (quiet_record _ _)).
  rewrite (quiet_has_class _ _ _ _
             (quiet_listeners tgt (remove_listener closeEl_listener) _)).
  fold (strip3 c e par tgt (record (Called BeforeUnset e) p)).
  rewrite has_class_strip3.
  now rewrite (quiet_has_class _ _ _ _ (quiet_record _ _)).
Qed.

Lemma unset_fades (e : elem) (p p' : Page) :
  Toggle_unset e p = Ok (tt, p') -> fades p p'.
Proof.
  intros H x d. apply unset_inv in H.
  destruct H as (ts & o & _ & _ &
    [[_ ->]|[(_ & _ & ->)|(_ & _ & par & tgt & _ & _ & ->)]]); auto.
  rewrite unset_page_has_class. intro H. now apply andb_true_iff in H.
Qed.

Lemma visit_steps (skip sib : option string) (e : elem) (p p' : Page) :
  unsetAll_visit skip sib e p = Ok (tt, p') -> steps p p'.
Proof.
  intro H. apply visit_inv in H. destruct H as [->|[H _]];
    [apply steps_done|now apply (unset_steps e)].
Qed.

Lemma visit_fades (skip sib : option string) (e : elem) (p p' : Page) :
  unsetAll_visit skip sib e p = Ok (tt, p') -> fades p p'.
Proof.
  intro H. apply visit_inv in H. destruct H as [->|[H _]];
    [now intros x d|now apply (unset_fades e)].
Qed.

Lemma sweep_steps (skip sib : option string) (l : list elem) (p p' : Page) :
  forEach l (unsetAll_visit skip sib) p = Ok (tt, p') -> steps p p'.
Proof.
  apply forEach_steps. intros x q q' _. apply visit_steps.
Qed.

Lemma sweep_fades (skip sib : option string) (l : list elem) (p p' : Page) :
  forEach l (unsetAll_visit skip sib) p = Ok (tt, p') -> fades p p'.
Proof.
  apply (forEach_rel fades).
  - now intros q x d.
  - intros q1 q2 q3 H1 H2 x d H. now apply H1, H2.
  - intros x q q' _. apply visit_fades.
Qed.


(** A visited element that the sweep has no reason to pass over ends
    without its marker. *)
Lemma sweep_unsets (p : Page) (skip sib : option string) (u : elem)
    (us : ToggleState) (uo : Options) :
  toggle (els p u) = Some us ->
  options us = Some uo ->
  (forall r, evolves p r -> matches r u (selector skip) = false) ->
  (truthy (persist uo) = false
   \/ forall r, evolves p r -> matches r u (selector sib) = true) ->
  (forall r, evolves p r -> answer (beforeUnset us) r u None <> Some false) ->
  forall l q q',
    In u l -> evolves p q ->
    forEach l (unsetAll_visit skip sib) q = Ok (tt, q') ->
    has_class q' u (activeClass uo) = false.
Proof.
  intros Hus Huo Hskip Hsib Hhook.
  induction l as [|a l IH]; intros q q' Hin Hev H; [destruct Hin|].
  simpl in H. apply bind_inv in H. destruct H as ([] & q1 & H1 & H2).
  destruct (Nat.eq_dec a u) as [->|Hne].
  - assert (Hq1 : has_class q1 u (activeClass uo) = false).
    { assert (Hu : Toggle_unset u q = Ok (tt, q1)).
      { rewrite visit_eq, (evolves_toggle p q u Hev), Hus, (Hskip q Hev), Huo
          in H1.
        destruct (valid_selector (selector skip)); [|discriminate].
        destruct Hsib as [Hp|Hs]; [now rewrite Hp in H1|].
        rewrite (Hs q Hev) in H1.
        destruct (negb (truthy (persist uo))); [exact H1|].
        destruct (valid_selector (selector sib)); [exact H1|discriminate]. }
      rewrite unset_eq, (evolves_toggle p q u Hev), Hus, Huo in Hu.
      destruct (has_class q u (activeClass uo)) eqn:Hc; [|congruence].
      specialize (Hhook q Hev).
      destruct (answer (beforeUnset us) q u None) as [[|]|];
        [|congruence|discriminate].
      destruct (parentEl us) as [par|]; [|discriminate].
      destruct (targetEl us) as [tgt|]; [|discriminate].
      destruct (afterUnset us); [|discriminate].
      injection Hu as <-. rewrite unset_page_has_class.
      now rewrite String.eqb_refl, Nat.eqb_refl. }
    destruct (has_class q' u (activeClass uo)) eqn:Hc; [|reflexivity].
    apply (sweep_fades skip sib l q1 q' H2) in Hc. congruence.
  - destruct Hin as [->|Hin]; [congruence|].
    apply (IH q1 q' Hin); [|exact H2].
    eapply evolves_trans; [exact Hev|].
    apply steps_evolves. now apply (visit_steps skip sib a).
Qed.







(** C10: a turn of the sweep on an element without [toggle] returns and
    changes nothing, where [unset] on it would throw; the sweep is the
    sweep over the elements that [querySelectorAll] returned and that have
    a [toggle]. *)
Theorem C10_unbound_elements_passed (refTrigger : elem) (p : Page)
    (ts : ToggleState) (o : Options) :
  toggle (els p refTrigger) = Some ts ->
  options ts = Some o ->
  (forall e q skip sib,
     toggle (els q e) = None ->
     unsetAll_visit skip sib e q = Ok (tt, q)
     /\ Toggle_unset e q = Throw TypeError)
  /\ Toggle_unsetAll refTrigger p
     = (activeTriggers <- document_querySelectorAll ("." ++ activeClass o) ;;
        forEach
          (filter (fun e => match toggle (els p e) with
                            | Some _ => true
                            | None => false
                            end) activeTriggers)
          (unsetAll_visit (skipSelector o) (siblingSelector o))) p.
Proof.
  intros Hts Ho.
  assert (Hskip : forall e q skip sib,
    toggle (els q e) = None -> unsetAll_visit skip sib e q = Ok (tt, q)).
  { intros e q skip sib He. unfold unsetAll_visit. step. now rewrite He. }
  split.
  - intros e q skip sib He. split; [now apply Hskip|].
    rewrite unset_eq. now rewrite He.
  - unfold Toggle_unsetAll. step. rewrite Hts. step. rewrite Ho. step.
    unfold document_querySelectorAll, checked.
    destruct (valid_selector ("." ++ activeClass o)); [|reflexivity].
    generalize (querySelectorAll p ("." ++ activeClass o)) as l.
    assert (Hgen : forall l q,
      (forall x, toggle (els q x) = toggle (els p x)) ->
      forEach l (unsetAll_visit (skipSelector o) (siblingSelector o)) q
      = forEach
          (filter (fun e => match toggle (els p e) with
                            | Some _ => true
                            | None => false
                            end) l)
          (unsetAll_visit (skipSelector o) (siblingSelector o)) q).
    { induction l as [|a l IH]; intros q Hq; [reflexivity|]. simpl.
      destruct (toggle (els p a)) as [ta|] eqn:Ha.
      - simpl. unfold bind.
        destruct (unsetAll_visit _ _ a q) as [[[] q1]|err] eqn:Hv;
          [|reflexivity].
        apply IH. intro x.
        rewrite (steps_toggle q q1 x (visit_steps _ _ _ _ _ Hv)). apply Hq.
      - unfold bind at 1. rewrite Hskip; [|now rewrite Hq].
        now apply IH. }
    intro l. now apply Hgen.
Qed.

(** C2, amended: when [set] returns after [beforeSet] and [beforeUnsetAll]
    both answered true, the sweep ended on a page [q] before the first
    marker was added, and an element of the document other than the three
    of [trigger], bound with the same active class, which ['.' +
    activeClass] selects exactly when it carries the class, that does not
    match the [skipSelector], is not persistent or matches the
    [siblingSelector], and whose [beforeUnset] does not answer false, is
    without the marker in [q] and when [set] returns.  The tests are made
    during the sweep, so they are asked on every page that has the markers
    elsewhere. *)
Theorem C2_sweep_before_marker (trigger u : elem) (evt : option Event)
    (evtType : option string) (p p' : Page) (ts us : ToggleState)
    (o uo : Options) (par tgt : elem) :
  toggle (els p trigger) = Some ts ->
  options ts = Some o ->
  parentEl ts = Some par ->
  targetEl ts = Some tgt ->
  Toggle_set trigger evt evtType p = Ok (tt, p') ->
  answer (beforeSet ts) p trigger evt = Some true ->
  answer (beforeUnsetAll ts) (record (Called BeforeSet trigger) p) trigger None
  = Some true ->
  toggle (els p u) = Some us ->
  options us = Some uo ->
  activeClass uo = activeClass o ->
  In u (doc p) ->
  u <> trigger -> u <> par -> u <> tgt ->
  (forall r, evolves p r ->
     matches r u ("." ++ activeClass o) = has_class r u (activeClass o)) ->
  (forall r, evolves p r -> matches r u (selector (skipSelector o)) = false) ->
  (truthy (persist uo) = false
   \/ forall r, evolves p r ->
        matches r u (selector (siblingSelector o)) = true) ->
  (forall r, evolves p r -> answer (beforeUnset us) r u None <> Some false) ->
  let c := activeClass o in
  exists q,
    Toggle_unsetAll trigger
      (record (Called BeforeUnsetAll trigger)
         (record (Called BeforeSet trigger) p)) = Ok (tt, q)
    /\ has_class q u c = false
    /\ has_class p' u c = false
    /\ trace p' = trace q ++ [ClassAdded trigger c; ClassAdded par c;
                              ClassAdded tgt c; Called AfterSet trigger].
Proof.
  intros Hts Ho Hp Ht Hset Hbs Hbu Hus Huo Hc Hdoc Hn1 Hn2 Hn3 Hsel Hskip Hsib
    Hhook c.
  apply set_inv in Hset.
  destruct Hset as (ts' & Hts' & [[Hno _]|(_ & sweep & q & o' & par' & tgt' & H)]).
  { assert (ts' = ts) by congruence. subst ts'. congruence. }
  assert (ts' = ts) by congruence. subst ts'. cbv zeta in H.
  destruct H as (Hsw & Hq & Ho' & Hp' & Ht' & Htok & ->).
  assert (sweep = true) by congruence. subst sweep.
  assert (o' = o) by congruence. assert (par' = par) by congruence.
  assert (tgt' = tgt) by congruence. subst o' par' tgt'.
  set (p2 := record (Called BeforeUnsetAll trigger)
               (record (Called BeforeSet trigger) p)) in *.
  assert (Hev : evolves p p2) by (repeat split).
  exists q. split; [exact Hq|].
  assert (Hqu : has_class q u c = false).
  { destruct (has_class p2 u c) eqn:Hcl.
    - subst c. rewrite <- Hc.
      apply unsetAll_inv in Hq.
      destruct Hq as (ts2 & o2 & Hts2 & Ho2 & _ & Hq).
      assert (ts2 = ts) by (unfold p2 in Hts2; simpl in Hts2; congruence).
      subst ts2. assert (o2 = o) by congruence. subst o2.
      apply (sweep_unsets p (skipSelector o) (siblingSelector o) u us uo
               Hus Huo Hskip Hsib Hhook
               (querySelectorAll p2 ("." ++ activeClass o)) p2 q);
        [|exact Hev|exact Hq].
      unfold querySelectorAll. apply filter_In. split; [exact Hdoc|].
      rewrite (Hsel p2 Hev). exact Hcl.
    - destruct (has_class q u c) eqn:Hcq; [|reflexivity].
      apply unsetAll_inv in Hq. destruct Hq as (ts2 & o2 & _ & _ & _ & Hq).
      apply (sweep_fades _ _ _ _ _ Hq) in Hcq. congruence. }
  split; [exact Hqu|]. split.
  - unfold set_page.
    rewrite (quiet_has_class _ _ _ _ (quiet_record _ _)).
    rewrite (quiet_has_class _ _ _ _ (quiet_arm _ _ _ _ _ _)).
    fold (mark3 (activeClass o) trigger par tgt q).
    rewrite has_class_mark3. fold c. rewrite Hqu.
    apply Nat.eqb_neq in Hn1, Hn2, Hn3. rewrite Hn1, Hn2, Hn3.
    now rewrite andb_false_r.
  - unfold set_page, arm, mark, record. simpl.
    destruct (negb (truthy (persist o))), (truthy (unsetOnHoverOut o)),
      (truthy (timeout o)); simpl; now rewrite <- !app_assoc.
Qed.

(** *** Set-up *)

Lemma _setupTrigger_eq (this : Instance) (trigger : elem) (p : Page) :
  _setupTrigger this trigger p =
  (tgt <- bind_trigger this trigger ;;
   match tgt with
   | None => modify (record (Warned trigger))
   | Some targetEl =>
       modify (update targetEl (with_toggleTrigger (Some trigger))) ;;;
       _setupCallbacks trigger ;;;
       _setupMethods trigger ;;;
       _setupHandlers trigger ;;;
       auto_activation this trigger ;;;
       removeAttribute trigger (attribute_name this)
   end) p.
Proof.
  unfold _setupTrigger, bind_trigger, bind, modify, ret. cbv beta iota.
  destruct (_getOptions this trigger _) as [[o q1]|]; [|reflexivity].
  destruct (assign trigger _ q1) as [[[] q2]|]; [|reflexivity].
  destruct (_getParent trigger q2) as [[par q3]|]; [|reflexivity].
  destruct (assign trigger _ q3) as [[[] q4]|]; [|reflexivity].
  destruct (_getTarget trigger q4) as [[tgt q5]|]; [|reflexivity].
  destruct (assign trigger _ q5) as [[[] q6]|]; reflexivity.
Qed.

Lemma _getOptions_pure (this : Instance) (trigger : elem) (o : Options)
    (p q : Page) :
  _getOptions this trigger p = Ok (o, q) -> q = p.
Proof.
  unfold _getOptions. step.
  destruct (getAttribute p trigger (attribute_name this)) as [s0|].
  - destruct (String.eqb s0 ""); [congruence|].
    destruct (JSON_parse s0) as [[r|]|]; [congruence|discriminate..].
  - congruence.
Qed.

(** [_getParent] and [_getTarget], written out. *)
Lemma _getParent_eq (trigger : elem) (p : Page) :
  _getParent trigger p
  = match toggle (els p trigger) with
    | None => Throw TypeError
    | Some ts =>
        match options ts with
        | None => Throw TypeError
        | Some o =>
            let sel := selector (parent o) in
            if valid_selector sel then
              Ok (or_else (closest p trigger sel)
                    (or_else (hd_error (querySelectorAll p sel))
                       (parentNode p trigger)), p)
            else Throw DOMException
        end
    end.
Proof.
  unfold _getParent, el_closest, document_querySelector, checked. step.
  destruct (toggle (els p trigger)) as [ts|]; [|reflexivity].
  destruct (options ts) as [o|]; [|reflexivity]. cbv zeta.
  destruct (valid_selector (selector (parent o))); [|reflexivity].
  destruct (closest p trigger (selector (parent o))); [reflexivity|].
  cbv beta iota.
  destruct (hd_error (querySelectorAll p (selector (parent o)))); reflexivity.
Qed.

Lemma _getTarget_eq (trigger : elem) (p : Page) :
  _getTarget trigger p
  = match toggle (els p trigger) with
    | None => Throw TypeError
    | Some ts =>
        match options ts with
        | None => Throw TypeError
        | Some o =>
            let sel := selector (target o) in
            if valid_selector sel then
              if (1 <? List.length (querySelectorAll p sel))%nat then
                match parentEl ts with
                | Some par => Ok (querySelector_in p par sel, p)
                | None => Throw TypeError
                end
              else Ok (hd_error (querySelectorAll p sel), p)
            else Throw DOMException
        end
    end.
Proof.
  unfold _getTarget, document_querySelectorAll, el_querySelector, checked.
  step.
  destruct (toggle (els p trigger)) as [ts|]; [|reflexivity].
  destruct (options ts) as [o|]; [|reflexivity]. cbv zeta.
  destruct (valid_selector (selector (target o))); [|reflexivity].
  destruct (1 <? _)%nat; [|reflexivity].
  destruct (parentEl ts); reflexivity.
Qed.

Lemma _getParent_pure (trigger : elem) (par : option elem) (p q : Page) :
  _getParent trigger p = Ok (par, q) -> q = p.
Proof.
  rewrite _getParent_eq.
  destruct (toggle (els p trigger)) as [ts|]; [|discriminate].
  destruct (options ts); [|discriminate]. cbv zeta.
  destruct (valid_selector _); [congruence|discriminate].
Qed.

Lemma _getTarget_pure (trigger : elem) (tgt : option elem) (p q : Page) :
  _getTarget trigger p = Ok (tgt, q) -> q = p.
Proof.
  rewrite _getTarget_eq.
  destruct (toggle (els p trigger)) as [ts|]; [|discriminate].
  destruct (options ts) as [o|]; [|discriminate]. cbv zeta.
  destruct (valid_selector _); [|discriminate].
  destruct (1 <? _)%nat; [|congruence].
  destruct (parentEl ts); [congruence|discriminate].
Qed.

Lemma assign_inv (trigger : elem) (f : ToggleState -> ToggleState)
    (p q : Page) :
  assign trigger f p = Ok (tt, q) ->
  exists ts,
    toggle (els p trigger) = Some ts
    /\ q = update trigger (with_toggle (Some (f ts))) p.
Proof.
  unfold assign. step.
  destruct (toggle (els p trigger)) as [ts|]; [|discriminate].
  intro H. exists ts. split; congruence.
Qed.

(** The binding writes [trigger.toggle] and nothing else; the slots of the
    hooks and the methods are as they were, empty on a new trigger. *)
Lemma bind_trigger_inv (this : Instance) (trigger : elem)
    (tgt : option elem) (p q : Page) :
  bind_trigger this trigger p = Ok (tgt, q) ->
  let ts0 := match toggle (els p trigger) with
             | Some ts => ts
             | None => empty_toggle
             end in
  exists o par,
    rebound trigger
      {| options := Some o; parentEl := par; targetEl := tgt;
         beforeUnset := beforeUnset ts0; afterUnset := afterUnset ts0;
         beforeUnsetAll := beforeUnsetAll ts0; beforeSet := beforeSet ts0;
         afterSet := afterSet ts0; methods := methods ts0 |} p q.
Proof.
  intros H ts0. unfold bind_trigger in H.
  apply bind_inv in H. destruct H as ([] & q0 & H0 & H).
  unfold modify in H0. injection H0 as <-.
  apply bind_inv in H. destruct H as (o & q1 & H1 & H).
  apply _getOptions_pure in H1 as ->.
  apply bind_inv in H. destruct H as ([] & q2 & H2 & H).
  apply assign_inv in H2. destruct H2 as (t1 & Ht1 & ->).
  apply bind_inv in H. destruct H as (par & q3 & H3 & H).
  apply _getParent_pure in H3 as ->.
  apply bind_inv in H. destruct H as ([] & q4 & H4 & H).
  apply assign_inv in H4. destruct H4 as (t2 & Ht2 & ->).
  apply bind_inv in H. destruct H as (tgt' & q5 & H5 & H).
  apply _getTarget_pure in H5 as ->.
  apply bind_inv in H. destruct H as ([] & q6 & H6 & H).
  apply assign_inv in H6. destruct H6 as (t3 & Ht3 & ->).
  unfold ret in H. injection H as -> <-.
  exists o, par. unfold rebound.
  revert Ht1 Ht2 Ht3. unfold update. simpl. rewrite !Nat.eqb_refl. simpl.
  intros Ht1 Ht2 Ht3.
  injection Ht1 as <-. injection Ht2 as <-. injection Ht3 as <-.
  repeat split. intro x. destruct (Nat.eqb x trigger); reflexivity.
Qed.

Lemma forEach_app {X : Type} (f : X -> M unit) (l1 l2 : list X) (p : Page) :
  forEach (l1 ++ l2) f p
  = match forEach l1 f p with
    | Ok (_, q) => forEach l2 f q
    | Throw e => Throw e
    end.
Proof.
  revert p. induction l1 as [|x l1 IH]; intro p; [reflexivity|].
  simpl. unfold bind. destruct (f x p) as [[[] q]|]; [|reflexivity].
  apply IH.
Qed.

(** An element with options and no [beforeUnset] that the sweep reaches
    while it carries its active class. *)
Lemma half_bound_throws (refTrigger e : elem) (p p1 : Page)
    (ts es : ToggleState) (o eo : Options) (before after : list elem) :
  toggle (els p refTrigger) = Some ts ->
  options ts = Some o ->
  valid_selector ("." ++ activeClass o) = true ->
  querySelectorAll p ("." ++ activeClass o) = before ++ e :: after ->
  forEach before (unsetAll_visit (skipSelector o) (siblingSelector o)) p
  = Ok (tt, p1) ->
  toggle (els p e) = Some es ->
  options es = Some eo ->
  beforeUnset es = None ->
  has_class p1 e (activeClass eo) = true ->
  valid_selector (selector (skipSelector o)) = true ->
  matches p1 e (selector (skipSelector o)) = false ->
  truthy (persist eo) = false
  \/ (valid_selector (selector (siblingSelector o)) = true
      /\ matches p1 e (selector (siblingSelector o)) = true) ->
  Toggle_unsetAll refTrigger p = Throw TypeError.
Proof.
  intros Hts Ho Hv Hsnap Hbefore Hes Heo Hhook Hc Hvs Hskip Hsib.
  unfold Toggle_unsetAll, document_querySelectorAll, checked. step.
  rewrite Hts. step. rewrite Ho, Hv, Hsnap, forEach_app, Hbefore.
  simpl. unfold bind at 1.
  assert (Hes1 : toggle (els p1 e) = Some es).
  { rewrite (steps_toggle p p1 e); [exact Hes|].
    now apply (sweep_steps (skipSelector o) (siblingSelector o) before). }
  assert (Hu : Toggle_unset e p1 = Throw TypeError)
    by (now rewrite unset_eq, Hes1, Heo, Hc, Hhook).
  rewrite visit_eq, Hes1, Hvs, Hskip, Heo.
  destruct Hsib as [Hp|[Hvb Hsib]].
  - now rewrite Hp, Hu.
  - rewrite Hvb, Hsib, Hu. now destruct (negb (truthy (persist eo))).
Qed.


(** The branches of the [auto] statement.  The test for a number is
    [!isNaN(auto)], so [true] and the strings that read as numbers are
    timed, and [set] is called at once only for a value that is neither a
    number nor a string, such as an object. *)
Lemma auto_activation_cases (this : Instance) (trigger : elem) (p : Page)
    (ts : ToggleState) (o : Options) :
  toggle (els p trigger) = Some ts ->
  options ts = Some o ->
  (truthy (auto o) = false -> auto_activation this trigger p = Ok (tt, p))
  /\ (truthy (auto o) = true -> isNaN (auto o) = false ->
      auto_activation this trigger p
      = setTimeout (CallSet trigger) (auto o) p)
  /\ (forall name,
        auto o = JStr name -> truthy (auto o) = true ->
        isNaN (auto o) = true ->
        auto_activation this trigger p
        = if hasURLParameter name then Toggle_set trigger None None p
          else
            match r_breakpoints (defaults this) with
            | None => Ok (tt, p)
            | Some table =>
                if match lookup_breakpoint name table with
                   | Some bp =>
                       bound_ok (bp_min bp) (fun m => Z.geb (offsetWidth p) m)
                       && bound_ok (bp_max bp)
                            (fun m => Z.leb (offsetWidth p) m)
                   | None => false
                   end
                then Toggle_set trigger None None p
                else Toggle_unset trigger p
            end)
  /\ (auto o = JObject ->
      auto_activation this trigger p = Toggle_set trigger None None p).
Proof.
  intros Hts Ho. unfold auto_activation. step. rewrite Hts. step. rewrite Ho.
  repeat split.
  - now intros ->.
  - now intros -> ->.
  - intros name Ha -> ->. rewrite Ha. simpl.
    destruct (hasURLParameter name); [reflexivity|].
    destruct (r_breakpoints (defaults this)) as [table|]; [|reflexivity].
    destruct (lookup_breakpoint name table) as [bp|]; [|reflexivity].
    destruct (bound_ok (bp_min bp) _ && bound_ok (bp_max bp) _); reflexivity.
  - now intros ->.
Qed.

Lemma evolves_nodeName (p q : Page) (x : elem) :
  evolves p q -> nodeName (els q x) = nodeName (els p x).
Proof.
  intros (_ & H & _). specialize (H x). unfold fixed in H. congruence.
Qed.

Lemma evolves_class (p q : Page) (x : elem) (c : string) :
  evolves p q -> ~ marker p c -> has_class q x c = has_class p x c.
Proof. intros (_ & _ & H). apply H. Qed.

(** *** No exception on a page where every trigger is set up *)

Lemma answer_defined (slot : option HookRef) (h : HookRef) (p : Page)
    (trigger : elem) (evt : option Event) :
  slot = Some h -> exists b, answer slot p trigger evt = Some b.
Proof. intros ->. destruct h; simpl; eauto. Qed.

Lemma wired_inv (ts : ToggleState) :
  wired ts = true ->
  exists o par tgt h1 h2 h3 h4 h5,
    options ts = Some o /\ parentEl ts = Some par /\ targetEl ts = Some tgt
    /\ beforeUnset ts = Some h1 /\ afterUnset ts = Some h2
    /\ beforeUnsetAll ts = Some h3 /\ beforeSet ts = Some h4
    /\ afterSet ts = Some h5.
Proof.
  unfold wired.
  destruct (options ts) as [o|]; [|discriminate].
  destruct (parentEl ts) as [par|]; [|discriminate].
  destruct (targetEl ts) as [tgt|]; [|discriminate].
  destruct (beforeUnset ts) as [h1|]; [|discriminate].
  destruct (afterUnset ts) as [h2|]; [|discriminate].
  destruct (beforeUnsetAll ts) as [h3|]; [|discriminate].
  destruct (beforeSet ts) as [h4|]; [|discriminate].
  destruct (afterSet ts) as [h5|]; [|discriminate].
  intros _. exists o, par, tgt, h1, h2, h3, h4, h5. repeat split.
Qed.

Lemma well_wired_steps (p q : Page) :
  steps p q -> well_wired p -> well_wired q.
Proof.
  intros Hs Hw e ts He. apply (Hw e). now rewrite <- (steps_toggle p q e Hs).
Qed.

Lemma has_toggle_steps (p q : Page) (e : elem) :
  steps p q -> has_toggle q e = has_toggle p e.
Proof. intro Hs. unfold has_toggle. now rewrite (steps_toggle p q e Hs). Qed.

Lemma unset_returns (p : Page) (trigger : elem) :
  well_wired p -> has_toggle p trigger = true ->
  exists p', Toggle_unset trigger p = Ok (tt, p').
Proof.
  intros Hw Ht. unfold has_toggle in Ht. rewrite unset_eq.
  destruct (toggle (els p trigger)) as [ts|] eqn:Hts; [|discriminate].
  destruct (wired_inv ts (Hw _ _ Hts))
    as (o & par & tgt & h1 & h2 & h3 & h4 & h5 & Ho & Hp & Hg & H1 & H2 & _).
  rewrite Ho, Hp, Hg, H2.
  destruct (has_class p trigger (activeClass o)); [|eauto].
  destruct (answer_defined _ h1 p trigger None H1) as [[|] ->]; eauto.
Qed.

Lemma dom_safe_steps (p q : Page) :
  steps p q -> dom_safe p -> dom_safe q.
Proof.
  intros Hs (H0 & H1 & H2). apply steps_fixed in Hs. destruct Hs as [_ Hs].
  split; [exact H0|]. split.
  - intros e ts o. rewrite (toggle_fixed _ _ (Hs e)). apply H1.
  - intros e s. unfold getAttribute.
    assert (Ha : attributes (els q e) = attributes (els p e)).
    { specialize (Hs e). unfold fixed in Hs. congruence. }
    rewrite Ha. apply H2.
Qed.

Lemma visit_returns (skip sib : option string) (e : elem) (p : Page) :
  well_wired p ->
  valid_selector (selector skip) = true ->
  valid_selector (selector sib) = true ->
  exists p', unsetAll_visit skip sib e p = Ok (tt, p').
Proof.
  intros Hw Hv1 Hv2. rewrite visit_eq, Hv1, Hv2.
  destruct (toggle (els p e)) as [ts|] eqn:Hts; [|eauto].
  destruct (matches p e (selector skip)); [eauto|].
  destruct (wired_inv ts (Hw _ _ Hts)) as (o & _ & _ & _ & _ & _ & _ & _ & Ho & _).
  rewrite Ho.
  assert (Hu : exists p', Toggle_unset e p = Ok (tt, p')).
  { apply unset_returns; [exact Hw|]. unfold has_toggle. now rewrite Hts. }
  destruct (negb (truthy (persist o))); [exact Hu|].
  destruct (matches p e (selector sib)); [exact Hu|eauto].
Qed.

Lemma sweep_returns (skip sib : option string) (l : list elem) (p : Page) :
  well_wired p ->
  valid_selector (selector skip) = true ->
  valid_selector (selector sib) = true ->
  exists p', forEach l (unsetAll_visit skip sib) p = Ok (tt, p').
Proof.
  intros Hw Hv1 Hv2. revert p Hw.
  induction l as [|e l IH]; intros p Hw; [simpl; unfold ret; eauto|].
  simpl. unfold bind.
  destruct (visit_returns skip sib e p Hw Hv1 Hv2) as [q Hq]. rewrite Hq.
  apply IH. apply (well_wired_steps p q); [|exact Hw].
  now apply (visit_steps skip sib e).
Qed.

Lemma unsetAll_returns (p : Page) (refTrigger : elem) :
  well_wired p -> dom_safe p -> has_toggle p refTrigger = true ->
  exists p', Toggle_unsetAll refTrigger p = Ok (tt, p').
Proof.
  intros Hw (_ & Hs & _) Ht. unfold has_toggle in Ht.
  unfold Toggle_unsetAll, document_querySelectorAll, checked. step.
  destruct (toggle (els p refTrigger)) as [ts|] eqn:Hts; [|discriminate].
  destruct (wired_inv ts (Hw _ _ Hts)) as (o & _ & _ & _ & _ & _ & _ & _ & Ho & _).
  rewrite Ho. destruct (Hs _ _ _ Hts Ho) as (_ & -> & Hv1 & Hv2 & _).
  now apply sweep_returns.
Qed.

Lemma set_returns (p : Page) (trigger : elem) (evt : option Event)
    (evtType : option string) :
  well_wired p -> dom_safe p -> has_toggle p trigger = true ->
  exists p', Toggle_set trigger evt evtType p = Ok (tt, p').
Proof.
  intros Hw Hs Ht. rewrite set_eq. unfold has_toggle in Ht.
  destruct (toggle (els p trigger)) as [ts|] eqn:Hts; [|discriminate].
  destruct (wired_inv ts (Hw _ _ Hts))
    as (o & par & tgt & h1 & h2 & h3 & h4 & h5 & Ho & Hp & Hg & _ & _ & H3 & H4 & H5).
  destruct (answer_defined _ h4 p trigger evt H4) as [[|] ->]; [|eauto].
  cbv zeta.
  destruct (answer_defined _ h3 (record (Called BeforeSet trigger) p) trigger
              None H3) as [sweep ->].
  assert (Htok : is_token (activeClass o) = true).
  { destruct Hs as (_ & Hs & _). now destruct (Hs _ _ _ Hts Ho). }
  rewrite Ho, Htok, Hp, Hg, H5.
  destruct sweep; [|eauto].
  destruct (unsetAll_returns
              (record (Called BeforeUnsetAll trigger)
                 (record (Called BeforeSet trigger) p)) trigger) as [q ->].
  - exact Hw.
  - exact Hs.
  - unfold has_toggle. simpl. now rewrite Hts.
  - eauto.
Qed.

Lemma toggle_returns (p : Page) (trigger : elem) (evt : option Event) :
  well_wired p -> dom_safe p -> has_toggle p trigger = true ->
  exists p', Toggle_toggle trigger evt p = Ok (tt, p').
Proof.
  intros Hw Hs Ht. unfold Toggle_toggle. step.
  assert (Ht' := Ht). unfold has_toggle in Ht'.
  destruct (toggle (els p trigger)) as [ts|] eqn:Hts; [|discriminate].
  destruct (wired_inv ts (Hw _ _ Hts)) as (o & _ & _ & _ & _ & _ & _ & _ & Ho & _).
  rewrite Ho.
  destruct (has_class p trigger (activeClass o)).
  - destruct (truthy (unsetSelf o) && _); [|eauto].
    now apply unset_returns.
  - now apply set_returns.
Qed.

Lemma toggleEventHandler_returns (p : Page) (this : elem) (evt : Event) :
  well_wired p -> dom_safe p -> has_toggle p this = true ->
  exists p', Toggle_toggleEventHandler this evt p = Ok (tt, p').
Proof.
  intros Hw Hs Ht. unfold Toggle_toggleEventHandler. unfold bind at 1, get.
  unfold bind at 1.
  set (c := String.eqb (nodeName (els p this)) "A" || includes "touch" (ev_type evt)).
  assert (Hq : exists q, when c (modify (record DefaultPrevented)) p = Ok (tt, q)
                         /\ well_wired q /\ dom_safe q
                         /\ has_toggle q this = true).
  { destruct c; simpl; unfold modify, ret; eauto. }
  destruct Hq as (q & -> & Hwq & Hsq & Htq).
  unfold bind.
  destruct (toggle_returns q this (Some evt) Hwq Hsq Htq) as [q' ->].
  destruct (includes "touch" (ev_type evt)); simpl; unfold modify, ret; eauto.
Qed.

(** X1: on a page where every [toggle] has its options, parent, target and
    five hooks, every active class is a token, and every selector of the
    options and of the [data-toggle-close] attributes parses, an operation
    that starts from an element with a [toggle] returns: no call of the
    state machine throws. *)
Theorem X1_run_never_throws (op : Op) (p : Page) :
  well_wired p ->
  dom_safe p ->
  admissible p op = true ->
  exists p', run op p = Ok (tt, p').
Proof.
  intros Hw Hs Ha.
  destruct op as [t evt ty|t|t evt|t|cb this evt|n]; simpl in Ha; simpl.
  - now apply set_returns.
  - now apply unset_returns.
  - now apply toggle_returns.
  - now apply unsetAll_returns.
  - destruct cb as [| | |serial t ty|serial t]; simpl.
    + now apply toggleEventHandler_returns.
    + unfold Toggle_closeElCallback, el_closest, el_matches, checked. step.
      destruct (toggleTrigger (els p this)) as [owner|]; [|discriminate].
      assert (Ha' := Ha). unfold has_toggle in Ha'.
      destruct (toggle (els p owner)) as [ts|] eqn:Hts; [|discriminate].
      destruct (wired_inv ts (Hw _ _ Hts))
        as (o & _ & _ & _ & _ & _ & _ & _ & Ho & _).
      rewrite Ho. destruct Hs as (Hnull & Hsel & Hattr).
      destruct (Hsel _ _ _ Hts Ho) as (_ & _ & _ & _ & ->).
      destruct (closest p (ev_target evt) (closeSelector o)) as [closeEl|];
        [|eauto]. cbv beta iota zeta.
      assert (Hu : exists p', Toggle_unset owner p = Ok (tt, p'))
        by (now apply unset_returns).
      destruct (getAttribute p closeEl "data-toggle-close") as [s|] eqn:Hs;
        cbv beta iota.
      * destruct (String.eqb s "") eqn:He; cbv beta iota.
        -- rewrite Hnull, orb_true_r. exact Hu.
        -- apply String.eqb_neq in He. rewrite (Hattr _ _ Hs He).
           destruct (matches p owner s || false); [exact Hu|eauto].
      * rewrite Hnull, orb_true_r. exact Hu.
    + unfold _toggleOnReturn. step.
      destruct (toggle (els p (activeElement p))) eqn:Hts; [|eauto].
      destruct (Z.eqb (ev_keyCode evt) 13 && _); [|eauto].
      apply toggleEventHandler_returns; [exact Hw|exact Hs|].
      unfold has_toggle. now rewrite Hts.
    + unfold blurCallback, removeEventListener. step.
      assert (Ha' := Ha). unfold has_toggle in Ha'.
      destruct (toggle (els p t)) as [ts|] eqn:Hts; [|discriminate].
      destruct (wired_inv ts (Hw _ _ Hts))
        as (o & par & tgt & _ & _ & _ & _ & _ & _ & Hp & Hg & _).
      rewrite Hg, Hp.
      destruct (contains p tgt (ev_target evt)); [eauto|].
      destruct (contains p par (ev_target evt)); [eauto|].
      destruct (Nat.eqb (ev_target evt) t); [eauto|].
      apply unset_returns.
      * apply (well_wired_steps p); [|exact Hw].
        apply steps_one_quiet, (quiet_listeners this (remove_listener _)).
      * rewrite (has_toggle_steps p); [exact Ha|].
        apply steps_one_quiet, (quiet_listeners this (remove_listener _)).
    + unfold mouseLeaveCallback, removeEventListener. step.
      apply unset_returns.
      * apply (well_wired_steps p); [|exact Hw].
        apply steps_one_quiet, (quiet_listeners this (remove_listener _)).
      * rewrite (has_toggle_steps p); [exact Ha|].
        apply steps_one_quiet, (quiet_listeners this (remove_listener _)).
  - unfold fire_timer. step.
    destruct (nth_error (timers p) n) as [tm|]; [|discriminate].
    destruct (t_task tm) as [t|t]; simpl in Ha; unfold run_task.
    + now apply set_returns.
    + now apply unset_returns.
Qed.

(** *** What [unset] and the sweep never do *)

Lemma Listener_eqb_eq (a b : Listener) : Listener_eqb a b = true -> a = b.
Proof.
  destruct a as [ta ca ka], b as [tb cb kb]. unfold Listener_eqb. simpl.
  intro H. apply andb_true_iff in H. destruct H as [H Hk].
  apply andb_true_iff in H. destruct H as [Ht Hc].
  apply String.eqb_eq in Ht. apply Bool.eqb_prop in Hk. subst.
  assert (ca = cb); [|now subst].
  destruct ca, cb; simpl in Hc; try discriminate; try reflexivity.
  - apply andb_true_iff in Hc. destruct Hc as [Hc Hs].
    apply andb_true_iff in Hc. destruct Hc as [Hi Hu].
    apply Nat.eqb_eq in Hi, Hu. apply String.eqb_eq in Hs. now subst.
  - apply andb_true_iff in Hc. destruct Hc as [Hi Hu].
    apply Nat.eqb_eq in Hi, Hu. now subst.
Qed.

Lemma Listener_eqb_refl (a : Listener) : Listener_eqb a a = true.
Proof.
  destruct a as [ta ca ka]. unfold Listener_eqb. simpl.
  rewrite String.eqb_refl, Bool.eqb_reflx, andb_true_r. simpl.
  destruct ca; simpl; rewrite ?Nat.eqb_refl, ?String.eqb_refl; reflexivity.
Qed.

Lemma In_remove_listener (l x : Listener) (ls : list Listener) :
  In x (remove_listener l ls) -> In x ls.
Proof. unfold remove_listener. intro H. now apply filter_In in H. Qed.

Lemma listeners_strip (c : string) (e : elem) (p : Page) (x : elem) :
  listeners (els (strip c e p) x) = listeners (els p x).
Proof. unfold strip, record, update. simpl. now destruct (Nat.eqb x e). Qed.

Lemma listeners_mark (c : string) (e : elem) (p : Page) (x : elem) :
  listeners (els (mark c e p) x) = listeners (els p x).
Proof. unfold mark, record, update. simpl. now destruct (Nat.eqb x e). Qed.

Lemma listeners_unset_page (c : string) (e par tgt : elem) (p : Page)
    (x : elem) :
  listeners (els (unset_page c e par tgt p) x)
  = if Nat.eqb x tgt then remove_listener closeEl_listener (listeners (els p x))
    else listeners (els p x).
Proof.
  unfold unset_page, strip, record, update. simpl.
  destruct (Nat.eqb x tgt), (Nat.eqb x par), (Nat.eqb x e); reflexivity.
Qed.

Lemma shrinks_refl (p : Page) : shrinks p p.
Proof. repeat split; auto. now intros x d. Qed.

Lemma shrinks_trans (p q r : Page) : shrinks p q -> shrinks q r -> shrinks p r.
Proof.
  intros (A1 & A2 & A3 & A4 & A5) (B1 & B2 & B3 & B4 & B5).
  repeat split; try congruence.
  - intros x d H. now apply A1, B1.
  - intros x l H. now apply A5, B5.
Qed.

Lemma unset_shrinks (e : elem) (p p' : Page) :
  Toggle_unset e p = Ok (tt, p') -> shrinks p p'.
Proof.
  intro H. assert (Hf := unset_fades e p p' H). apply unset_inv in H.
  destruct H as (ts & o & _ & _ &
    [[_ ->]|[(_ & _ & ->)|(_ & _ & par & tgt & _ & _ & ->)]]).
  - apply shrinks_refl.
  - repeat split; auto.
  - repeat split; auto.
    intros x l. rewrite listeners_unset_page.
    destruct (Nat.eqb x tgt); [apply In_remove_listener|auto].
Qed.

Lemma sweep_shrinks (skip sib : option string) (l : list elem) (p p' : Page) :
  forEach l (unsetAll_visit skip sib) p = Ok (tt, p') -> shrinks p p'.
Proof.
  apply (forEach_rel shrinks).
  - apply shrinks_refl.
  - apply shrinks_trans.
  - intros x q q' _ H. apply visit_inv in H. destruct H as [->|[H _]];
      [apply shrinks_refl|now apply (unset_shrinks x)].
Qed.

(** X2: when [unset] or [unsetAll] returns, no element has a class or a
    listener it had not before, and the pending timers and the listeners of
    the document are the same: they only take away. *)
Theorem X2_unset_only_takes_away (trigger : elem) (p p' : Page) :
  Toggle_unset trigger p = Ok (tt, p')
  \/ Toggle_unsetAll trigger p = Ok (tt, p') ->
  shrinks p p'.
Proof.
  intros [H|H]; [now apply (unset_shrinks trigger)|].
  apply unsetAll_inv in H. destruct H as (ts & o & _ & _ & _ & H).
  now apply sweep_shrinks in H.
Qed.

(** X3: whatever way the state machine is entered, when it returns every
    element has the [toggle], the [toggleTrigger], the attributes, the name
    and the ancestors it had, and the document, the body, its width and the
    focus are the same. *)
Theorem X3_run_keeps_bindings (op : Op) (p p' : Page) :
  run op p = Ok (tt, p') ->
  page_fixed p' = page_fixed p /\ forall x, fixed (els p' x) = fixed (els p x).
Proof. intro H. apply steps_fixed. now apply (run_steps op). Qed.

(** X4: after an [unset] that [beforeUnset] did not veto, a second [unset]
    returns the page as it is and calls no hook. *)
Theorem X4_unset_twice (trigger : elem) (p p' : Page) :
  Toggle_unset trigger p = Ok (tt, p') ->
  (forall ts, toggle (els p trigger) = Some ts ->
              answer (beforeUnset ts) p trigger None <> Some false) ->
  Toggle_unset trigger p' = Ok (tt, p').
Proof.
  intros H Hv. assert (Hs := unset_steps trigger p p' H).
  apply unset_inv in H. destruct H as (ts & o & Hts & Ho & H).
  rewrite unset_eq, (steps_toggle p p' trigger Hs), Hts, Ho.
  destruct H as [[Hc ->]|[(_ & Hno & _)|(_ & _ & par & tgt & _ & _ & ->)]].
  - now rewrite Hc.
  - now destruct (Hv ts Hts).
  - rewrite unset_page_has_class, String.eqb_refl, Nat.eqb_refl. reflexivity.
Qed.

(** *** What [set] leaves, and [toggle] *)

Lemma In_add_listener_old (l a : Listener) (ls : list Listener) :
  In a ls -> In a (add_listener l ls).
Proof.
  unfold add_listener. destruct (existsb (Listener_eqb l) ls); [auto|].
  intro H. apply in_or_app. now left.
Qed.

Lemma In_add_listener_new (l : Listener) (ls : list Listener) :
  In l (add_listener l ls).
Proof.
  unfold add_listener. destruct (existsb (Listener_eqb l) ls) eqn:H.
  - apply existsb_exists in H. destruct H as (x & Hx & He).
    apply Listener_eqb_eq in He. now subst.
  - apply in_or_app. right. now left.
Qed.

Lemma In_update_add (e x : elem) (l a : Listener) (q : Page) :
  In a (listeners (els q x)) ->
  In a (listeners
          (els (update e (fun y => with_listeners
                                     (add_listener l (listeners y)) y) q) x)).
Proof.
  unfold update. simpl. destruct (Nat.eqb x e); simpl; [|auto].
  apply In_add_listener_old.
Qed.

Lemma In_update_add_new (e : elem) (l : Listener) (q : Page) :
  In l (listeners
          (els (update e (fun y => with_listeners
                                     (add_listener l (listeners y)) y) q) e)).
Proof.
  unfold update. simpl. rewrite Nat.eqb_refl. simpl.
  apply In_add_listener_new.
Qed.


Lemma arm_documentListeners (trigger : elem) (o : Options) (par tgt : elem)
    (triggerEvt : string) (p : Page) :
  documentListeners (arm trigger o par tgt triggerEvt p) = documentListeners p.
Proof.
  unfold arm.
  destruct (negb (truthy (persist o))), (truthy (unsetOnHoverOut o)),
    (truthy (timeout o)); reflexivity.
Qed.

Lemma arm_In_old (trigger : elem) (o : Options) (par tgt : elem)
    (triggerEvt : string) (p : Page) (x : elem) (a : Listener) :
  In a (listeners (els p x)) ->
  In a (listeners (els (arm trigger o par tgt triggerEvt p) x)).
Proof.
  intro H. unfold arm.
  destruct (negb (truthy (persist o))), (truthy (unsetOnHoverOut o)),
    (truthy (timeout o)); cbv zeta;
    repeat (first [apply In_update_add
                  | progress cbn [els with_timers with_closures]]);
    exact H.
Qed.

Lemma arm_closeEl (trigger : elem) (o : Options) (par tgt : elem)
    (triggerEvt : string) (p : Page) :
  In closeEl_listener (listeners (els (arm trigger o par tgt triggerEvt p) tgt)).
Proof. unfold arm. cbv zeta. apply In_update_add_new. Qed.



(** The page [set] marks, seen from the page it was called on. *)
Lemma set_inv_true (trigger : elem) (evt : option Event)
    (evtType : option string) (p p' : Page) (ts : ToggleState) (o : Options)
    (par tgt : elem) :
  toggle (els p trigger) = Some ts ->
  options ts = Some o -> parentEl ts = Some par -> targetEl ts = Some tgt ->
  Toggle_set trigger evt evtType p = Ok (tt, p') ->
  answer (beforeSet ts) p trigger evt <> Some false ->
  exists q,
    p' = set_page trigger o par tgt
           match evtType with Some s => s | None => "" end q
    /\ is_token (activeClass o) = true
    /\ steps p q /\ shrinks p q.
Proof.
  intros Hts Ho Hp Hg H Hyes. apply set_inv in H.
  destruct H as (ts' & Hts' & [[Hno _]|(_ & sweep & q & o' & par' & tgt' & H)]).
  { assert (ts' = ts) by congruence. subst. contradiction. }
  assert (ts' = ts) by congruence. subst ts'. cbv zeta in H.
  destruct H as (_ & Hq & Ho' & Hp' & Hg' & Htok & ->).
  assert (o' = o) by congruence. assert (par' = par) by congruence.
  assert (tgt' = tgt) by congruence. subst.
  exists q. split; [reflexivity|]. split; [exact Htok|].
  set (p2 := record (Called BeforeUnsetAll trigger)
               (record (Called BeforeSet trigger) p)) in *.
  assert (H12 : steps p p2 /\ shrinks p p2).
  { split.
    - eapply steps_quiet; [apply (quiet_record (Called BeforeSet trigger))|].
      apply steps_one_quiet, quiet_record.
    - repeat split; auto. now intros x d. }
  destruct H12 as [Hs12 Hk12].
  destruct sweep.
  - split.
    + eapply steps_trans; [exact Hs12|]. now apply (unsetAll_steps trigger).
    + eapply shrinks_trans; [exact Hk12|].
      apply unsetAll_inv in Hq. destruct Hq as (t2 & o2 & _ & _ & _ & Hq).
      now apply sweep_shrinks in Hq.
  - subst q. now split.
Qed.

Lemma set_page_has_class (trigger : elem) (o : Options) (par tgt : elem)
    (triggerEvt : string) (q : Page) (x : elem) (d : string) :
  is_token (activeClass o) = true ->
  has_class (set_page trigger o par tgt triggerEvt q) x d
  = (String.eqb d (activeClass o)
     && (Nat.eqb x trigger || Nat.eqb x par || Nat.eqb x tgt))
    || has_class q x d.
Proof.
  intro Htok. unfold set_page.
  rewrite (quiet_has_class _ _ _ _ (quiet_record _ _)).
  rewrite (quiet_has_class _ _ _ _ (quiet_arm _ _ _ _ _ _)).
  fold (mark3 (activeClass o) trigger par tgt q).
  rewrite has_class_mark3, Htok. now rewrite andb_true_r.
Qed.

(** X5: when [set] returns and [beforeSet] did not answer false, the
    trigger, its parent and its target carry the marker and the target has
    the inner-click listener, whatever the page was before. *)
Theorem X5_set_marks (trigger : elem) (evt : option Event)
    (evtType : option string) (p p' : Page) (ts : ToggleState) (o : Options)
    (par tgt : elem) :
  toggle (els p trigger) = Some ts ->
  options ts = Some o -> parentEl ts = Some par -> targetEl ts = Some tgt ->
  Toggle_set trigger evt evtType p = Ok (tt, p') ->
  answer (beforeSet ts) p trigger evt <> Some false ->
  has_class p' trigger (activeClass o) = true
  /\ has_class p' par (activeClass o) = true
  /\ has_class p' tgt (activeClass o) = true
  /\ In closeEl_listener (listeners (els p' tgt)).
Proof.
  intros Hts Ho Hp Hg H Hyes.
  destruct (set_inv_true _ _ _ _ _ _ _ _ _ Hts Ho Hp Hg H Hyes)
    as (q & -> & Htok & _).
  rewrite !(set_page_has_class _ _ _ _ _ _ _ _ Htok), String.eqb_refl,
    !Nat.eqb_refl, !orb_true_r.
  repeat split. unfold set_page.
  change (In closeEl_listener
            (listeners
               (els (arm trigger o par tgt
                       match evtType with Some s => s | None => "" end
                       (mark3 (activeClass o) trigger par tgt q)) tgt))).
  apply arm_closeEl.
Qed.


Lemma toggle_eq (trigger : elem) (evt : option Event) (p : Page)
    (ts : ToggleState) (o : Options) :
  toggle (els p trigger) = Some ts ->
  options ts = Some o ->
  Toggle_toggle trigger evt p
  = if has_class p trigger (activeClass o) then
      if truthy (unsetSelf o)
         && negb (String.eqb match evt with Some e => ev_type e | None => "" end
                             "mouseenter")
      then Toggle_unset trigger p
      else Ok (tt, p)
    else Toggle_set trigger evt
           (Some match evt with Some e => ev_type e | None => "" end) p.
Proof.
  intros Hts Ho. unfold Toggle_toggle. step. rewrite Hts. step. rewrite Ho.
  destruct (has_class p trigger (activeClass o)); [|reflexivity].
  destruct (truthy (unsetSelf o) && _); reflexivity.
Qed.

(** X7: [toggle] flips the trigger: when it returns, no hook of the trigger
    answered false, [unsetSelf] is truthy and the event is not a
    [mouseenter], the trigger is active if and only if it was not. *)
Theorem X7_toggle_flips (trigger : elem) (evt : option Event) (p p' : Page)
    (ts : ToggleState) (o : Options) :
  toggle (els p trigger) = Some ts ->
  options ts = Some o ->
  Toggle_toggle trigger evt p = Ok (tt, p') ->
  answer (beforeSet ts) p trigger evt <> Some false ->
  answer (beforeUnset ts) p trigger None <> Some false ->
  truthy (unsetSelf o) = true ->
  match evt with Some e => ev_type e | None => "" end <> "mouseenter" ->
  has_class p' trigger (activeClass o)
  = negb (has_class p trigger (activeClass o)).
Proof.
  intros Hts Ho H Hbs Hbu Hself Hev.
  rewrite (toggle_eq trigger evt p ts o Hts Ho) in H.
  apply String.eqb_neq in Hev. rewrite Hself, Hev in H. simpl in H.
  destruct (has_class p trigger (activeClass o)) eqn:Hc.
  - simpl.
    apply unset_inv in H. destruct H as (ts' & o' & Hts' & Ho' & H).
    assert (ts' = ts) by congruence. subst ts'.
    assert (o' = o) by congruence. subst o'.
    destruct H as [[Hc' _]|[(_ & Hno & _)|(_ & _ & par & tgt & _ & _ & ->)]].
    + congruence.
    + contradiction.
    + now rewrite unset_page_has_class, String.eqb_refl, Nat.eqb_refl.
  - simpl.
    apply set_inv in H.
    destruct H as (ts' & Hts' & [[Hno _]|(_ & sw & q & o' & par & tgt & H)]).
    + assert (ts' = ts) by congruence. subst. contradiction.
    + assert (ts' = ts) by congruence. subst ts'. cbv zeta in H.
      destruct H as (_ & _ & Ho' & _ & _ & Htok & ->).
      assert (o' = o) by congruence. subst o'.
      now rewrite (set_page_has_class _ _ _ _ _ _ _ _ Htok), String.eqb_refl,
        Nat.eqb_refl.
Qed.

(** *** A trigger whose set-up stopped half way *)

(** X8: [unsetAll] tests [trigger.toggle] and nothing more.  An element
    whose [toggle] has options but no [beforeUnset], as the set-up leaves it
    when no target was found, that carries the active class and is reached
    by the sweep before any other element with a [toggle], makes
    [unsetAll] throw a [TypeError]. *)
Theorem X8_half_bound_element_breaks_sweep (refTrigger e : elem) (p : Page)
    (ts es : ToggleState) (o eo : Options) (before after : list elem) :
  toggle (els p refTrigger) = Some ts ->
  options ts = Some o ->
  valid_selector ("." ++ activeClass o) = true ->
  querySelectorAll p ("." ++ activeClass o) = before ++ e :: after ->
  (forall x, In x before -> toggle (els p x) = None) ->
  toggle (els p e) = Some es ->
  options es = Some eo ->
  beforeUnset es = None ->
  has_class p e (activeClass eo) = true ->
  valid_selector (selector (skipSelector o)) = true ->
  matches p e (selector (skipSelector o)) = false ->
  truthy (persist eo) = false
  \/ (valid_selector (selector (siblingSelector o)) = true
      /\ matches p e (selector (siblingSelector o)) = true) ->
  Toggle_unsetAll refTrigger p = Throw TypeError.
Proof.
  intros Hts Ho Hv Hsnap Hbefore Hes Heo Hhook Hc Hvs Hskip Hsib.
  apply (half_bound_throws refTrigger e p p ts es o eo before after);
    try assumption.
  clear Hsnap. induction before as [|x l IH]; [reflexivity|].
  simpl. unfold bind at 1.
  rewrite visit_eq, (Hbefore x) by (now left).
  apply IH. intros y Hy. apply Hbefore. now right.
Qed.

(** *** The constructor *)

Lemma setup_inv (this : Instance) (trigger : elem) (p p' : Page) :
  _setupTrigger this trigger p = Ok (tt, p') ->
  exists tgt q,
    bind_trigger this trigger p = Ok (tgt, q)
    /\ match tgt with
       | None => p' = record (Warned trigger) q
       | Some targetEl =>
           exists q2 q3 q4 q5,
             _setupCallbacks trigger
               (update targetEl (with_toggleTrigger (Some trigger)) q)
             = Ok (tt, q2)
             /\ _setupMethods trigger q2 = Ok (tt, q3)
             /\ _setupHandlers trigger q3 = Ok (tt, q4)
             /\ auto_activation this trigger q4 = Ok (tt, q5)
             /\ p' = update trigger (fun x =>
                       with_attributes
                         (filter (fun kv =>
                                    negb (String.eqb (attribute_name this) (fst kv)))
                            (attributes x)) x) q5
       end.
Proof.
  rewrite _setupTrigger_eq. intro H.
  apply bind_inv in H. destruct H as (tgt & q & Hb & H).
  exists tgt, q. split; [exact Hb|].
  destruct tgt as [targetEl|].
  - apply bind_inv in H. destruct H as ([] & q1 & H1 & H).
    unfold modify in H1. injection H1 as <-.
    apply bind_inv in H. destruct H as ([] & q2 & H2 & H).
    apply bind_inv in H. destruct H as ([] & q3 & H3 & H).
    apply bind_inv in H. destruct H as ([] & q4 & H4 & H).
    apply bind_inv in H. destruct H as ([] & q5 & H5 & H).
    unfold removeAttribute, modify in H. injection H as <-.
    exists q2, q3, q4, q5. repeat split; assumption.
  - unfold modify in H. now injection H as <-.
Qed.

Lemma _setupCallbacks_inv (trigger : elem) (p p' : Page) :
  _setupCallbacks trigger p = Ok (tt, p') ->
  exists ts o,
    toggle (els p trigger) = Some ts /\ options ts = Some o
    /\ p' = update trigger
              (with_toggle
                 (Some {| options := options ts; parentEl := parentEl ts;
                          targetEl := targetEl ts;
                          beforeUnset := hook_or_default (opt_beforeUnset o);
                          afterUnset := hook_or_default (opt_afterUnset o);
                          beforeUnsetAll := hook_or_default (opt_beforeUnsetAll o);
                          beforeSet := hook_or_default (opt_beforeSet o);
                          afterSet := hook_or_default (opt_afterSet o);
                          methods := methods ts |})) p.
Proof.
  unfold _setupCallbacks, assign. step. intro H.
  destruct (toggle (els p trigger)) as [ts|] eqn:Hts; [|discriminate].
  destruct (options ts) as [o|] eqn:Ho; [|discriminate].
  exists ts, o. split; [reflexivity|]. split; [exact Ho|].
  rewrite Hts in H. injection H as <-. reflexivity.
Qed.

Lemma _setupMethods_inv (trigger : elem) (p p' : Page) :
  _setupMethods trigger p = Ok (tt, p') ->
  exists ts,
    toggle (els p trigger) = Some ts
    /\ p' = update trigger
              (with_toggle
                 (Some {| options := options ts; parentEl := parentEl ts;
                          targetEl := targetEl ts;
                          beforeUnset := beforeUnset ts;
                          afterUnset := afterUnset ts;
                          beforeUnsetAll := beforeUnsetAll ts;
                          beforeSet := beforeSet ts; afterSet := afterSet ts;
                          methods := Some trigger |})) p.
Proof. unfold _setupMethods. apply assign_inv. Qed.

Lemma _setupHandlers_steps (trigger : elem) (p p' : Page) :
  _setupHandlers trigger p = Ok (tt, p') ->
  steps p p' /\ documentListeners p' = documentListeners p.
Proof.
  unfold _setupHandlers. step. intro H.
  destruct (toggle (els p trigger)) as [ts|]; [|discriminate].
  destruct (options ts) as [o|]; [|discriminate].
  revert H.
  apply (forEach_rel
           (fun a b => steps a b /\ documentListeners b = documentListeners a)).
  - intro a. split; [apply steps_done|reflexivity].
  - intros a b c [H1 H2] [H3 H4]. split; [now apply (steps_trans a b c)|congruence].
  - intros name a b _ Hadd. unfold addEventListener, modify in Hadd.
    injection Hadd as <-. split; [|reflexivity].
    apply steps_one_quiet. apply (quiet_listeners trigger (add_listener _)).
Qed.

Lemma set_documentListeners (trigger : elem) (evt : option Event)
    (evtType : option string) (p p' : Page) :
  Toggle_set trigger evt evtType p = Ok (tt, p') ->
  documentListeners p' = documentListeners p.
Proof.
  intro H. apply set_inv in H.
  destruct H as (ts & _ & [[_ ->]|(_ & sweep & q & o & par & tgt & H)]);
    [reflexivity|].
  cbv zeta in H. destruct H as (_ & Hq & _ & _ & _ & _ & ->).
  assert (Hd : documentListeners q = documentListeners p).
  { destruct sweep; [|now subst q].
    apply unsetAll_inv in Hq. destruct Hq as (t2 & o2 & _ & _ & _ & Hq).
    apply sweep_shrinks in Hq. destruct Hq as (_ & _ & _ & Hd & _). exact Hd. }
  rewrite <- Hd. unfold set_page.
  change (documentListeners
            (arm trigger o par tgt match evtType with Some s => s | None => "" end
               (mark3 (activeClass o) trigger par tgt q))
          = documentListeners q).
  now rewrite arm_documentListeners.
Qed.

(** What the [auto] statement can have done when it returns. *)
Lemma auto_activation_inv (this : Instance) (trigger : elem) (p p' : Page) :
  auto_activation this trigger p = Ok (tt, p') ->
  p' = p
  \/ (exists v, p' = with_timers
                       (timers p ++ [{| t_task := CallSet trigger; t_delay := v |}]) p)
  \/ Toggle_set trigger None None p = Ok (tt, p')
  \/ Toggle_unset trigger p = Ok (tt, p').
Proof.
  unfold auto_activation. step. intro H.
  destruct (toggle (els p trigger)) as [ts|]; [|discriminate].
  destruct (options ts) as [o|]; [|discriminate].
  destruct (truthy (auto o)); [|left; congruence].
  destruct (negb (isNaN (auto o))).
  { right; left. exists (auto o). unfold setTimeout, modify in H. congruence. }
  destruct (auto o) as [| | | |name|]; try (right; right; left; exact H).
  destruct (hasURLParameter name); [right; right; left; exact H|].
  destruct (r_breakpoints (defaults this)) as [table|]; [|left; congruence].
  destruct (lookup_breakpoint name table) as [bp|];
    [|right; right; right; exact H].
  destruct (bound_ok (bp_min bp) _ && bound_ok (bp_max bp) _);
    [right; right; left; exact H|right; right; right; exact H].
Qed.

Lemma auto_activation_steps (this : Instance) (trigger : elem) (p p' : Page) :
  auto_activation this trigger p = Ok (tt, p') ->
  steps p p' /\ documentListeners p' = documentListeners p.
Proof.
  intro H. apply auto_activation_inv in H.
  destruct H as [->|[[v ->]|[H|H]]].
  - split; [apply steps_done|reflexivity].
  - split; [apply steps_one_quiet, quiet_timers|reflexivity].
  - split; [now apply set_steps in H|now apply set_documentListeners in H].
  - split; [now apply (unset_steps trigger)|].
    apply unset_shrinks in H. now destruct H as (_ & _ & _ & Hd & _).
Qed.

Lemma setup_documentListeners (this : Instance) (trigger : elem) (p p' : Page) :
  _setupTrigger this trigger p = Ok (tt, p') ->
  documentListeners p' = documentListeners p.
Proof.
  intro H. apply setup_inv in H. destruct H as (tgt & q & Hb & H).
  apply bind_trigger_inv in Hb. cbv zeta in Hb.
  destruct Hb as (o & par & _ & _ & Hd & _).
  destruct tgt as [targetEl|]; [|subst p'; exact Hd].
  destruct H as (q2 & q3 & q4 & q5 & H2 & H3 & H4 & H5 & ->).
  apply _setupCallbacks_inv in H2. destruct H2 as (t2 & o2 & _ & _ & ->).
  apply _setupMethods_inv in H3. destruct H3 as (t3 & _ & ->).
  apply _setupHandlers_steps in H4. destruct H4 as [_ H4].
  apply auto_activation_steps in H5. destruct H5 as [_ H5].
  change (documentListeners q5 = documentListeners p).
  rewrite H5, H4. exact Hd.
Qed.

Lemma keydown_once (ls : list Listener) :
  List.length (filter (Listener_eqb keydown)
                 (add_listener keydown (remove_listener keydown ls))) = 1.
Proof.
  assert (Hno : filter (Listener_eqb keydown) (remove_listener keydown ls) = []).
  { unfold remove_listener. induction ls as [|l ls IH]; [reflexivity|]. simpl.
    destruct (Listener_eqb keydown l) eqn:Hl; simpl; [exact IH|].
    now rewrite Hl. }
  assert (Hex : existsb (Listener_eqb keydown) (remove_listener keydown ls)
                = false).
  { destruct (existsb _ _) eqn:He; [|reflexivity].
    apply existsb_exists in He. destruct He as (x & Hx & He).
    assert (Hin : In x (filter (Listener_eqb keydown)
                          (remove_listener keydown ls)))
      by (apply filter_In; now split).
    rewrite Hno in Hin. destruct Hin. }
  unfold add_listener. rewrite Hex, filter_app, Hno.
  cbn [filter app]. now rewrite Listener_eqb_refl.
Qed.

(** X9: when the constructor returns, the document has the [keydown]
    listener exactly once, however many instances were made before, and
    every other listener of the document is as it was. *)
Theorem X9_constructor_keydown_once (this : Instance) (p p' : Page) :
  constructor this p = Ok (tt, p') ->
  List.length (filter (Listener_eqb keydown) (documentListeners p')) = 1
  /\ forall l, l <> keydown ->
       (In l (documentListeners p') <-> In l (documentListeners p)).
Proof.
  unfold constructor. intro H.
  apply bind_inv in H. destruct H as ([] & q & Hq & H).
  unfold bind, modify in H. injection H as <-. simpl.
  assert (Hd : documentListeners q = documentListeners p).
  { revert Hq. unfold callbackOnElements.
    apply (forEach_rel (fun a b => documentListeners b = documentListeners a)).
    - reflexivity.
    - intros a b c H1 H2. congruence.
    - intros t a b _. apply setup_documentListeners. }
  rewrite Hd. split; [apply keydown_once|].
  intros l Hl. unfold add_listener.
  assert (Hrm : In l (remove_listener keydown (documentListeners p))
                <-> In l (documentListeners p)).
  { unfold remove_listener. rewrite filter_In. split; [tauto|].
    intro Hin. split; [exact Hin|].
    destruct (Listener_eqb keydown l) eqn:He; [|reflexivity].
    apply Listener_eqb_eq in He. now subst. }
  destruct (existsb _ _); [exact Hrm|].
  rewrite in_app_iff. simpl. rewrite Hrm. split; [|tauto].
  intros [H|[H|[]]]; [exact H|now subst].
Qed.

(** X10: a [data-toggle] payload that [JSON.parse] rejects makes
    [_setupTrigger] throw a [SyntaxError], and with it the constructor: the
    triggers that come after are not set up. *)
Theorem X10_malformed_payload_stops_constructor (this : Instance)
    (trigger : elem) (rest : list elem) (s : string) (p : Page) :
  getAttribute p trigger (attribute_name this) = Some s ->
  s <> "" ->
  JSON_parse s = None ->
  triggers this = trigger :: rest ->
  _setupTrigger this trigger p = Throw SyntaxError
  /\ constructor this p = Throw SyntaxError.
Proof.
  intros Ha Hs Hj Ht.
  assert (Hset : _setupTrigger this trigger p = Throw SyntaxError).
  { unfold _setupTrigger. unfold bind at 1, modify at 1. unfold bind at 1.
    assert (Hg : forall q,
      attributes (els q trigger) = attributes (els p trigger) ->
      _getOptions this trigger q = Throw SyntaxError).
    { intros q Hq. unfold _getOptions. step.
      unfold getAttribute in *. rewrite Hq.
      destruct (find _ (attributes (els p trigger))) as [kv|]; [|discriminate].
      injection Ha as ->. apply String.eqb_neq in Hs. now rewrite Hs, Hj. }
    rewrite Hg; [reflexivity|].
    unfold update. simpl. now rewrite Nat.eqb_refl. }
  split; [exact Hset|].
  unfold constructor, callbackOnElements. rewrite Ht. simpl.
  unfold bind. now rewrite Hset.
Qed.

(** *** What a completed set-up leaves *)

Lemma _getParent_found (trigger : elem) (r : option elem) (p q : Page) :
  _getParent trigger p = Ok (r, q) ->
  ancestors (els p trigger) <> [] -> r <> None.
Proof.
  rewrite _getParent_eq. intros H Ha.
  destruct (toggle (els p trigger)) as [ts|]; [|discriminate].
  destruct (options ts) as [o|]; [|discriminate]. cbv zeta in H.
  destruct (valid_selector (selector (parent o))); [|discriminate].
  injection H as <- _.
  destruct (closest p trigger (selector (parent o))); [discriminate|].
  destruct (hd_error (querySelectorAll p (selector (parent o))));
    [discriminate|].
  unfold parentNode. simpl.
  destruct (ancestors (els p trigger)); [contradiction|discriminate].
Qed.

(** The parent the binding stores is there when the trigger has a parent
    node. *)
Lemma bind_trigger_parent (this : Instance) (trigger : elem)
    (tgt : option elem) (p q : Page) :
  bind_trigger this trigger p = Ok (tgt, q) ->
  ancestors (els p trigger) <> [] ->
  exists ts par, toggle (els q trigger) = Some ts /\ parentEl ts = Some par.
Proof.
  intros H Ha. unfold bind_trigger in H.
  apply bind_inv in H. destruct H as ([] & q0 & H0 & H).
  unfold modify in H0. injection H0 as <-.
  apply bind_inv in H. destruct H as (o & q1 & H1 & H).
  apply _getOptions_pure in H1 as ->.
  apply bind_inv in H. destruct H as ([] & q2 & H2 & H).
  apply assign_inv in H2. destruct H2 as (t1 & Ht1 & ->).
  apply bind_inv in H. destruct H as (par & q3 & H3 & H).
  assert (Hpar : par <> None).
  { apply (_getParent_found _ _ _ _ H3). unfold update. simpl.
    now rewrite !Nat.eqb_refl. }
  apply _getParent_pure in H3 as ->.
  apply bind_inv in H. destruct H as ([] & q4 & H4 & H).
  apply assign_inv in H4. destruct H4 as (t2 & Ht2 & ->).
  apply bind_inv in H. destruct H as (tgt' & q5 & H5 & H).
  apply _getTarget_pure in H5 as ->.
  apply bind_inv in H. destruct H as ([] & q6 & H6 & H).
  apply assign_inv in H6. destruct H6 as (t3 & Ht3 & ->).
  unfold ret in H. injection H as -> <-.
  revert Ht3. unfold update. simpl. rewrite !Nat.eqb_refl. simpl.
  intro Ht3. injection Ht3 as <-.
  destruct par as [a|]; [|contradiction].
  eexists. exists a. split; reflexivity.
Qed.

(** X11: when [_setupTrigger] returns and [trigger.toggle] has a target,
    the five hook slots hold the option's function or the default, the
    methods are bound, the target points back to the trigger whatever it
    pointed to before, the data attribute is gone from the trigger, and no
    other element's [toggle] was written.  A trigger with a parent node is
    then fully wired, and so is the page if it was before. *)
Theorem X11_setup_completes (this : Instance) (trigger : elem) (p p' : Page) :
  _setupTrigger this trigger p = Ok (tt, p') ->
  exists ts o,
    toggle (els p' trigger) = Some ts
    /\ options ts = Some o
    /\ (forall x, x <> trigger -> toggle (els p' x) = toggle (els p x))
    /\ forall tgt,
         targetEl ts = Some tgt ->
         beforeUnset ts = hook_or_default (opt_beforeUnset o)
         /\ afterUnset ts = hook_or_default (opt_afterUnset o)
         /\ beforeUnsetAll ts = hook_or_default (opt_beforeUnsetAll o)
         /\ beforeSet ts = hook_or_default (opt_beforeSet o)
         /\ afterSet ts = hook_or_default (opt_afterSet o)
         /\ methods ts = Some trigger
         /\ toggleTrigger (els p' tgt) = Some trigger
         /\ getAttribute p' trigger (attribute_name this) = None
         /\ (ancestors (els p trigger) <> [] ->
             wired ts = true /\ (well_wired p -> well_wired p')).
Proof.
  intro H. apply setup_inv in H. destruct H as (tgt & q & Hb & H).
  assert (Hpar := bind_trigger_parent _ _ _ _ _ Hb).
  apply bind_trigger_inv in Hb. cbv zeta in Hb.
  destruct Hb as (o & par & Hels & _).
  assert (Hq : toggle (els q trigger)
               = Some {| options := Some o; parentEl := par; targetEl := tgt;
                         beforeUnset := beforeUnset match toggle (els p trigger) with Some ts => ts | None => empty_toggle end;
                         afterUnset := afterUnset match toggle (els p trigger) with Some ts => ts | None => empty_toggle end;
                         beforeUnsetAll := beforeUnsetAll match toggle (els p trigger) with Some ts => ts | None => empty_toggle end;
                         beforeSet := beforeSet match toggle (els p trigger) with Some ts => ts | None => empty_toggle end;
                         afterSet := afterSet match toggle (els p trigger) with Some ts => ts | None => empty_toggle end;
                         methods := methods match toggle (els p trigger) with Some ts => ts | None => empty_toggle end |}).
  { rewrite Hels, Nat.eqb_refl. reflexivity. }
  assert (Hother : forall x, x <> trigger -> toggle (els q x) = toggle (els p x)).
  { intros x Hx. rewrite Hels. apply Nat.eqb_neq in Hx. now rewrite Hx. }
  destruct tgt as [g|].
  2:{ subst p'. eexists. exists o. split; [exact Hq|].
      split; [reflexivity|]. split; [exact Hother|]. intros tgt Ht. discriminate. }
  destruct H as (q2 & q3 & q4 & q5 & H2 & H3 & H4 & H5 & ->).
  apply _setupCallbacks_inv in H2. destruct H2 as (t2 & o2 & Ht2 & Ho2 & ->).
  assert (Ht2' : toggle (els q trigger) = Some t2).
  { revert Ht2. unfold update. simpl. now destruct (Nat.eqb trigger g). }
  rewrite Hq in Ht2'. injection Ht2' as <-. simpl in Ho2. injection Ho2 as <-.
  simpl in H3.
  apply _setupMethods_inv in H3. destruct H3 as (t3 & Ht3 & ->).
  revert Ht3. unfold update at 1. simpl. rewrite Nat.eqb_refl. simpl.
  intro Ht3. injection Ht3 as <-. simpl in H4.
  apply _setupHandlers_steps in H4. destruct H4 as [H4 _].
  apply auto_activation_steps in H5. destruct H5 as [H5 _].
  assert (Hs := steps_trans _ _ _ H4 H5). clear H4 H5.
  apply steps_fixed in Hs. destruct Hs as [_ Hs].
  assert (Htog : forall x, toggle (els q5 x) = toggle (els _ x))
    by (intro x; apply toggle_fixed, Hs).
  assert (Hback : toggleTrigger (els q5 g) = Some trigger).
  { specialize (Hs g). unfold fixed in Hs. injection Hs as _ _ _ _ Hb.
    rewrite Hb. unfold update. simpl. rewrite Nat.eqb_refl.
    destruct (Nat.eqb g trigger); reflexivity. }
  eexists. exists o. split.
  { rewrite Htog. unfold update. simpl. rewrite Nat.eqb_refl. reflexivity. }
  split; [reflexivity|]. split.
  { intros x Hx.
    apply Nat.eqb_neq in Hx. rewrite Hx, Htog. unfold update. simpl.
    rewrite Hx. destruct (Nat.eqb x g); simpl; now rewrite Hels, Hx. }
  intros tgt Htgt. simpl in Htgt. injection Htgt as <-. simpl.
  repeat split.
  - destruct (Nat.eqb g trigger); exact Hback.
  - unfold getAttribute, update. simpl. rewrite Nat.eqb_refl. simpl.
    destruct (find _ (filter _ _)) as [kv|] eqn:Hf; [|reflexivity].
    apply find_some in Hf. destruct Hf as [Hin He].
    apply filter_In in Hin. destruct Hin as [_ Hne]. now rewrite He in Hne.
  - destruct (Hpar H) as (ts & a & Hts & Ha).
    rewrite Hq in Hts. injection Hts as <-. simpl in Ha. subst par.
    unfold wired. simpl.
    now destruct (opt_beforeUnset o), (opt_afterUnset o),
      (opt_beforeUnsetAll o), (opt_beforeSet o), (opt_afterSet o).
  - intros Hw e ts. unfold update at 1. simpl.
    destruct (Nat.eqb e trigger) eqn:He.
    + apply Nat.eqb_eq in He. subst e. simpl. rewrite Htog.
      unfold update. simpl. rewrite Nat.eqb_refl. simpl.
      intro Hts. injection Hts as <-.
      destruct (Hpar H) as (ts & a & Hts & Ha).
      rewrite Hq in Hts. injection Hts as <-. simpl in Ha. subst par.
      unfold wired. simpl.
      now destruct (opt_beforeUnset o), (opt_afterUnset o),
        (opt_beforeUnsetAll o), (opt_beforeSet o), (opt_afterSet o).
    + rewrite Htog. unfold update. simpl. rewrite He.
      destruct (Nat.eqb e g); simpl; rewrite Hels, He; apply Hw.
Qed.

(** *** The handlers of a trigger *)

Lemma add_handlers (names : list string) (trigger : elem) (p : Page) :
  exists q,
    forEach names
      (fun currentEvt =>
         addEventListener trigger currentEvt ToggleEventHandler false) p
    = Ok (tt, q)
    /\ (forall x, toggle (els q x) = toggle (els p x))
    /\ forall x,
         listeners (els q x)
         = if Nat.eqb x trigger
           then fold_left (fun ls n => add_listener (handler n) ls) names
                  (listeners (els p x))
           else listeners (els p x).
Proof.
  revert p. induction names as [|n names IH]; intro p.
  - exists p. split; [reflexivity|]. split; [reflexivity|].
    intro x. now destruct (Nat.eqb x trigger).
  - simpl. unfold bind at 1, addEventListener at 1, modify at 1.
    destruct (IH (update trigger
                    (fun x => with_listeners
                                (add_listener (handler n) (listeners x)) x) p))
      as (q & Hq & Ht & Hl).
    exists q. split; [exact Hq|]. split.
    + intro x. rewrite Ht. unfold update. simpl.
      now destruct (Nat.eqb x trigger).
    + intro x. rewrite Hl. unfold update. simpl.
      now destruct (Nat.eqb x trigger).
Qed.

Lemma fold_add_old (names : list string) (ls : list Listener) (a : Listener) :
  In a ls ->
  In a (fold_left (fun ls n => add_listener (handler n) ls) names ls).
Proof.
  revert ls. induction names as [|n names IH]; intros ls H; [exact H|].
  simpl. apply IH. now apply In_add_listener_old.
Qed.

Lemma fold_add_new (names : list string) (ls : list Listener) (n : string) :
  In n names ->
  In (handler n) (fold_left (fun ls n => add_listener (handler n) ls) names ls).
Proof.
  revert ls. induction names as [|m names IH]; intros ls H; [destruct H|].
  simpl. destruct H as [->|H].
  - apply fold_add_old, In_add_listener_new.
  - now apply IH.
Qed.

Lemma add_listener_present (l : Listener) (ls : list Listener) :
  In l ls -> add_listener l ls = ls.
Proof.
  intro H. unfold add_listener.
  assert (He : existsb (Listener_eqb l) ls = true).
  { apply existsb_exists. exists l. split; [exact H|apply Listener_eqb_refl]. }
  now rewrite He.
Qed.

Lemma fold_add_again (names : list string) (ls : list Listener) :
  (forall n, In n names -> In (handler n) ls) ->
  fold_left (fun ls n => add_listener (handler n) ls) names ls = ls.
Proof.
  induction names as [|m names IH]; intro H; [reflexivity|].
  simpl. rewrite add_listener_present by (apply H; now left).
  apply IH. intros n Hn. apply H. now right.
Qed.

(** X12: [_setupHandlers] registers [toggleEventHandler] on the trigger for
    every name of the [event] option, keeps the listeners that were there,
    and a second run on the page it leaves changes no listener. *)
Theorem X12_handlers_registered_once (trigger : elem) (p p' : Page)
    (ts : ToggleState) (o : Options) :
  toggle (els p trigger) = Some ts ->
  options ts = Some o ->
  _setupHandlers trigger p = Ok (tt, p') ->
  (forall name,
     In name (split_space (string_or (event o) "click")) ->
     In (handler name) (listeners (els p' trigger)))
  /\ (forall x l, In l (listeners (els p x)) -> In l (listeners (els p' x)))
  /\ exists p'',
       _setupHandlers trigger p' = Ok (tt, p'')
       /\ forall x, listeners (els p'' x) = listeners (els p' x).
Proof.
  intros Hts Ho H. unfold _setupHandlers in H. revert H. step.
  rewrite Hts. step. rewrite Ho. cbv zeta.
  destruct (add_handlers (split_space (string_or (event o) "click")) trigger p)
    as (q & Hq & Ht & Hl).
  rewrite Hq. intro H. injection H as <-.
  assert (Hin : forall name,
            In name (split_space (string_or (event o) "click")) ->
            In (handler name) (listeners (els q trigger))).
  { intros name Hn. rewrite Hl, Nat.eqb_refl. now apply fold_add_new. }
  split; [exact Hin|]. split.
  - intros x l Hx. rewrite Hl. destruct (Nat.eqb x trigger); [|exact Hx].
    now apply fold_add_old.
  - destruct (add_handlers (split_space (string_or (event o) "click")) trigger q)
      as (r & Hr & _ & Hlr).
    exists r. split.
    + unfold _setupHandlers. step. rewrite Ht, Hts. step. rewrite Ho.
      exact Hr.
    + intro x. rewrite Hlr. destruct (Nat.eqb x trigger) eqn:Hx; [|reflexivity].
      apply Nat.eqb_eq in Hx. subst x. now apply fold_add_again.
Qed.

(** *** The closures of [set], the inner click and the Enter key *)

Lemma unset_clears (e : elem) (p p' : Page) (ts : ToggleState) (o : Options) :
  toggle (els p e) = Some ts ->
  options ts = Some o ->
  Toggle_unset e p = Ok (tt, p') ->
  answer (beforeUnset ts) p e None <> Some false ->
  has_class p' e (activeClass o) = false.
Proof.
  intros Hts Ho H Hyes. apply unset_inv in H.
  destruct H as (ts' & o' & Hts' & Ho' & H).
  assert (ts' = ts) by congruence. subst ts'.
  assert (o' = o) by congruence. subst o'.
  destruct H as [[Hc ->]|[(_ & Hno & _)|(_ & _ & par & tgt & _ & _ & ->)]].
  - exact Hc.
  - contradiction.
  - rewrite unset_page_has_class, String.eqb_refl, Nat.eqb_refl. reflexivity.
Qed.

Lemma remove_shrinks (this : elem) (l : Listener) (p : Page) :
  shrinks p
    (update this (fun x => with_listeners (remove_listener l (listeners x)) x) p).
Proof.
  repeat split; try reflexivity.
  - intros x d. unfold has_class, update. simpl.
    now destruct (Nat.eqb x this).
  - intros x a. unfold update. simpl. destruct (Nat.eqb x this); [|auto].
    simpl. apply In_remove_listener.
Qed.

Lemma not_In_remove_listener (l : Listener) (ls : list Listener) :
  ~ In l (remove_listener l ls).
Proof.
  unfold remove_listener. intro H. apply filter_In in H.
  destruct H as [_ H]. now rewrite Listener_eqb_refl in H.
Qed.

(** A closure of [set] that takes itself off [this] and unsets the
    trigger. *)
Lemma remove_then_unset (this : elem) (l : Listener) (trigger : elem)
    (p p' : Page) (ts : ToggleState) (o : Options) :
  toggle (els p trigger) = Some ts ->
  options ts = Some o ->
  Toggle_unset trigger
    (update this (fun x => with_listeners (remove_listener l (listeners x)) x) p)
  = Ok (tt, p') ->
  ~ In l (listeners (els p' this))
  /\ shrinks p p'
  /\ ((forall q, answer (beforeUnset ts) q trigger None <> Some false) ->
      has_class p' trigger (activeClass o) = false).
Proof.
  intros Hts Ho H.
  set (p1 := update this _ p) in *.
  assert (Hk := unset_shrinks _ _ _ H).
  split; [|split].
  - intro Hin. destruct Hk as (_ & _ & _ & _ & Hl). apply Hl in Hin.
    revert Hin. subst p1. unfold update. simpl. rewrite Nat.eqb_refl. simpl.
    apply not_In_remove_listener.
  - eapply shrinks_trans; [apply (remove_shrinks this l)|exact Hk].
  - intro Hyes. apply (unset_clears trigger p1 p' ts o); [| exact Ho | exact H | apply Hyes].
    subst p1. unfold update. simpl. destruct (Nat.eqb trigger this); exact Hts.
Qed.

(** X13: the click listener that [set] puts on the body.  A click in the
    target, in the parent or on the trigger leaves the page as it is, the
    listener included; any other click takes the listener off the element
    it is on, before [unset] and whatever [unset] does, adds nothing to the
    page, and leaves the trigger without its marker unless [beforeUnset]
    answers false. *)
Theorem X13_blur_one_shot (serial : nat) (trigger : elem) (ty : string)
    (this : elem) (evt : Event) (p p' : Page) (ts : ToggleState)
    (o : Options) (par tgt : elem) :
  toggle (els p trigger) = Some ts ->
  options ts = Some o ->
  parentEl ts = Some par ->
  targetEl ts = Some tgt ->
  blurCallback serial trigger ty this evt p = Ok (tt, p') ->
  let inside := contains p tgt (ev_target evt)
                || contains p par (ev_target evt)
                || Nat.eqb (ev_target evt) trigger in
  (inside = true -> p' = p)
  /\ (inside = false ->
      ~ In {| l_type := ty; l_callback := BlurCallback serial trigger ty;
              l_capture := true |} (listeners (els p' this))
      /\ shrinks p p'
      /\ ((forall q, answer (beforeUnset ts) q trigger None <> Some false) ->
          has_class p' trigger (activeClass o) = false)).
Proof.
  intros Hts Ho Hp Hg H inside. subst inside.
  unfold blurCallback in H. revert H. step. rewrite Hts. step.
  rewrite Hg. step.
  destruct (contains p tgt (ev_target evt)).
  { intro H. unfold ret in H. injection H as <-. split; [reflexivity|discriminate]. }
  rewrite Hp. step.
  destruct (contains p par (ev_target evt)).
  { intro H. unfold ret in H. injection H as <-. split; [reflexivity|discriminate]. }
  destruct (Nat.eqb (ev_target evt) trigger).
  { intro H. unfold ret in H. injection H as <-. split; [reflexivity|discriminate]. }
  unfold removeEventListener. step. intro H.
  split; [discriminate|]. intros _.
  now apply (remove_then_unset this _ trigger p p' ts o).
Qed.

(** X14: the [mouseleave] listener that [set] puts on the parent takes
    itself off the element it is on and unsets the trigger: afterwards the
    listener is not there, nothing was added to the page, and the trigger is
    without its marker unless [beforeUnset] answers false. *)
Theorem X14_mouseleave_one_shot (serial : nat) (trigger this : elem)
    (p p' : Page) (ts : ToggleState) (o : Options) :
  toggle (els p trigger) = Some ts ->
  options ts = Some o ->
  mouseLeaveCallback serial trigger this p = Ok (tt, p') ->
  ~ In {| l_type := "mouseleave"; l_callback := MouseLeaveCallback serial trigger;
          l_capture := false |} (listeners (els p' this))
  /\ shrinks p p'
  /\ ((forall q, answer (beforeUnset ts) q trigger None <> Some false) ->
      has_class p' trigger (activeClass o) = false).
Proof.
  intros Hts Ho H. unfold mouseLeaveCallback, removeEventListener in H.
  revert H. step. intro H.
  now apply (remove_then_unset this _ trigger p p' ts o).
Qed.

(** X15: the click listener on the target.  A click that is not on or
    below an element matching [closeSelector] changes nothing; so does one on
    a close element whose [data-toggle-close] names a selector that the
    trigger in [toggleTrigger] does not match; in every other case, a close
    element with no or an empty [data-toggle-close] included, the call is
    [unset] of that trigger.  It adds nothing to the page. *)
Theorem X15_inner_click (this : elem) (evt : Event) (p p' : Page)
    (owner : elem) (ts : ToggleState) (o : Options) :
  toggleTrigger (els p this) = Some owner ->
  toggle (els p owner) = Some ts ->
  options ts = Some o ->
  Toggle_closeElCallback this evt p = Ok (tt, p') ->
  shrinks p p'
  /\ match closest p (ev_target evt) (closeSelector o) with
     | None => p' = p
     | Some closeEl =>
         match getAttribute p closeEl "data-toggle-close" with
         | Some s =>
             if String.eqb s "" || matches p owner s
             then Toggle_unset owner p = Ok (tt, p')
             else p' = p
         | None => Toggle_unset owner p = Ok (tt, p')
         end
     end.
Proof.
  intros Hown Hts Ho H. apply closeElCallback_inv in H.
  destruct H as (owner' & ts' & o' & Hown' & Hts' & Ho' & _ & H).
  assert (owner' = owner) by congruence. subst owner'.
  assert (ts' = ts) by congruence. subst ts'.
  assert (o' = o) by congruence. subst o'.
  destruct (closest p (ev_target evt) (closeSelector o)) as [c|];
    [|subst p'; split; [apply shrinks_refl|reflexivity]].
  destruct (getAttribute p c "data-toggle-close") as [s|].
  - destruct (String.eqb s ""); simpl.
    + destruct H as [_ H]. split; [now apply unset_shrinks in H|exact H].
    + destruct H as [_ H]. destruct (matches p owner s).
      * split; [now apply unset_shrinks in H|exact H].
      * subst p'. split; [apply shrinks_refl|reflexivity].
  - destruct H as [_ H]. split; [now apply unset_shrinks in H|exact H].
Qed.

Lemma toggleEventHandler_inv (this : elem) (evt : Event) (p p' : Page) :
  Toggle_toggleEventHandler this evt p = Ok (tt, p') ->
  exists q q',
    quiet p q /\ Toggle_toggle this (Some evt) q = Ok (tt, q') /\ quiet q' p'.
Proof.
  unfold Toggle_toggleEventHandler. cbv zeta. unfold bind at 1, get.
  intro H. apply bind_inv in H. destruct H as ([] & q & Hq & H).
  apply bind_inv in H. destruct H as ([] & q' & Hq' & H).
  exists q, q'. split; [|split; [exact Hq'|]].
  - apply when_inv in Hq. destruct Hq as [[_ ->]|[_ Hq]]; [apply quiet_refl|].
    unfold modify in Hq. injection Hq as <-. apply quiet_record.
  - apply when_inv in H. destruct H as [[_ ->]|[_ H]]; [apply quiet_refl|].
    unfold modify in H. injection H as <-. apply quiet_record.
Qed.

(** X16: the [keydown] listener of the document.  With Enter pressed while
    the focus is on an inactive trigger that is neither the body nor a
    [BUTTON], and a [beforeSet] that does not answer false, the trigger, its
    parent and its target carry the marker when the listener returns. *)
Theorem X16_enter_activates (evt : Event) (p p' : Page) (ts : ToggleState)
    (o : Options) (par tgt : elem) :
  toggle (els p (activeElement p)) = Some ts ->
  options ts = Some o ->
  parentEl ts = Some par ->
  targetEl ts = Some tgt ->
  ev_keyCode evt = 13%Z ->
  activeElement p <> body p ->
  nodeName (els p (activeElement p)) <> "BUTTON" ->
  has_class p (activeElement p) (activeClass o) = false ->
  (forall q, answer (beforeSet ts) q (activeElement p) (Some evt) <> Some false) ->
  _toggleOnReturn evt p = Ok (tt, p') ->
  has_class p' (activeElement p) (activeClass o) = true
  /\ has_class p' par (activeClass o) = true
  /\ has_class p' tgt (activeClass o) = true.
Proof.
  intros Hts Ho Hp Hg Hkey Hbody Hbutton Hc Hyes H.
  set (t := activeElement p) in *.
  unfold _toggleOnReturn in H. revert H. step. cbv zeta. fold t.
  rewrite Hts, Hkey. apply Nat.eqb_neq in Hbody. apply String.eqb_neq in Hbutton.
  rewrite Hbody, Hbutton. simpl. intro H.
  apply toggleEventHandler_inv in H. destruct H as (q & q' & Hq & H & Hq').
  assert (Htq : toggle (els q t) = Some ts)
    by (rewrite (quiet_toggle _ _ _ Hq); exact Hts).
  rewrite (toggle_eq t (Some evt) q ts o Htq Ho) in H.
  rewrite (quiet_has_class _ _ _ _ Hq), Hc in H.
  apply (set_inv_true t (Some evt) _ q q' ts o par tgt Htq Ho Hp Hg) in H;
    [|apply Hyes].
  destruct H as (r & -> & Htok & _).
  rewrite !(quiet_has_class _ _ _ _ Hq'),
    !(set_page_has_class _ _ _ _ _ _ _ _ Htok).
  rewrite String.eqb_refl, !Nat.eqb_refl. simpl.
  rewrite !orb_true_r. simpl. repeat split; reflexivity.
Qed.

(** X17: [_getParent] reads the page without writing it.  What it returns
    is the trigger itself, one of its ancestors or an element of the
    document, and it returns an element whenever the trigger has a parent
    node. *)
Theorem X17_parent_found (trigger : elem) (p p' : Page) (r : option elem) :
  _getParent trigger p = Ok (r, p') ->
  p' = p
  /\ (ancestors (els p trigger) <> [] -> r <> None)
  /\ forall a, r = Some a ->
       a = trigger \/ In a (ancestors (els p trigger)) \/ In a (doc p).
Proof.
  intro H. split; [now apply _getParent_pure in H|].
  split; [now apply (_getParent_found _ _ _ _ H)|].
  revert H. rewrite _getParent_eq.
  destruct (toggle (els p trigger)) as [ts|]; [|discriminate].
  destruct (options ts) as [o|]; [|discriminate]. cbv zeta.
  destruct (valid_selector (selector (parent o))); [|discriminate].
  intro H. injection H as <- _. intros a Ha.
  destruct (closest p trigger (selector (parent o))) as [c|] eqn:Hc.
  { simpl in Ha. injection Ha as ->. unfold closest in Hc.
    apply find_some in Hc. destruct Hc as [[Hc|Hc] _]; [left; now subst|right; now left]. }
  simpl in Ha.
  destruct (hd_error (querySelectorAll p (selector (parent o)))) as [d|] eqn:Hd.
  { simpl in Ha. injection Ha as ->. right; right.
    unfold querySelectorAll in Hd.
    destruct (filter _ (doc p)) as [|y l] eqn:Hf; [discriminate|].
    injection Hd as ->.
    assert (Hin : In a (filter (fun e => matches p e (selector (parent o))) (doc p)))
      by (rewrite Hf; now left).
    now apply filter_In in Hin. }
  simpl in Ha. unfold parentNode in Ha. right; left.
  destruct (ancestors (els p trigger)); [discriminate|].
  injection Ha as ->. now left.
Qed.

Lemma string_or_nonempty (s : option string) (d : string) :
  d <> "" -> string_or s d <> "".
Proof.
  intro Hd. unfold string_or. destruct s as [x|]; [|exact Hd].
  destruct (String.eqb x "") eqn:Hx; [exact Hd|]. now apply String.eqb_neq.
Qed.

(** X18: [_getOptions] reads the page without writing it, and the options
    it returns never have an empty [activeClass] or [closeSelector].  For a
    trigger with no data attribute, or an empty one, a non-empty
    [activeClass] of the constructor's options is the one returned.  For a
    trigger whose data attribute parses to an object, a non-empty
    [activeClass] of that object, or of the constructor's options when the
    object has none, is the one returned; an empty [activeClass] of the
    object hides the constructor's and the default is returned. *)
Theorem X18_options_filled (this : Instance) (trigger : elem) (p p' : Page)
    (o : Options) :
  _getOptions this trigger p = Ok (o, p') ->
  p' = p
  /\ activeClass o <> ""
  /\ closeSelector o <> ""
  /\ (forall c,
        getAttribute p trigger (attribute_name this) = None
        \/ getAttribute p trigger (attribute_name this) = Some "" ->
        r_activeClass (defaults this) = Some c ->
        c <> "" ->
        activeClass o = c)
  /\ (forall s r,
        getAttribute p trigger (attribute_name this) = Some s ->
        s <> "" ->
        JSON_parse s = Some (ParsedObject r) ->
        (forall c,
           or_else (r_activeClass r) (r_activeClass (defaults this)) = Some c ->
           c <> "" ->
           activeClass o = c)
        /\ (r_activeClass r = Some "" -> activeClass o = "toggle--active")).
Proof.
  intro H. split; [now apply _getOptions_pure in H|].
  assert (Ho : exists r,
            o = fill_in (merge r (defaults this))
            /\ (getAttribute p trigger (attribute_name this) = None
                \/ getAttribute p trigger (attribute_name this) = Some "" ->
                r = no_options)
            /\ forall s r',
                 getAttribute p trigger (attribute_name this) = Some s ->
                 s <> "" -> JSON_parse s = Some (ParsedObject r') -> r = r').
  { revert H. unfold _getOptions. step.
    destruct (getAttribute p trigger (attribute_name this)) as [s0|].
    - destruct (String.eqb s0 "") eqn:Hs.
      + intro H. injection H as <- _. exists no_options.
        split; [reflexivity|]. split; [reflexivity|].
        intros s r' Hs' Hne. injection Hs' as <-. apply String.eqb_eq in Hs.
        contradiction.
      + destruct (JSON_parse s0) as [[r0|]|] eqn:Hj; [|discriminate..].
        intro H. injection H as <- _. exists r0. split; [reflexivity|].
        split.
        * intros [Hn|Hn]; [discriminate|]. injection Hn as ->. discriminate.
        * intros s r' Hs' _ Hj'. injection Hs' as <-. congruence.
    - intro H. injection H as <- _. exists no_options.
      split; [reflexivity|]. split; [reflexivity|].
      intros s r' Hs'. discriminate. }
  destruct Ho as (r & -> & Hnone & Hr). simpl.
  split; [apply string_or_nonempty; discriminate|].
  split; [apply string_or_nonempty; discriminate|].
  split.
  - intros c Hno Hc Hcne. rewrite (Hnone Hno). simpl. rewrite Hc.
    unfold string_or. apply String.eqb_neq in Hcne. now rewrite Hcne.
  - intros s r' Hs Hne Hj. rewrite (Hr s r' Hs Hne Hj). split.
    + intros c Hc Hcne. rewrite Hc. unfold string_or.
      apply String.eqb_neq in Hcne. now rewrite Hcne.
    + intros ->. reflexivity.
Qed.

End Properties.

(** ** The class run on the sample pages *)

(** C1 as stated fails, twice.  Two persistent triggers, [2] and [4], have
    the same parent [1]: both are set, then [2] is unset, and [4] and its
    target [5] carry the marker, their parent does not.  And on
    [menu_partial], where the markup has the class on trigger [2] only and
    [2] shares no element with another trigger, the marker is partial when
    the set-up is over and still is after a [toggle] on a [mouseenter] and
    after an [unset] of the other trigger, which both return. *)
Lemma C1_counterexample :
  (consistent nav_persistent 4 = true
   /\ match (sample_run (OpSet 2 None None) ;;;
             sample_run (OpSet 4 None None) ;;;
             sample_run (OpUnset 2)) nav_persistent with
      | Ok (_, p) =>
          consistent p 4 = false
          /\ has_class p 4 "toggle--active" = true
          /\ has_class p 1 "toggle--active" = false
          /\ has_class p 5 "toggle--active" = true
      | Throw _ => False
      end)
  /\ (wired (toggle_at menu_partial 2) = true
      /\ consistent menu_partial 2 = false
      /\ match (sample_run (OpToggle 2 (Some (mouseenter 2))) ;;;
                sample_run (OpUnset 5)) menu_partial with
         | Ok (_, p) =>
             consistent p 2 = false
             /\ has_class p 2 "toggle--active" = true
             /\ has_class p 1 "toggle--active" = false
             /\ has_class p 3 "toggle--active" = false
         | Throw _ => False
         end).
Proof. vm_compute. repeat split. Qed.

(** C2 as stated fails: [2] and [4] are in the sibling group [.tab] and the
    [beforeUnsetAll] of [4] answers false.  After [set] of [2] then of [4]
    both are active. *)
Lemma C2_counterexample :
  match (sample_run (OpSet 2 None None) ;;;
         sample_run (OpSet 4 None None)) (nav_tabs (Some 0)) with
  | Ok (_, p) =>
      has_class p 2 "toggle--active" = true
      /\ has_class p 4 "toggle--active" = true
      /\ siblingSelector (options_at p 2) = Some ".tab"
      /\ siblingSelector (options_at p 4) = Some ".tab"
      /\ simple_matches p 2 ".tab" = true
      /\ simple_matches p 4 ".tab" = true
  | Throw _ => False
  end.
Proof. vm_compute. repeat split. Qed.



(** C7, the code at the failing input: trigger [2] is set and unset twice.
    It is inactive, and the body still has the two outside-click listeners,
    the parent the two hover-out listeners, and both timers are pending;
    only the inner-click listener of the target is gone. *)
Lemma C7_handles_left_behind :
  match (new_Toggle timed ;;;
         sample_run (OpSet 2 None None) ;;; sample_run (OpUnset 2) ;;;
         sample_run (OpSet 2 None None) ;;; sample_run (OpUnset 2)) nav_page with
  | Ok (_, p) =>
      has_class p 2 "toggle--active" = false
      /\ listeners (els p 0)
         = [{| l_type := "click"; l_callback := BlurCallback 0 2 "click";
               l_capture := true |};
            {| l_type := "click"; l_callback := BlurCallback 2 2 "click";
               l_capture := true |}]
      /\ listeners (els p 1)
         = [{| l_type := "mouseleave"; l_callback := MouseLeaveCallback 1 2;
               l_capture := false |};
            {| l_type := "mouseleave"; l_callback := MouseLeaveCallback 3 2;
               l_capture := false |}]
      /\ timers p
         = [{| t_task := CallUnset 2; t_delay := JNum 5000 |};
            {| t_task := CallUnset 2; t_delay := JNum 5000 |}]
      /\ listeners (els p 3) = []
  | Throw _ => False
  end.
Proof. vm_compute. repeat split. Qed.

(** C8, the code at the failing input: with [auto: true] the constructor
    returns with the trigger inactive, no hook called, and a timer pending
    that will call [set], its delay the value [true]. *)
Lemma C8_auto_true_is_timed :
  isNaN (JBool true) = false
  /\ match new_Toggle automatic nav_page with
     | Ok (_, p) =>
         has_class p 2 "toggle--active" = false
         /\ timers p = [{| t_task := CallSet 2; t_delay := JBool true |}]
         /\ trace p = []
     | Throw _ => False
     end.
Proof. vm_compute. repeat split. Qed.

(** ** The theorems at work on the sample pages *)

(** The sample browser on the selectors of the sample pages, in any page. *)
Lemma matches_undefined (p : Page) (e : elem) :
  matches (Browser := sample_browser) p e "undefined"
  = String.eqb "UNDEFINED" (nodeName (els p e)).
Proof.
  change (matches p e "undefined")
    with (true && ((false || String.eqb "UNDEFINED" (nodeName (els p e)))
                   && true)).
  simpl. apply andb_true_r.
Qed.

Lemma matches_active (p : Page) (e : elem) :
  matches (Browser := sample_browser) p e ".toggle--active"
  = has_class p e "toggle--active".
Proof.
  change (matches p e ".toggle--active")
    with (true && (true && (has_class p e "toggle--active" && true))).
  simpl. apply andb_true_r.
Qed.

Lemma matches_tab (p : Page) (e : elem) :
  matches (Browser := sample_browser) p e ".tab" = has_class p e "tab".
Proof.
  change (matches p e ".tab")
    with (true && (true && (has_class p e "tab" && true))).
  simpl. apply andb_true_r.
Qed.

Lemma C3_witness :
  exists p',
    Toggle_set (B := sample_browser) 2 None None nav_vetoed = Ok (tt, p')
    /\ p' = record (Called BeforeSet 2) nav_vetoed
    /\ els p' = els nav_vetoed
    /\ timers p' = timers nav_vetoed
    /\ documentListeners p' = documentListeners nav_vetoed
    /\ closures p' = closures nav_vetoed
    /\ trace p' = trace nav_vetoed ++ [Called BeforeSet 2].
Proof.
  apply (C3_beforeSet_false_aborts (B := sample_browser) 2 None None nav_vetoed
           (toggle_at nav_vetoed 2)); vm_compute; reflexivity.
Defined.

Lemma C4_witness :
  Toggle_toggle (B := sample_browser) 2 None nav_active
  = Toggle_unset (B := sample_browser) 2 nav_active
  /\ Toggle_toggle (B := sample_browser) 2 (Some (mouseenter 2)) nav_active
     = Ok (tt, nav_active)
  /\ Toggle_toggle (B := sample_browser) 4 None nav_active
     = Toggle_set (B := sample_browser) 4 None (Some "") nav_active.
Proof.
  split; [|split].
  - apply (C4_toggle_dispatch (B := sample_browser) 2 None nav_active
             (toggle_at nav_active 2) (options_at nav_active 2));
      try (vm_compute; reflexivity).
    discriminate.
  - apply (C4_toggle_dispatch (B := sample_browser) 2 (Some (mouseenter 2))
             nav_active (toggle_at nav_active 2) (options_at nav_active 2));
      try (vm_compute; reflexivity).
    right. reflexivity.
  - apply (C4_toggle_dispatch (B := sample_browser) 4 None nav_active
             (toggle_at nav_active 4) (options_at nav_active 4));
      vm_compute; reflexivity.
Defined.

Lemma C5_witness :
  Toggle_unset (B := sample_browser) 4 nav_active = Ok (tt, nav_active)
  /\ exists p',
       Toggle_unset (B := sample_browser) 2 nav_active = Ok (tt, p')
       /\ has_class p' 2 "toggle--active" = false
       /\ has_class p' 1 "toggle--active" = false
       /\ has_class p' 3 "toggle--active" = false
       /\ existsb (Listener_eqb closeEl_listener) (listeners (els p' 3)) = false
       /\ trace p' =
          trace nav_active
          ++ [Called BeforeUnset 2; ClassRemoved 2 "toggle--active";
              ClassRemoved 1 "toggle--active"; ClassRemoved 3 "toggle--active";
              Called AfterUnset 2].
Proof.
  split.
  - apply (C5_unset_guarded (B := sample_browser) 4 nav_active
             (toggle_at nav_active 4) (options_at nav_active 4));
      vm_compute; reflexivity.
  - apply (proj2 (proj2 (C5_unset_guarded (B := sample_browser) 2 nav_active
                           (toggle_at nav_active 2) (options_at nav_active 2)
                           eq_refl eq_refl)) eq_refl eq_refl 1 3 DefaultHook);
      vm_compute; reflexivity.
Defined.

Lemma page_after_returns (m : M unit) (p : Page) :
  returns m p = true -> m p = Ok (tt, page_after m p).
Proof.
  unfold returns, page_after. destruct (m p) as [[[] q]|]; [reflexivity|].
  discriminate.
Qed.

(** On [menu_active] trigger [2] shares no element with trigger [5]. *)
Lemma menu_alone : alone menu_active 2.
Proof.
  intros ts u us x Hts Hu Hus Hx Hin.
  vm_compute in Hts. injection Hts as <-.
  destruct u as [|[|[|[|[|[|[|[|u]]]]]]]]; vm_compute in Hus;
    try discriminate Hus.
  - now apply Hu.
  - injection Hus as <-. simpl in Hx, Hin.
    destruct Hx as [<-|[<-|[<-|[]]]];
      destruct Hin as [H|[H|[H|[]]]]; discriminate H.
Defined.

Lemma C1_witness :
  consistent
    (page_after (run (B := sample_browser) (OpSet 5 None None)) menu_active) 2
  = true.
Proof.
  apply (C1_marker_whole_when_alone (B := sample_browser) (OpSet 5 None None)
           menu_active _ 2 menu_alone).
  - vm_compute. reflexivity.
  - apply (page_after_returns (run (B := sample_browser) (OpSet 5 None None))
             menu_active).
    vm_compute. reflexivity.
Defined.

(** On the sample pages [tab] is the active class of no trigger. *)
Lemma tab_no_marker : ~ marker tabs_active "tab".
Proof.
  intros (v & vs & vo & Hv & Ho & Hc).
  destruct v as [|[|[|[|[|[|[|v]]]]]]]; vm_compute in Hv;
    try discriminate Hv;
    injection Hv as <-; vm_compute in Ho; injection Ho as <-;
    discriminate Hc.
Defined.

Lemma C2_witness :
  let p := tabs_active in
  let p' := page_after (Toggle_set (B := sample_browser) 4 None None) p in
  let c := activeClass (options_at p 4) in
  exists q,
    Toggle_unsetAll (B := sample_browser) 4
      (record (Called BeforeUnsetAll 4) (record (Called BeforeSet 4) p))
    = Ok (tt, q)
    /\ has_class q 2 c = false
    /\ has_class p' 2 c = false
    /\ trace p' = trace q ++ [ClassAdded 4 c; ClassAdded 1 c; ClassAdded 5 c;
                              Called AfterSet 4].
Proof.
  intros p p' c.
  apply (C2_sweep_before_marker (B := sample_browser) 4 2 None None p p'
           (toggle_at p 4) (toggle_at p 2) (options_at p 4) (options_at p 2)
           1 5).
  - vm_compute. reflexivity.
  - vm_compute. reflexivity.
  - vm_compute. reflexivity.
  - vm_compute. reflexivity.
  - apply (page_after_returns (Toggle_set (B := sample_browser) 4 None None) p).
    vm_compute. reflexivity.
  - vm_compute. reflexivity.
  - vm_compute. reflexivity.
  - vm_compute. reflexivity.
  - vm_compute. reflexivity.
  - vm_compute. reflexivity.
  - vm_compute. tauto.
  - discriminate.
  - discriminate.
  - discriminate.
  - intros r Hr.
    replace (activeClass (options_at p 4)) with "toggle--active"
      by (vm_compute; reflexivity).
    apply matches_active.
  - intros r Hr.
    replace (selector (skipSelector (options_at p 4))) with "undefined"
      by (vm_compute; reflexivity).
    rewrite matches_undefined, (evolves_nodeName p r 2 Hr).
    vm_compute. reflexivity.
  - right. intros r Hr.
    replace (selector (siblingSelector (options_at p 4))) with ".tab"
      by (vm_compute; reflexivity).
    rewrite matches_tab, (evolves_class p r 2 "tab" Hr tab_no_marker).
    vm_compute. reflexivity.
  - intros r _.
    replace (beforeUnset (toggle_at p 2)) with (Some DefaultHook)
      by (vm_compute; reflexivity).
    discriminate.
Defined.





Lemma C10_witness :
  querySelectorAll (B := sample_browser) nav_active
    ("." ++ activeClass (options_at nav_active 4))
  = [1; 2; 3]
  /\ filter (fun e => match toggle (els nav_active e) with
                      | Some _ => true
                      | None => false
                      end) [1; 2; 3] = [2]
  /\ Toggle_unsetAll (B := sample_browser) 4 nav_active
     = (activeTriggers <- document_querySelectorAll (B := sample_browser)
                            ("." ++ activeClass (options_at nav_active 4)) ;;
        forEach
          (filter (fun e => match toggle (els nav_active e) with
                            | Some _ => true
                            | None => false
                            end) activeTriggers)
          (unsetAll_visit (B := sample_browser)
             (skipSelector (options_at nav_active 4))
             (siblingSelector (options_at nav_active 4)))) nav_active.
Proof.
  split; [vm_compute; reflexivity|]. split; [vm_compute; reflexivity|].
  apply (C10_unbound_elements_passed (B := sample_browser) 4 nav_active
           (toggle_at nav_active 4) (options_at nav_active 4)).
  - vm_compute. reflexivity.
  - vm_compute. reflexivity.
Defined.

Lemma answers_returns {A : Type} (m : M A) (p : Page) (d : A) :
  answers m p = true -> m p = Ok (value_of m p d, state_after m p).
Proof.
  unfold answers, value_of, state_after.
  destruct (m p) as [[a q]|]; [reflexivity|discriminate].
Qed.

Lemma nav_persistent_wired : well_wired nav_persistent.
Proof.
  intros e ts H.
  destruct e as [|[|[|[|[|[|[|e]]]]]]]; vm_compute in H;
    try discriminate H; injection H as <-; reflexivity.
Defined.

Lemma nav_persistent_safe :
  dom_safe (B := sample_browser) nav_persistent.
Proof.
  split; [vm_compute; reflexivity|]. split.
  - intros e ts o Hts Ho.
    destruct e as [|[|[|[|[|[|[|e]]]]]]]; vm_compute in Hts;
      try discriminate Hts; injection Hts as <-; vm_compute in Ho;
      injection Ho as <-; vm_compute; repeat split.
  - intros e s H _.
    destruct e as [|[|[|[|[|[|[|e]]]]]]]; vm_compute in H; discriminate H.
Defined.

Lemma X1_witness :
  exists p',
    run (B := sample_browser) (OpToggle 2 None) nav_persistent = Ok (tt, p').
Proof.
  apply (X1_run_never_throws (B := sample_browser) (OpToggle 2 None)
           nav_persistent nav_persistent_wired nav_persistent_safe).
  vm_compute. reflexivity.
Defined.

Lemma X2_witness :
  shrinks nav_active
    (page_after (Toggle_unset (B := sample_browser) 2) nav_active).
Proof.
  apply (X2_unset_only_takes_away (B := sample_browser) 2 nav_active).
  left. apply (page_after_returns (Toggle_unset (B := sample_browser) 2)).
  vm_compute. reflexivity.
Defined.

Lemma X3_witness :
  let p' := page_after (run (B := sample_browser) (OpSet 2 None None))
              nav_persistent in
  page_fixed p' = page_fixed nav_persistent
  /\ forall x, fixed (els p' x) = fixed (els nav_persistent x).
Proof.
  intro p'.
  apply (X3_run_keeps_bindings (B := sample_browser) (OpSet 2 None None)).
  apply (page_after_returns (run (B := sample_browser) (OpSet 2 None None))).
  vm_compute. reflexivity.
Defined.

Lemma X4_witness :
  let p' := page_after (Toggle_unset (B := sample_browser) 2) nav_active in
  Toggle_unset (B := sample_browser) 2 p' = Ok (tt, p').
Proof.
  intro p'.
  apply (X4_unset_twice (B := sample_browser) 2 nav_active).
  - apply (page_after_returns (Toggle_unset (B := sample_browser) 2)).
    vm_compute. reflexivity.
  - intros ts Hts. vm_compute in Hts. injection Hts as <-. discriminate.
Defined.

Lemma X5_witness :
  let p := nav_persistent in
  let p' := page_after (Toggle_set (B := sample_browser) 2 None None) p in
  let o := options_at p 2 in
  has_class p' 2 (activeClass o) = true
  /\ has_class p' 1 (activeClass o) = true
  /\ has_class p' 3 (activeClass o) = true
  /\ In closeEl_listener (listeners (els p' 3)).
Proof.
  intros p p' o.
  apply (X5_set_marks (B := sample_browser) 2 None None p p' (toggle_at p 2)).
  - vm_compute. reflexivity.
  - vm_compute. reflexivity.
  - vm_compute. reflexivity.
  - vm_compute. reflexivity.
  - apply (page_after_returns (Toggle_set (B := sample_browser) 2 None None)).
    vm_compute. reflexivity.
  - vm_compute. discriminate.
Defined.


Lemma X7_witness :
  let p' := page_after (Toggle_toggle (B := sample_browser) 2 None) nav_active in
  has_class p' 2 (activeClass (options_at nav_active 2))
  = negb (has_class nav_active 2 (activeClass (options_at nav_active 2))).
Proof.
  intro p'.
  apply (X7_toggle_flips (B := sample_browser) 2 None nav_active p'
           (toggle_at nav_active 2)).
  - vm_compute. reflexivity.
  - vm_compute. reflexivity.
  - apply (page_after_returns (Toggle_toggle (B := sample_browser) 2 None)).
    vm_compute. reflexivity.
  - vm_compute. discriminate.
  - vm_compute. discriminate.
  - vm_compute. reflexivity.
  - discriminate.
Defined.

Lemma X8_witness :
  Toggle_unsetAll (B := sample_browser) 4 nav_half = Throw TypeError.
Proof.
  apply (X8_half_bound_element_breaks_sweep (B := sample_browser) 4 1 nav_half
           (toggle_at nav_half 4) (toggle_at nav_half 1)
           (options_at nav_half 4) (options_at nav_half 1) [] [2; 3]).
  - vm_compute. reflexivity.
  - vm_compute. reflexivity.
  - vm_compute. reflexivity.
  - vm_compute. reflexivity.
  - intros x [].
  - vm_compute. reflexivity.
  - vm_compute. reflexivity.
  - vm_compute. reflexivity.
  - vm_compute. reflexivity.
  - vm_compute. reflexivity.
  - vm_compute. reflexivity.
  - left. vm_compute. reflexivity.
Defined.

Lemma X9_witness :
  let p' := page_after (constructor (B := sample_browser) (single 4 (plain "#m2")))
              nav_persistent in
  List.length (filter (Listener_eqb keydown) (documentListeners p')) = 1
  /\ forall l, l <> keydown ->
       (In l (documentListeners p') <-> In l (documentListeners nav_persistent)).
Proof.
  intro p'.
  apply (X9_constructor_keydown_once (B := sample_browser)
           (single 4 (plain "#m2")) nav_persistent).
  apply (page_after_returns
           (constructor (B := sample_browser) (single 4 (plain "#m2")))).
  vm_compute. reflexivity.
Defined.

Lemma X10_witness :
  _setupTrigger (B := sample_browser) both 2 nav_broken = Throw SyntaxError
  /\ constructor (B := sample_browser) both nav_broken = Throw SyntaxError.
Proof.
  apply (X10_malformed_payload_stops_constructor (B := sample_browser) both 2
           [4] "{target: #m1}" nav_broken).
  - vm_compute. reflexivity.
  - discriminate.
  - reflexivity.
  - reflexivity.
Defined.

Lemma X11_witness :
  let this := single 2 (plain "#m1") in
  let p' := page_after (_setupTrigger (B := sample_browser) this 2) nav_page in
  exists ts o,
    toggle (els p' 2) = Some ts
    /\ options ts = Some o
    /\ (forall x, x <> 2 -> toggle (els p' x) = toggle (els nav_page x))
    /\ forall tgt,
         targetEl ts = Some tgt ->
         beforeUnset ts = hook_or_default (opt_beforeUnset o)
         /\ afterUnset ts = hook_or_default (opt_afterUnset o)
         /\ beforeUnsetAll ts = hook_or_default (opt_beforeUnsetAll o)
         /\ beforeSet ts = hook_or_default (opt_beforeSet o)
         /\ afterSet ts = hook_or_default (opt_afterSet o)
         /\ methods ts = Some 2
         /\ toggleTrigger (els p' tgt) = Some 2
         /\ getAttribute p' 2 (attribute_name this) = None
         /\ (ancestors (els nav_page 2) <> [] ->
             wired ts = true /\ (well_wired nav_page -> well_wired p')).
Proof.
  intros this p'.
  apply (X11_setup_completes (B := sample_browser) this 2 nav_page p').
  apply (page_after_returns (_setupTrigger (B := sample_browser) this 2)).
  vm_compute. reflexivity.
Defined.

Lemma X12_witness :
  let p := nav_two_events in
  let p' := page_after (_setupHandlers 2) p in
  (forall name,
     In name (split_space (string_or (event (options_at p 2)) "click")) ->
     In (handler name) (listeners (els p' 2)))
  /\ (forall x l, In l (listeners (els p x)) -> In l (listeners (els p' x)))
  /\ exists p'',
       _setupHandlers 2 p' = Ok (tt, p'')
       /\ forall x, listeners (els p'' x) = listeners (els p' x).
Proof.
  intros p p'.
  apply (X12_handlers_registered_once 2 p p'
           (toggle_at p 2) (options_at p 2)).
  - vm_compute. reflexivity.
  - vm_compute. reflexivity.
  - apply (page_after_returns (_setupHandlers 2)).
    vm_compute. reflexivity.
Defined.

Lemma X13_witness :
  let p := menu_active in
  let p' := page_after (blurCallback (B := sample_browser) 0 2 "click" 0 (click 7))
              p in
  ~ In {| l_type := "click"; l_callback := BlurCallback 0 2 "click";
          l_capture := true |} (listeners (els p' 0))
  /\ shrinks p p'
  /\ ((forall q, answer (B := sample_browser) (beforeUnset (toggle_at p 2)) q 2 None
                 <> Some false) ->
      has_class p' 2 (activeClass (options_at p 2)) = false).
Proof.
  intros p p'.
  assert (H1 : toggle (els p 2) = Some (toggle_at p 2))
    by (vm_compute; reflexivity).
  assert (H2 : options (toggle_at p 2) = Some (options_at p 2))
    by (vm_compute; reflexivity).
  assert (H3 : parentEl (toggle_at p 2) = Some 1) by (vm_compute; reflexivity).
  assert (H4 : targetEl (toggle_at p 2) = Some 3) by (vm_compute; reflexivity).
  assert (H5 : blurCallback (B := sample_browser) 0 2 "click" 0 (click 7) p
               = Ok (tt, p')).
  { apply (page_after_returns
             (blurCallback (B := sample_browser) 0 2 "click" 0 (click 7))).
    vm_compute. reflexivity. }
  apply (proj2 (X13_blur_one_shot (B := sample_browser) 0 2 "click" 0 (click 7)
                  p p' (toggle_at p 2) (options_at p 2) 1 3 H1 H2 H3 H4 H5)).
  vm_compute. reflexivity.
Defined.

Lemma X14_witness :
  let p := nav_timed_active in
  let p' := page_after (mouseLeaveCallback (B := sample_browser) 1 2 1) p in
  ~ In {| l_type := "mouseleave"; l_callback := MouseLeaveCallback 1 2;
          l_capture := false |} (listeners (els p' 1))
  /\ shrinks p p'
  /\ ((forall q, answer (B := sample_browser) (beforeUnset (toggle_at p 2)) q 2 None
                 <> Some false) ->
      has_class p' 2 (activeClass (options_at p 2)) = false).
Proof.
  intros p p'.
  apply (X14_mouseleave_one_shot (B := sample_browser) 1 2 1 p p'
           (toggle_at p 2) (options_at p 2)).
  - vm_compute. reflexivity.
  - vm_compute. reflexivity.
  - apply (page_after_returns (mouseLeaveCallback (B := sample_browser) 1 2 1)).
    vm_compute. reflexivity.
Defined.

Lemma X15_witness :
  let p := menu_closable in
  let p' := page_after (Toggle_closeElCallback (B := sample_browser) 3 (click 3))
              p in
  shrinks p p' /\ Toggle_unset (B := sample_browser) 2 p = Ok (tt, p').
Proof.
  intros p p'.
  assert (H1 : toggleTrigger (els p 3) = Some 2) by (vm_compute; reflexivity).
  assert (H2 : toggle (els p 2) = Some (toggle_at p 2))
    by (vm_compute; reflexivity).
  assert (H3 : options (toggle_at p 2) = Some (options_at p 2))
    by (vm_compute; reflexivity).
  assert (H4 : Toggle_closeElCallback (B := sample_browser) 3 (click 3) p
               = Ok (tt, p')).
  { apply (page_after_returns
             (Toggle_closeElCallback (B := sample_browser) 3 (click 3))).
    vm_compute. reflexivity. }
  destruct (X15_inner_click (B := sample_browser) 3 (click 3) p p' 2
              (toggle_at p 2) (options_at p 2) H1 H2 H3 H4) as [Hs Hc].
  split; [exact Hs|].
  assert (Hclose : closest (B := sample_browser) p (ev_target (click 3))
                     (closeSelector (options_at p 2)) = Some 3)
    by (vm_compute; reflexivity).
  rewrite Hclose in Hc.
  assert (Hattr : getAttribute p 3 "data-toggle-close" = None)
    by (vm_compute; reflexivity).
  rewrite Hattr in Hc. exact Hc.
Defined.

Lemma X16_witness :
  let p := menu_focused in
  let p' := page_after (_toggleOnReturn (B := sample_browser) (enter 2)) p in
  has_class p' (activeElement p) (activeClass (options_at p 2)) = true
  /\ has_class p' 1 (activeClass (options_at p 2)) = true
  /\ has_class p' 3 (activeClass (options_at p 2)) = true.
Proof.
  intros p p'.
  apply (X16_enter_activates (B := sample_browser) (enter 2) p p'
           (toggle_at p 2) (options_at p 2) 1 3).
  - vm_compute. reflexivity.
  - vm_compute. reflexivity.
  - vm_compute. reflexivity.
  - vm_compute. reflexivity.
  - reflexivity.
  - discriminate.
  - vm_compute. discriminate.
  - vm_compute. reflexivity.
  - intro q.
    replace (beforeSet (toggle_at p 2)) with (Some DefaultHook)
      by (vm_compute; reflexivity).
    discriminate.
  - apply (page_after_returns (_toggleOnReturn (B := sample_browser) (enter 2))).
    vm_compute. reflexivity.
Defined.

Lemma X17_witness :
  let p := nav_persistent in
  let r := value_of (_getParent (B := sample_browser) 2) p None in
  let p' := state_after (_getParent (B := sample_browser) 2) p in
  p' = p
  /\ (ancestors (els p 2) <> [] -> r <> None)
  /\ forall a, r = Some a ->
       a = 2 \/ In a (ancestors (els p 2)) \/ In a (doc p).
Proof.
  intros p r p'.
  apply (X17_parent_found (B := sample_browser) 2 p p' r).
  apply (answers_returns (_getParent (B := sample_browser) 2) p None).
  vm_compute. reflexivity.
Defined.

Lemma X18_witness :
  let d := fill_in no_options in
  activeClass
    (value_of (_getOptions (B := sample_browser) opening 2) nav_page d)
  = "open"
  /\ activeClass
       (value_of (_getOptions (B := sample_browser) showing 2) nav_payload d)
     = "open"
  /\ activeClass
       (value_of (_getOptions (B := sample_browser) showing 4) nav_payload d)
     = "shown".
Proof.
  intro d. split; [|split].
  - destruct (X18_options_filled (B := sample_browser) opening 2 nav_page
                (state_after (_getOptions (B := sample_browser) opening 2)
                   nav_page)
                (value_of (_getOptions (B := sample_browser) opening 2)
                   nav_page d))
      as (_ & _ & _ & H & _).
    { apply (answers_returns (_getOptions (B := sample_browser) opening 2)).
      vm_compute. reflexivity. }
    apply H; [left; vm_compute; reflexivity|reflexivity|discriminate].
  - destruct (X18_options_filled (B := sample_browser) showing 2 nav_payload
                (state_after (_getOptions (B := sample_browser) showing 2)
                   nav_payload)
                (value_of (_getOptions (B := sample_browser) showing 2)
                   nav_payload d))
      as (_ & _ & _ & _ & H).
    { apply (answers_returns (_getOptions (B := sample_browser) showing 2)).
      vm_compute. reflexivity. }
    destruct (H payload_open
                {| r_closeSelector := None; r_activeClass := Some "open";
                   r_unsetSelf := None; r_parent := None; r_target := None;
                   r_event := None; r_persist := None;
                   r_unsetOnHoverOut := None; r_timeout := None;
                   r_siblingSelector := None; r_skipSelector := None;
                   r_auto := None; r_beforeUnset := None;
                   r_afterUnset := None; r_beforeUnsetAll := None;
                   r_beforeSet := None; r_afterSet := None;
                   r_breakpoints := None |}) as [Hc _].
    + vm_compute. reflexivity.
    + vm_compute. discriminate.
    + vm_compute. reflexivity.
    + apply Hc; [reflexivity|discriminate].
  - destruct (X18_options_filled (B := sample_browser) showing 4 nav_payload
                (state_after (_getOptions (B := sample_browser) showing 4)
                   nav_payload)
                (value_of (_getOptions (B := sample_browser) showing 4)
                   nav_payload d))
      as (_ & _ & _ & H & _).
    { apply (answers_returns (_getOptions (B := sample_browser) showing 4)).
      vm_compute. reflexivity. }
    apply H; [left; vm_compute; reflexivity|reflexivity|discriminate].
Defined.
